(** * jpegtran.transform: orientation tables, transforms and thumbnail upkeep

    A shallow embedding of [src/jpegtran/transform.py] (Python 3 reading:
    [/] on integers is true division).  The module [jpegtran.lib] is a
    collaborator whose code is not part of the sources; it is taken as a
    type class of pure functions on encoded bytes, and every call made to
    it is recorded in a trace. *)

From Stdlib Require Import ZArith QArith Qround Ascii String List Lia Bool.
From Stdlib Require Import Floats.SpecFloat.
From stdpp Require Import base option list gmap strings.

Local Open Scope Z_scope.

(** ** The module-level orientation tables *)

Definition dict (l : list (Z * Z)) : gmap Z Z := list_to_map l.

Definition EXIF_ROT_MAP : gmap Z (gmap Z Z) :=
  list_to_map
    [ (90,  dict [(1, 8); (8, 3); (3, 6); (6, 1); (2, 7); (7, 4); (4, 5); (5, 2)]);
      (180, dict [(1, 3); (3, 1); (2, 4); (4, 2); (5, 7); (7, 5); (6, 8); (8, 6)]);
      (270, dict [(1, 6); (6, 3); (3, 8); (8, 1); (2, 5); (5, 4); (4, 7); (7, 2)]) ].

Definition EXIF_FLIP_MAP : gmap string (gmap Z Z) :=
  list_to_map
    [ ("horizontal", dict [(1, 2); (2, 1); (3, 4); (4, 3); (5, 6); (6, 5); (7, 8); (8, 7)]);
      ("vertical",   dict [(1, 4); (4, 1); (2, 3); (3, 2); (5, 8); (8, 5); (6, 7); (7, 6)]) ].

Definition EXIF_TRANSPOSE_MAP : gmap Z Z :=
  dict [(1, 5); (5, 1); (2, 6); (6, 2); (3, 7); (7, 3); (4, 8); (8, 4)].

Definition EXIF_TRANVERSE_MAP : gmap Z Z :=
  dict [(1, 7); (7, 1); (2, 8); (8, 2); (3, 5); (5, 3); (4, 6); (6, 4)].

(** ** Python exceptions and numbers *)

Inductive exn :=
  | ValueError (msg : string)
  | Exception_ (msg : string)
  | KeyError
  | ZeroDivisionError
  | OverflowError
  | ExifException               (* jpegtran.lib.ExifException *)
  | LibError (code : nat).      (* any other exception raised inside jpegtran.lib *)

(** A call either returns or raises. *)
Definition res (A : Type) : Type := (exn + A)%type.

Definition res_bind {A B} (r : res A) (k : A -> res B) : res B :=
  match r with
  | inl e => inl e
  | inr a => k a
  end.

Declare Scope res_scope.
Delimit Scope res_scope with res.
Notation "'try' x := r 'in' k" := (res_bind r (fun x => k))
  (at level 10, x name, r at level 100, k at level 200) : res_scope.

(** Python floats are IEEE-754 binary64. *)
Definition prec : Z := 53.
Definition emax : Z := 1024.
Abbreviation float := spec_float.

(** [a / b] on integers: the correctly rounded quotient. *)
Definition int_truediv (a b : Z) : res float :=
  if b =? 0 then inl ZeroDivisionError
  else if a =? 0 then inr (S754_zero (b <? 0))
  else
    let '(mz, ez, lz) := SFdiv_core_binary prec emax (Z.abs a) 0 (Z.abs b) 0 in
    match binary_round_aux prec emax (xorb (a <? 0) (b <? 0)) mz ez lz with
    | S754_infinity _ => inl OverflowError
    | q => inr q
    end.

(** The implicit conversion of an integer operand next to a float. *)
Definition float_of_int (n : Z) : res float :=
  match binary_normalize prec emax n 0 false with
  | S754_infinity _ => inl OverflowError
  | x => inr x
  end.

(** [n / x] with [n] an integer and [x] a float. *)
Definition int_div_float (n : Z) (x : float) : res float :=
  match float_of_int n with
  | inl e => inl e
  | inr fn =>
      match x with
      | S754_zero _ => inl ZeroDivisionError
      | _ => inr (SFdiv prec emax fn x)
      end
  end.

(** [n * x] with [n] an integer and [x] a float. *)
Definition int_mul_float (n : Z) (x : float) : res float :=
  match float_of_int n with
  | inl e => inl e
  | inr fn => inr (SFmul prec emax fn x)
  end.

(** [int(x)]: truncation towards zero. *)
Definition int_of_float (x : float) : res Z :=
  match x with
  | S754_zero _ => inr 0
  | S754_finite s m e => inr (cond_Zopp s (Z.shiftl (Z.pos m) e))
  | S754_infinity _ => inl OverflowError
  | S754_nan => inl (ValueError "cannot convert float NaN to integer")
  end.

(** The target size computed in [_update_thumbnail] from the two dimensions:
<<
        if self.width > self.height:
            target_width = 160
            target_height = int(160/(self.width/self.height))
        else:
            target_height = 160
            target_width = int(160*(self.width/self.height))
>> *)
Definition target_size (width height : Z) : res (Z * Z) :=
  (if width >? height then
     try r := int_truediv width height in
     try q := int_div_float 160 r in
     try target_height := int_of_float q in
     inr (160, target_height)
   else
     try r := int_truediv width height in
     try p := int_mul_float 160 r in
     try target_width := int_of_float p in
     inr (target_width, 160))%res.

(** The same size, read in exact rational arithmetic:
    [floor(160 / (width/height))] and [floor(160 * (width/height))]. *)
Definition target_size_exact (width height : Z) : Z * Z :=
  let ratio := (inject_Z width / inject_Z height)%Q in
  if width >? height then (160, Qfloor (inject_Z 160 / ratio)%Q)
  else (Qfloor (inject_Z 160 * ratio)%Q, 160).

(** ** Image objects, the collaborator and the store *)

Definition bytes : Type := list Byte.byte.

(** A [JPEGImage] object; [self.data] is the bytearray it owns. *)
Definition handle : Type := nat.

(** The transformations offered by [lib.Transformation]. *)
Inductive tr_op :=
  | OpRotate (angle : Z)
  | OpFlip (direction : string)
  | OpTranspose
  | OpTransverse
  | OpCrop (x y width height : Z)
  | OpScale (width height quality : Z).

(** [jpegtran.lib]: [Transformation(data)] with its methods and [Exif(data)]
    with its two read/write properties.  The setters change the bytearray
    they are given in place; here they return its new contents, and a setter
    that raises leaves the contents as they were. *)
Class Lib := {
  lib_get_dimensions : bytes -> res (Z * Z);
  lib_transform : tr_op -> bytes -> res bytes;
  lib_exif_orientation : bytes -> res Z;
  lib_exif_set_orientation : Z -> bytes -> res bytes;
  lib_exif_thumbnail : bytes -> res bytes;
  lib_exif_set_thumbnail : bytes -> bytes -> res bytes
}.

(** One entry per call into [jpegtran.lib], and one per entry into
    [_update_thumbnail]. *)
Inductive event :=
  | LibDimensions (h : handle)
  | LibTransform (h : handle) (op : tr_op)
  | LibGetOrientation (h : handle)
  | LibSetOrientation (h : handle) (value : Z)
  | LibGetThumbnail (h : handle)
  | LibSetThumbnail (h : handle) (data : bytes)
  | EnterUpdateThumbnail (h : handle).

(** The store: the contents of every image's bytearray, indexed by handle,
    and the calls made so far, most recent first. *)
Record state := State { heap : list bytes; trace : list event }.

Inductive outcome (A : Type) :=
  | Ok (a : A)
  | Raise (e : exn)
  | OutOfFuel          (* the recursion budget of the model ran out *)
  | BadHandle.         (* a handle that names no object of the store *)
Arguments Ok {A} a.
Arguments Raise {A} e.
Arguments OutOfFuel {A}.
Arguments BadHandle {A}.

Definition M (A : Type) : Type := state -> outcome A * state.

Definition ret {A} (a : A) : M A := fun s => (Ok a, s).

Definition bind {A B} (c : M A) (k : A -> M B) : M B :=
  fun s =>
    match c s with
    | (Ok a, s') => k a s'
    | (Raise e, s') => (Raise e, s')
    | (OutOfFuel, s') => (OutOfFuel, s')
    | (BadHandle, s') => (BadHandle, s')
    end.

Definition raise {A} (e : exn) : M A := fun s => (Raise e, s).

Definition out_of_fuel {A} : M A := fun s => (OutOfFuel, s).

Declare Scope M_scope.
Delimit Scope M_scope with M.
Notation "x <- c ;; k" := (bind c (fun x => k))
  (at level 100, c at next level, right associativity) : M_scope.
Notation "c ;;; k" := (bind c (fun _ => k))
  (at level 100, right associativity) : M_scope.
Local Open Scope M_scope.

(** Record a call and return what it returns. *)
Definition log (ev : event) : M unit :=
  fun s => (Ok tt, State (heap s) (ev :: trace s)).

Definition lift {A} (r : res A) : M A :=
  match r with
  | inl e => raise e
  | inr a => ret a
  end.

Definition call {A} (ev : event) (r : res A) : M A := log ev ;;; lift r.

(** [self.data] *)
Definition data (self : handle) : M bytes :=
  fun s =>
    match heap s !! self with
    | Some d => (Ok d, s)
    | None => (BadHandle, s)
    end.

(** The in-place change of [self.data]. *)
Definition store (self : handle) (d : bytes) : M unit :=
  fun s => (Ok tt, State (<[self := d]> (heap s)) (trace s)).

(** [try: ... except lib.ExifException: return None] *)
Definition except_ExifException {A} (c : M A) : M (option A) :=
  fun s =>
    match c s with
    | (Ok a, s') => (Ok (Some a), s')
    | (Raise ExifException, s') => (Ok None, s')
    | (Raise e, s') => (Raise e, s')
    | (OutOfFuel, s') => (OutOfFuel, s')
    | (BadHandle, s') => (BadHandle, s')
    end.

(** Short-circuit [and] and [or] over conditions that query the image. *)
Definition and_then (c1 c2 : M bool) : M bool :=
  b <- c1 ;; if b then c2 else ret false.

Definition or_else (c1 c2 : M bool) : M bool :=
  b <- c1 ;; if b then ret true else c2.

(** [d[k]] on a dictionary. *)
Definition subscript {V} (o : option V) : M V :=
  match o with
  | Some v => ret v
  | None => raise KeyError
  end.

(** [x or 1] for [x] an integer or [None]. *)
Definition or_1 (x : option Z) : Z :=
  match x with
  | None => 1
  | Some 0 => 1
  | Some v => v
  end.

(** ** class JPEGImage *)

(** The argument of the [exif_thumbnail] setter: a [JPEGImage], or raw bytes
    (a [bytes] value is copied to a bytearray, anything else is passed on). *)
Inductive thumbnail_arg :=
  | ArgImage (image : handle)
  | ArgBytes (b : bytes).

Section JPEGImage.
Context `{Lib}.

(** [JPEGImage(blob=blob)]: an empty blob is refused, otherwise a new
    object owns a copy of it. *)
Definition JPEGImage (blob : bytes) : M handle :=
  match blob with
  | [] => raise (Exception_ "Must initialize with either fname or blob.")
  | _ => fun s => (Ok (length (heap s)), State (heap s ++ [blob]) (trace s))
  end.

Definition get_dimensions (self : handle) : M (Z * Z) :=
  d <- data self ;;
  call (LibDimensions self) (lib_get_dimensions d).

Definition width (self : handle) : M Z :=
  p <- get_dimensions self ;; ret (fst p).

Definition height (self : handle) : M Z :=
  p <- get_dimensions self ;; ret (snd p).

(** The [exif_thumbnail] property. *)
Definition exif_thumbnail (self : handle) : M (option handle) :=
  except_ExifException
    (d <- data self ;;
     blob <- call (LibGetThumbnail self) (lib_exif_thumbnail d) ;;
     JPEGImage blob).

Definition set_exif_thumbnail (self : handle) (image : thumbnail_arg) : M unit :=
  match image with ArgImage i => data i ;;; ret tt | ArgBytes _ => ret tt end ;;;
  old <- exif_thumbnail self ;;
  match old with
  | None => raise (ValueError "No pre-existing thumbnail found, cannot set.")
  | Some _ =>
      d <- data self ;;
      new <- match image with ArgImage i => data i | ArgBytes b => ret b end ;;
      d' <- call (LibSetThumbnail self new) (lib_exif_set_thumbnail new d) ;;
      store self d'
  end.

(** The [exif_orientation] property. *)
Definition exif_orientation (self : handle) : M (option Z) :=
  except_ExifException
    (d <- data self ;;
     call (LibGetOrientation self) (lib_exif_orientation d)).

Definition set_exif_orientation (self : handle) (value : Z) : M unit :=
  if negb ((0 <? value) && (value <? 9)) then
    raise (ValueError "Orientation value must be between 1 and 8")
  else
    d <- data self ;;
    d' <- call (LibSetOrientation self value) (lib_exif_set_orientation value d) ;;
    store self d'.

(** [lib.Transformation(self.data).<op>(...)] wrapped in a new image. *)
Definition transformed (self : handle) (op : tr_op) : M handle :=
  d <- data self ;;
  blob <- call (LibTransform self op) (lib_transform op d) ;;
  JPEGImage blob.

(** The body of [_update_thumbnail], over the [downscale] it calls. *)
Definition update_thumbnail_with
    (downscale : handle -> Z -> Z -> Z -> M handle) (self : handle) : M unit :=
  log (EnterUpdateThumbnail self) ;;;
  old <- exif_thumbnail self ;;
  match old with
  | None => ret tt
  | Some _ =>
      w <- width self ;;
      h <- height self ;;
      target <-
        (if w >? h then
           w <- width self ;;
           h <- height self ;;
           r <- lift (int_truediv w h) ;;
           q <- lift (int_div_float 160 r) ;;
           target_height <- lift (int_of_float q) ;;
           ret (160, target_height)
         else
           w <- width self ;;
           h <- height self ;;
           r <- lift (int_truediv w h) ;;
           p <- lift (int_mul_float 160 r) ;;
           target_width <- lift (int_of_float p) ;;
           ret (target_width, 160)) ;;
      let target_width := fst target in
      let target_height := snd target in
      too_small <-
        and_then (w <- width self ;; ret (target_width >? w))
                 (h <- height self ;; ret (target_height >? h)) ;;
      if too_small then ret tt
      else
        updated <- downscale self target_width target_height 75 ;;
        set_exif_thumbnail self (ArgImage updated)
  end.

(** [downscale] and [_update_thumbnail] call each other; [fuel] bounds the
    depth of that recursion. *)
Fixpoint downscale (fuel : nat) (self : handle) (width_ height_ quality : Z)
    : M handle :=
  match fuel with
  | O => out_of_fuel
  | S fuel' =>
      same <-
        and_then (w <- width self ;; ret (width_ =? w))
                 (h <- height self ;; ret (height_ =? h)) ;;
      if same then ret self
      else
        larger <-
          or_else (w <- width self ;; ret (width_ >? w))
                  (h <- height self ;; ret (height_ >? h)) ;;
        if larger then raise (ValueError "jpegtran can only downscale JPEGs")
        else
          new <- transformed self (OpScale width_ height_ quality) ;;
          update_thumbnail_with (downscale fuel') new ;;;
          ret new
  end.

Definition _update_thumbnail (fuel : nat) (self : handle) : M unit :=
  update_thumbnail_with (downscale fuel) self.

Definition rotate (fuel : nat) (self : handle) (angle : Z) (with_exif : bool)
    : M handle :=
  if negb (bool_decide (angle ∈ [90; 180; 270])) then
    raise (ValueError "Angle must be 90, 180 or 270.")
  else
    img <- transformed self (OpRotate angle) ;;
    (if with_exif then
       table <- subscript (EXIF_ROT_MAP !! angle) ;;
       current <- exif_orientation img ;;
       value <- subscript (table !! or_1 current) ;;
       set_exif_orientation img value
     else ret tt) ;;;
    _update_thumbnail fuel img ;;;
    ret img.

Definition flip (fuel : nat) (self : handle) (direction : string)
    (with_exif : bool) : M handle :=
  if negb (bool_decide (direction ∈ ["horizontal"; "vertical"])) then
    raise (ValueError "Direction must be either 'vertical' or 'horizontal'")
  else
    new <- transformed self (OpFlip direction) ;;
    (if with_exif then
       table <- subscript (EXIF_FLIP_MAP !! direction) ;;
       current <- exif_orientation new ;;
       value <- subscript (table !! or_1 current) ;;
       set_exif_orientation new value
     else ret tt) ;;;
    _update_thumbnail fuel new ;;;
    ret new.

Definition transpose (fuel : nat) (self : handle) (with_exif : bool) : M handle :=
  new <- transformed self OpTranspose ;;
  (if with_exif then
     current <- exif_orientation new ;;
     value <- subscript (EXIF_TRANSPOSE_MAP !! or_1 current) ;;
     set_exif_orientation new value
   else ret tt) ;;;
  _update_thumbnail fuel new ;;;
  ret new.

Definition transverse (fuel : nat) (self : handle) (with_exif : bool) : M handle :=
  new <- transformed self OpTransverse ;;
  (if with_exif then
     current <- exif_orientation new ;;
     value <- subscript (EXIF_TRANVERSE_MAP !! or_1 current) ;;
     set_exif_orientation new value
   else ret tt) ;;;
  _update_thumbnail fuel new ;;;
  ret new.

Definition crop (fuel : nat) (self : handle) (x y width_ height_ : Z) : M handle :=
  valid_crop <-
    and_then (w <- width self ;; ret (x <? w))
      (and_then (h <- height self ;; ret (y <? h))
         (and_then (w <- width self ;; ret (x + width_ <=? w))
                   (h <- height self ;; ret (y + height_ <=? h)))) ;;
  if negb valid_crop then
    raise (ValueError "Crop parameters point outside of the image")
  else
    new <- transformed self (OpCrop x y width_ height_) ;;
    _update_thumbnail fuel new ;;;
    ret new.

(** [exif_autotransform]; an orientation outside 1..8 falls through every
    branch and the method returns [None]. *)
Definition exif_autotransform (fuel : nat) (self : handle) : M (option handle) :=
  orient <- exif_orientation self ;;
  match orient with
  | None => raise (Exception_ "Could not find EXIF orientation")
  | Some 1 => ret (Some self)
  | Some 2 => new <- flip fuel self "horizontal" true ;; ret (Some new)
  | Some 3 => new <- rotate fuel self 180 true ;; ret (Some new)
  | Some 4 => new <- flip fuel self "vertical" true ;; ret (Some new)
  | Some 5 => new <- transpose fuel self true ;; ret (Some new)
  | Some 6 => new <- rotate fuel self 90 true ;; ret (Some new)
  | Some 7 => new <- transverse fuel self true ;; ret (Some new)
  | Some 8 => new <- rotate fuel self 270 true ;; ret (Some new)
  | Some _ => ret None
  end.

End JPEGImage.

(** ** A reference collaborator

    A small container format on which the model can be run: two bytes of
    width, two of height (big endian), one byte that is [xff] when there is
    no EXIF segment and the orientation tag otherwise, then the bytes of the
    embedded thumbnail (none: no thumbnail).  Transformations copy the EXIF
    segment, except scaling, which drops the thumbnail. *)
Module Toy.

Definition byte_of (z : Z) : Byte.byte :=
  default Byte.x00 (Byte.of_N (Z.to_N (z mod 256))).

Definition val (b : Byte.byte) : Z := Z.of_N (Byte.to_N b).

Definition image (w h : Z) (o : Byte.byte) (thumbnail : bytes) : bytes :=
  byte_of (w / 256) :: byte_of w :: byte_of (h / 256) :: byte_of h :: o :: thumbnail.

Definition no_exif (o : Byte.byte) : bool := Byte.eqb o Byte.xff.

Definition get_dimensions (d : bytes) : res (Z * Z) :=
  match d with
  | w1 :: w0 :: h1 :: h0 :: _ :: _ =>
      inr (val w1 * 256 + val w0, val h1 * 256 + val h0)
  | _ => inl (LibError 1)
  end.

Definition transform (op : tr_op) (d : bytes) : res bytes :=
  match d with
  | w1 :: w0 :: h1 :: h0 :: o :: t =>
      match op with
      | OpRotate 180 | OpFlip _ => inr d
      | OpRotate _ | OpTranspose | OpTransverse =>
          inr (h1 :: h0 :: w1 :: w0 :: o :: t)
      | OpCrop _ _ w h => inr (image w h o t)
      | OpScale w h _ => inr (image w h o [])
      end
  | _ => inl (LibError 1)
  end.

Definition exif_orientation (d : bytes) : res Z :=
  match d with
  | _ :: _ :: _ :: _ :: o :: _ =>
      if no_exif o then inl ExifException else inr (val o)
  | _ => inl (LibError 1)
  end.

Definition exif_set_orientation (v : Z) (d : bytes) : res bytes :=
  match d with
  | w1 :: w0 :: h1 :: h0 :: o :: t =>
      if no_exif o then inl ExifException
      else if (0 <=? v) && (v <? 255) then
             inr (w1 :: w0 :: h1 :: h0 :: byte_of v :: t)
           else inl (LibError 2)
  | _ => inl (LibError 1)
  end.

Definition exif_thumbnail (d : bytes) : res bytes :=
  match d with
  | _ :: _ :: _ :: _ :: o :: t =>
      if no_exif o then inl ExifException
      else match t with [] => inl ExifException | _ => inr t end
  | _ => inl (LibError 1)
  end.

Definition exif_set_thumbnail (new d : bytes) : res bytes :=
  match d with
  | w1 :: w0 :: h1 :: h0 :: o :: _ =>
      if no_exif o then inl ExifException
      else inr (w1 :: w0 :: h1 :: h0 :: o :: new)
  | _ => inl (LibError 1)
  end.

#[export] Instance lib : Lib := {
  lib_get_dimensions := get_dimensions;
  lib_transform := transform;
  lib_exif_orientation := exif_orientation;
  lib_exif_set_orientation := exif_set_orientation;
  lib_exif_thumbnail := exif_thumbnail;
  lib_exif_set_thumbnail := exif_set_thumbnail
}.

(** Some thumbnail bytes, and a store holding one image. *)
Definition thumb : bytes := image 16 8 Byte.xff [].

Definition one (d : bytes) : state := State [d] [].

End Toy.

(** The same collaborator, except that an orientation written to an image
    without EXIF data creates the segment instead of failing. *)
Module ToyCreates.

Definition exif_set_orientation (v : Z) (d : bytes) : res bytes :=
  match d with
  | w1 :: w0 :: h1 :: h0 :: _ :: t =>
      if (0 <=? v) && (v <? 255) then
        inr (w1 :: w0 :: h1 :: h0 :: Toy.byte_of v :: t)
      else inl (LibError 2)
  | _ => inl (LibError 1)
  end.

Definition lib : Lib := {|
  lib_get_dimensions := Toy.get_dimensions;
  lib_transform := Toy.transform;
  lib_exif_orientation := Toy.exif_orientation;
  lib_exif_set_orientation := exif_set_orientation;
  lib_exif_thumbnail := Toy.exif_thumbnail;
  lib_exif_set_thumbnail := Toy.exif_set_thumbnail
|}.

End ToyCreates.

(** ** The seven orientation permutations *)

Inductive generator :=
  | Rotate90 | Rotate180 | Rotate270 | FlipH | FlipV | Transpose | Transverse.

(** The dictionary a transform consults for its orientation update. *)
Definition table_of (g : generator) : option (gmap Z Z) :=
  match g with
  | Rotate90 => EXIF_ROT_MAP !! 90
  | Rotate180 => EXIF_ROT_MAP !! 180
  | Rotate270 => EXIF_ROT_MAP !! 270
  | FlipH => EXIF_FLIP_MAP !! "horizontal"
  | FlipV => EXIF_FLIP_MAP !! "vertical"
  | Transpose => Some EXIF_TRANSPOSE_MAP
  | Transverse => Some EXIF_TRANVERSE_MAP
  end.

(** [apply(o, g)]: the subscript of that dictionary at [o]. *)
Definition apply (o : Z) (g : generator) : option Z :=
  table_of g ≫= λ m, m !! o.

(** The permutations as the specification lists them. *)
Definition listed (g : generator) : list (Z * Z) :=
  match g with
  | Rotate90 => [(1, 8); (8, 3); (3, 6); (6, 1); (2, 7); (7, 4); (4, 5); (5, 2)]
  | Rotate180 => [(1, 3); (3, 1); (2, 4); (4, 2); (5, 7); (7, 5); (6, 8); (8, 6)]
  | Rotate270 => [(1, 6); (6, 3); (3, 8); (8, 1); (2, 5); (5, 4); (4, 7); (7, 2)]
  | FlipH => [(1, 2); (2, 1); (3, 4); (4, 3); (5, 6); (6, 5); (7, 8); (8, 7)]
  | FlipV => [(1, 4); (4, 1); (2, 3); (3, 2); (5, 8); (8, 5); (6, 7); (7, 6)]
  | Transpose => [(1, 5); (5, 1); (2, 6); (6, 2); (3, 7); (7, 3); (4, 8); (8, 4)]
  | Transverse => [(1, 7); (7, 1); (2, 8); (8, 2); (3, 5); (5, 3); (4, 6); (6, 4)]
  end.

Definition orientations : list Z := [1; 2; 3; 4; 5; 6; 7; 8].

(** Several operations in a row, the first of the list first. *)
Definition apply_all (o : Z) (gs : list generator) : option Z :=
  foldl (λ acc g, acc ≫= λ a, apply a g) (Some o) gs.

(** ** The store along a run *)

(** The store after one more recorded call. *)
Definition logged (ev : event) (s : state) : state :=
  State (heap s) (ev :: trace s).

(** The store after [n] more queries of the dimensions of [self]. *)
Definition queried (n : nat) (self : handle) (s : state) : state :=
  State (heap s) (replicate n (LibDimensions self) ++ trace s).

(** The store after a new object took a copy of [blob]. *)
Definition allocated (blob : bytes) (s : state) : state :=
  State (heap s ++ [blob]) (trace s).

(** The store after the contents of [self] changed to [d]. *)
Definition stored (self : handle) (d : bytes) (s : state) : state :=
  State (<[self := d]> (heap s)) (trace s).

(** A computation only ever moves the store along [R]. *)
Definition preserves {A} (R : state -> state -> Prop) (c : M A) : Prop :=
  forall s, R s (c s).2.

(** The calls that read or write the orientation tag. *)
Definition orientation_event (ev : event) : Prop :=
  match ev with
  | LibGetOrientation _ | LibSetOrientation _ _ => True
  | _ => False
  end.

(** ** Dispatch, and the vocabulary of the statements *)

(** The method call behind each of the seven operations. *)
Definition perform `{Lib} (g : generator) (fuel : nat) (self : handle)
    (with_exif : bool) : M handle :=
  match g with
  | Rotate90 => rotate fuel self 90 with_exif
  | Rotate180 => rotate fuel self 180 with_exif
  | Rotate270 => rotate fuel self 270 with_exif
  | FlipH => flip fuel self "horizontal" with_exif
  | FlipV => flip fuel self "vertical" with_exif
  | Transpose => transpose fuel self with_exif
  | Transverse => transverse fuel self with_exif
  end.

(** The transformation it asks of the collaborator. *)
Definition codec_op (g : generator) : tr_op :=
  match g with
  | Rotate90 => OpRotate 90
  | Rotate180 => OpRotate 180
  | Rotate270 => OpRotate 270
  | FlipH => OpFlip "horizontal"
  | FlipV => OpFlip "vertical"
  | Transpose => OpTranspose
  | Transverse => OpTransverse
  end.

(** The corrective operation listed for each orientation; none for 1. *)
Definition corrective (o : Z) : option generator :=
  match o with
  | 2 => Some FlipH
  | 3 => Some Rotate180
  | 4 => Some FlipV
  | 5 => Some Transpose
  | 6 => Some Rotate90
  | 7 => Some Transverse
  | 8 => Some Rotate270
  | _ => None
  end.

(** The orientation tag of encoded bytes, [None] when there is none. *)
Definition tag_of `{Lib} (d : bytes) : option Z :=
  match lib_exif_orientation d with
  | inr v => Some v
  | inl _ => None
  end.

(** The current orientation of encoded bytes, as the specification reads it:
    the orientation tag when the image carries one of 1..8, and 1 when it
    carries none (the collaborator raises [ExifException]).  A stored tag 0
    is no orientation; it counts as none. *)
Definition current_orientation `{Lib} (d : bytes) (o : Z) : Prop :=
  (lib_exif_orientation d = inr o /\ 1 <= o <= 8) \/
  (o = 1 /\ (lib_exif_orientation d = inl ExifException \/
             lib_exif_orientation d = inr 0)).

(** The orientation writes among some calls: which image, which value. *)
Definition orientation_writes (evs : list event) : list (handle * Z) :=
  omap (fun ev => match ev with
                  | LibSetOrientation h v => Some (h, v)
                  | _ => None
                  end) evs.

(** [s'] comes from [s] by further calls that all satisfy [P]. *)
Definition adds (P : event -> Prop) (s s' : state) : Prop :=
  exists new, trace s' = new ++ trace s /\ Forall P new.

(** Every object of [s] is still there in [s'], with the same orientation
    tag. *)
Definition keeps_orientation `{Lib} (s s' : state) : Prop :=
  forall h d, heap s !! h = Some d ->
    exists d', heap s' !! h = Some d' /\ lib_exif_orientation d' = lib_exif_orientation d.

(** What the orientation statements assume of the collaborator: a transform
    copies the orientation tag, a tag that was written is the tag read back,
    and writing the thumbnail leaves the tag alone. *)
Class LibLaws `{Lib} : Prop := {
  transform_keeps_orientation : forall op d blob,
    lib_transform op d = inr blob -> lib_exif_orientation blob = lib_exif_orientation d;
  orientation_set_get : forall v d d',
    0 < v < 9 -> lib_exif_set_orientation v d = inr d' -> lib_exif_orientation d' = inr v;
  set_thumbnail_keeps_orientation : forall new d d',
    lib_exif_set_thumbnail new d = inr d' -> lib_exif_orientation d' = lib_exif_orientation d
}.

(** The optional orientation update of a transform, from the table on. *)
Definition propagate `{Lib} (table : gmap Z Z) (img : handle) : M unit :=
  current <- exif_orientation img ;;
  value <- subscript (table !! or_1 current) ;;
  set_exif_orientation img value.

(** The number of dimension queries [downscale] makes before it goes on. *)
Definition downscale_queries (cw w_ h_ : Z) : nat :=
  ((if (w_ >? cw)%Z then 1 else 2) + (if (w_ =? cw)%Z then 2 else 1))%nat.

(** The operations that produce pixels. *)
Inductive pixel_op :=
  | Generator (g : generator) (with_exif : bool)
  | Crop (x y width_ height_ : Z)
  | Downscale (width_ height_ quality : Z).

Definition run_op `{Lib} (fuel : nat) (self : handle) (op : pixel_op) : M handle :=
  match op with
  | Generator g with_exif => perform g fuel self with_exif
  | Crop x y w_ h_ => crop fuel self x y w_ h_
  | Downscale w_ h_ q => downscale fuel self w_ h_ q
  end.

(** A downscale to the very size of the image whose bytes are [d]. *)
Definition identity_downscale `{Lib} (d : bytes) (op : pixel_op) : bool :=
  match op, lib_get_dimensions d with
  | Downscale w_ h_ _, inr (cw, ch) => (w_ =? cw) && (h_ =? ch)
  | _, _ => false
  end.

(** The rectangle test of [crop]. *)
Definition valid_crop (cw ch x y w_ h_ : Z) : bool :=
  (x <? cw) && (y <? ch) && (x + w_ <=? cw) && (y + h_ <=? ch).

(** Every method of the class, called on [self]. *)
Inductive method_call :=
  | CallRotate (angle : Z) (with_exif : bool)
  | CallFlip (direction : string) (with_exif : bool)
  | CallTranspose (with_exif : bool)
  | CallTransverse (with_exif : bool)
  | CallCrop (x y width_ height_ : Z)
  | CallDownscale (width_ height_ quality : Z)
  | CallAutotransform
  | CallGetOrientation
  | CallSetOrientation (value : Z)
  | CallGetThumbnail
  | CallSetThumbnail (image : thumbnail_arg).

Definition invoke `{Lib} (fuel : nat) (self : handle) (c : method_call) : M unit :=
  match c with
  | CallRotate angle with_exif => rotate fuel self angle with_exif ;;; ret tt
  | CallFlip direction with_exif => flip fuel self direction with_exif ;;; ret tt
  | CallTranspose with_exif => transpose fuel self with_exif ;;; ret tt
  | CallTransverse with_exif => transverse fuel self with_exif ;;; ret tt
  | CallCrop x y w_ h_ => crop fuel self x y w_ h_ ;;; ret tt
  | CallDownscale w_ h_ q => downscale fuel self w_ h_ q ;;; ret tt
  | CallAutotransform => exif_autotransform fuel self ;;; ret tt
  | CallGetOrientation => exif_orientation self ;;; ret tt
  | CallSetOrientation value => set_exif_orientation self value
  | CallGetThumbnail => exif_thumbnail self ;;; ret tt
  | CallSetThumbnail image => set_exif_thumbnail self image
  end.

(** A call that, if it writes an orientation, writes one of 1..8. *)
Definition writes_in_range (ev : event) : Prop :=
  match ev with
  | LibSetOrientation _ v => 1 <= v <= 8
  | _ => True
  end.

(** ** Files: the constructor, [save] and [as_blob] *)

(** What the file calls of the class can raise: a Python exception of the
    class itself, or an error of the operating system. *)
Inductive io_exn :=
  | PyExn (e : exn)
  | IOError (errno : nat).

Inductive io_outcome (A : Type) :=
  | IoOk (a : A)
  | IoRaise (e : io_exn)
  | IoBadHandle.
Arguments IoOk {A} a.
Arguments IoRaise {A} e.
Arguments IoBadHandle {A}.

(** [open(fname, 'rb').read()] and [open(fname, 'wb').write(data)] over the
    files of the machine; a failed write may still have changed them. *)
Class FileSystem := {
  files : Type;
  fs_read : string -> files -> io_exn + bytes;
  fs_write : string -> bytes -> files -> option io_exn * files
}.

(** Truth values of the two constructor arguments: [None] and the empty
    string or blob are false. *)
Definition truthy_name (fname : option string) : bool :=
  match fname with
  | Some (String _ _) => true
  | _ => false
  end.

Definition truthy_blob (blob : option bytes) : bool :=
  match blob with
  | Some (_ :: _) => true
  | _ => false
  end.

(** [JPEGImage(fname=..., blob=...)].  The last case cannot be reached: with
    both arguments [None] the first test raises. *)
Definition JPEGImage_init `{FileSystem} (fname : option string)
    (blob : option bytes) (f : files) (s : state) : io_outcome handle * state :=
  if (negb (truthy_name fname) && negb (truthy_blob blob))
     || (truthy_name fname && truthy_blob blob)
  then (IoRaise (PyExn (Exception_ "Must initialize with either fname or blob.")), s)
  else
    match fname, blob with
    | Some name, _ =>
        match fs_read name f with
        | inl e => (IoRaise e, s)
        | inr d => (IoOk (length (heap s)), allocated d s)
        end
    | None, Some b => (IoOk (length (heap s)), allocated b s)
    | None, None =>
        (IoRaise (PyExn (Exception_ "Must initialize with either fname or blob.")), s)
    end.

(** The fragment of regular expressions that [save] uses, matched as
    [re.match] does: from the start of the string, [.] for any character but
    a newline, [$] at the end of the string or before a newline that ends
    it. *)
Inductive char_class :=
  | Dot
  | Chars (cs : list ascii).

Inductive item :=
  | One (c : char_class)
  | Many (c : char_class)
  | Dollar.

Definition newline : ascii := ascii_of_nat 10.

Definition in_class (c : char_class) (a : ascii) : bool :=
  match c with
  | Dot => negb (Ascii.eqb a newline)
  | Chars cs => existsb (Ascii.eqb a) cs
  end.

Fixpoint many_then (c : char_class) (rest : list ascii -> bool) (s : list ascii)
    : bool :=
  rest s ||
  match s with
  | a :: s' => in_class c a && many_then c rest s'
  | [] => false
  end.

Fixpoint re_match (p : list item) : list ascii -> bool :=
  match p with
  | [] => fun _ => true
  | One c :: p' =>
      fun s => match s with
               | a :: s' => in_class c a && re_match p' s'
               | [] => false
               end
  | Many c :: p' => many_then c (re_match p')
  | Dollar :: p' =>
      fun s => match s with
               | [] => re_match p' s
               | [a] => Ascii.eqb a newline && re_match p' s
               | _ => false
               end
  end.

(** [r'^.*\.jp[e]*g$'] *)
Definition jpeg_pattern : list item :=
  [ Many Dot; One (Chars ["."%char]); One (Chars ["j"%char]); One (Chars ["p"%char]);
    Many (Chars ["e"%char]); One (Chars ["g"%char]); Dollar ].

(** [str.lower()] on characters below 256: the letters A-Z, and the accented
    capitals 192-214 and 216-222, move up by 32. *)
Definition lower_char (a : ascii) : ascii :=
  let n := nat_of_ascii a in
  if ((65 <=? n) && (n <=? 90) || (192 <=? n) && (n <=? 214)
      || (216 <=? n) && (n <=? 222))%nat
  then ascii_of_nat (n + 32)
  else a.

Definition lower (fname : string) : list ascii :=
  map lower_char (list_ascii_of_string fname).

(** [save(fname)]: the name is checked, then the file is opened and
    [self.data] written to it. *)
Definition save `{FileSystem} (self : handle) (fname : string) (f : files)
    (s : state) : io_outcome unit * files :=
  if negb (re_match jpeg_pattern (lower fname)) then
    (IoRaise (PyExn (ValueError
       "fname must refer to a JPEG file, i.e. end with '.jpg' or '.jpeg'")), f)
  else
    match heap s !! self with
    | None => (IoBadHandle, f)
    | Some d =>
        match fs_write fname d f with
        | (Some e, f') => (IoRaise e, f')
        | (None, f') => (IoOk tt, f')
        end
    end.

(** [as_blob()]: a copy of [self.data]. *)
Definition as_blob (self : handle) : M bytes := data self.

(** A disk that keeps what is written: a map from names to contents; reading
    a name that was never written is error 2, and the empty name can neither
    be read nor written. *)
Module Disk.

Definition read (name : string) (f : gmap string bytes) : io_exn + bytes :=
  match f !! name with
  | Some d => inr d
  | None => inl (IOError 2)
  end.

Definition write (name : string) (d : bytes) (f : gmap string bytes)
    : option io_exn * gmap string bytes :=
  match name with
  | EmptyString => (Some (IOError 2), f)
  | _ => (None, <[name := d]> f)
  end.

#[export] Instance fs : FileSystem := {
  files := gmap string bytes;
  fs_read := read;
  fs_write := write
}.

End Disk.

(** ** What a call may touch *)

(** From [s] to [s'] the first [n] buffers stay as they are, and none goes
    away. *)
Definition untouched (n : nat) (s s' : state) : Prop :=
  (n <= length (heap s'))%nat /\ take n (heap s') = take n (heap s).

(** A computation started with at least [n] objects leaves the first [n]
    buffers untouched, and what it returns satisfies [Q]. *)
Definition leaves {A} (n : nat) (c : M A) (Q : A -> Prop) : Prop :=
  forall s, (n <= length (heap s))%nat ->
    untouched n s (c s).2 /\ forall a, (c s).1 = Ok a -> Q a.

(** A computation that never ends for lack of fuel. *)
Definition enough_fuel {A} (c : M A) : Prop :=
  forall s, (c s).1 <> OutOfFuel.

(** A collaborator whose scaled images carry no thumbnail. *)
Definition scaling_drops_thumbnail `{Lib} : Prop :=
  forall w_ h_ q d blob,
    lib_transform (OpScale w_ h_ q) d = inr blob ->
    lib_exif_thumbnail blob = inl ExifException.

(** The end of a name that [save] takes: [.jp], [n] times [e], [g], and
    what follows. *)
Definition jpeg_ending (n : nat) (tail : list ascii) : list ascii :=
  "."%char :: "j"%char :: "p"%char :: replicate n "e"%char ++ "g"%char :: tail.

(** The names [save] takes: no newline before the ending, at most one
    after it. *)
Definition jpeg_name (name : list ascii) : Prop :=
  exists pre n tail,
    name = pre ++ jpeg_ending n tail /\
    (newline ∉ pre) /\ (tail = [] \/ tail = [newline]).

(** Several of the seven operations, one after the other, each on the image
    the one before returned and each with [with_exif] set. *)
Fixpoint perform_all `{Lib} (gs : list generator) (fuel : nat) (self : handle)
    : M handle :=
  match gs with
  | [] => ret self
  | g :: gs' => img <- perform g fuel self true ;; perform_all gs' fuel img
  end.

(** * Properties *)

(** ** The target size and two runs, evaluated *)

Example target_800_1600 : target_size 800 1600 = inr (80, 160).
Proof. vm_compute. reflexivity. Qed.
Example target_40_20 : target_size 40 20 = inr (160, 80).
Proof. vm_compute. reflexivity. Qed.
Example target_160_29 : target_size 160 29 = inr (160, 28).
Proof. vm_compute. reflexivity. Qed.
Example target_exact_160_29 : target_size_exact 160 29 = (160, 29).
Proof. vm_compute. reflexivity. Qed.
Example target_159_1 : target_size 159 1 = inr (160, 1).
Proof. vm_compute. reflexivity. Qed.
Example target_0_0 : target_size 0 0 = inl ZeroDivisionError.
Proof. vm_compute. reflexivity. Qed.

(** The two scenarios of the thumbnail step: a 1600x800 image with a
    thumbnail rotated by 90 degrees gets a fresh 80x160 thumbnail; a 100x50
    image with a thumbnail cropped to 40x20 keeps its old one. *)
Example scenario_regenerate :
  rotate (H := Toy.lib) 2 0%nat 90 false (Toy.one (Toy.image 1600 800 Byte.x01 Toy.thumb))
  = (Ok 1%nat,
     State [Toy.image 1600 800 Byte.x01 Toy.thumb;
            Toy.image 800 1600 Byte.x01 (Toy.image 80 160 Byte.x01 []);
            Toy.thumb; Toy.image 80 160 Byte.x01 []; Toy.thumb]
           [LibSetThumbnail 1%nat (Toy.image 80 160 Byte.x01 []);
            LibGetThumbnail 1%nat;
            LibGetThumbnail 3%nat; EnterUpdateThumbnail 3%nat;
            LibTransform 1%nat (OpScale 80 160 75);
            LibDimensions 1%nat; LibDimensions 1%nat; LibDimensions 1%nat;
            LibDimensions 1%nat; LibDimensions 1%nat; LibDimensions 1%nat;
            LibDimensions 1%nat; LibDimensions 1%nat;
            LibGetThumbnail 1%nat; EnterUpdateThumbnail 1%nat;
            LibTransform 0%nat (OpRotate 90)]).
Proof. vm_compute. reflexivity. Qed.

Example scenario_skip :
  crop (H := Toy.lib) 2 0%nat 0 0 40 20 (Toy.one (Toy.image 100 50 Byte.x01 Toy.thumb))
  = (Ok 1%nat,
     State [Toy.image 100 50 Byte.x01 Toy.thumb;
            Toy.image 40 20 Byte.x01 Toy.thumb; Toy.thumb]
           [LibDimensions 1%nat; LibDimensions 1%nat; LibDimensions 1%nat;
            LibDimensions 1%nat; LibDimensions 1%nat; LibDimensions 1%nat;
            LibGetThumbnail 1%nat; EnterUpdateThumbnail 1%nat;
            LibTransform 0%nat (OpCrop 0 0 40 20);
            LibDimensions 0%nat; LibDimensions 0%nat; LibDimensions 0%nat;
            LibDimensions 0%nat]).
Proof. vm_compute. reflexivity. Qed.

(** ** The tables *)

Lemma orientation_cases (o : Z) :
  1 <= o <= 8 ->
  o = 1 \/ o = 2 \/ o = 3 \/ o = 4 \/ o = 5 \/ o = 6 \/ o = 7 \/ o = 8.
Proof. lia. Qed.

Ltac each_orientation o H :=
  let E := fresh "E" in
  destruct (orientation_cases o H) as [E | [E | [E | [E | [E | [E | [E | E]]]]]]];
  clear H; subst o.

Ltac each_generator g := destruct g.

(** Every key and every value of every table lies in 1..8. *)
Lemma table_entries_in_range (g : generator) (m : gmap Z Z) (o v : Z) :
  table_of g = Some m -> m !! o = Some v -> 1 <= o <= 8 /\ 1 <= v <= 8.
Proof.
  intros Hm Hv.
  assert (Forall (fun kv => 1 <= kv.1 <= 8 /\ 1 <= kv.2 <= 8) (map_to_list m)) as Hall.
  { destruct g; vm_compute in Hm; injection Hm as <-; vm_compute;
      repeat constructor; discriminate. }
  apply elem_of_map_to_list in Hv.
  rewrite Forall_forall in Hall. exact (Hall (o, v) Hv).
Qed.

(** C1. Each of the seven tables sends every orientation of 1..8 to the value
    the specification lists for it, and is a bijection of 1..8: total there,
    with values in 1..8, injective and onto. *)
Theorem C1_generator_tables (g : generator) :
  (forall o v, (o, v) ∈ listed g -> apply o g = Some v) /\
  (forall o, 1 <= o <= 8 -> exists v, (o, v) ∈ listed g /\ apply o g = Some v /\ 1 <= v <= 8) /\
  (forall o1 o2 v, 1 <= o1 <= 8 -> 1 <= o2 <= 8 ->
     apply o1 g = Some v -> apply o2 g = Some v -> o1 = o2) /\
  (forall v, 1 <= v <= 8 -> exists o, 1 <= o <= 8 /\ apply o g = Some v).
Proof.
  repeat split.
  - intros o v Hin. destruct g; unfold listed in Hin;
      repeat (apply elem_of_cons in Hin; destruct Hin as [[= -> ->] | Hin];
              [vm_compute; reflexivity |]);
      apply elem_of_nil in Hin; destruct Hin.
  - intros o Ho. each_orientation o Ho; destruct g;
      (eexists; split; [| split; [vm_compute; reflexivity | lia]]);
      unfold listed; set_solver.
  - intros o1 o2 v H1 H2. each_orientation o1 H1; each_orientation o2 H2;
      try reflexivity; destruct g; vm_compute; congruence.
  - intros v Hv. each_orientation v Hv; destruct g;
      first [ exists 1; split; [lia | vm_compute; reflexivity]
            | exists 2; split; [lia | vm_compute; reflexivity]
            | exists 3; split; [lia | vm_compute; reflexivity]
            | exists 4; split; [lia | vm_compute; reflexivity]
            | exists 5; split; [lia | vm_compute; reflexivity]
            | exists 6; split; [lia | vm_compute; reflexivity]
            | exists 7; split; [lia | vm_compute; reflexivity]
            | exists 8; split; [lia | vm_compute; reflexivity] ].
Qed.

(** The quarter-turn table sends 6 to 1, and some orientation of 1..8 to 6. *)
Lemma C1_generator_tables_witness :
  apply 6 Rotate90 = Some 1 /\
  exists o, 1 <= o <= 8 /\ apply o Rotate90 = Some 6.
Proof.
  destruct (C1_generator_tables Rotate90) as (Hlisted & _ & _ & Honto).
  split.
  - apply Hlisted. unfold listed. set_solver.
  - apply Honto. lia.
Defined.

(** C8. On 1..8: four quarter turns, two transpositions and two horizontal
    flips each give the orientation back, and a half turn is a horizontal flip
    followed by a vertical one. *)
Theorem C8_orders_and_composition (o : Z) :
  1 <= o <= 8 ->
  apply_all o [Rotate90; Rotate90; Rotate90; Rotate90] = Some o /\
  apply_all o [Transpose; Transpose] = Some o /\
  apply_all o [FlipH; FlipH] = Some o /\
  apply o Rotate180 = apply_all o [FlipH; FlipV].
Proof.
  intros Ho. each_orientation o Ho; vm_compute; repeat split; reflexivity.
Qed.

Lemma C8_orders_and_composition_witness :
  apply_all 6 [Rotate90; Rotate90; Rotate90; Rotate90] = Some 6 /\
  apply_all 6 [Transpose; Transpose] = Some 6 /\
  apply_all 6 [FlipH; FlipH] = Some 6 /\
  apply 6 Rotate180 = apply_all 6 [FlipH; FlipV].
Proof. apply (C8_orders_and_composition 6). lia. Defined.

(** ** Running the monad *)

Lemma bind_ok {A B} (c : M A) (k : A -> M B) s a s1 :
  c s = (Ok a, s1) -> bind c k s = k a s1.
Proof. intros E. unfold bind. rewrite E. reflexivity. Qed.

Lemma bind_raise {A B} (c : M A) (k : A -> M B) s e s1 :
  c s = (Raise e, s1) -> bind c k s = (Raise e, s1).
Proof. intros E. unfold bind. rewrite E. reflexivity. Qed.

Lemma bind_ok_inv {A B} (c : M A) (k : A -> M B) s b s' :
  bind c k s = (Ok b, s') ->
  exists a s1, c s = (Ok a, s1) /\ k a s1 = (Ok b, s').
Proof.
  unfold bind. destruct (c s) as [[a | e | |] s1]; try discriminate.
  intros E. exists a, s1. split; [reflexivity | exact E].
Qed.

Lemma lookup_allocated (l : list bytes) (blob : bytes) :
  (l ++ [blob]) !! length l = Some blob.
Proof. rewrite lookup_app_r by lia. rewrite Nat.sub_diag. reflexivity. Qed.

Section Preservation.
Context `{Lib}.
Variable R : state -> state -> Prop.
Variable allowed : event -> Prop.

Hypothesis R_refl : forall s, R s s.
Hypothesis R_trans : forall s1 s2 s3, R s1 s2 -> R s2 s3 -> R s1 s3.
Hypothesis R_logged : forall ev s, allowed ev -> R s (logged ev s).
Hypothesis R_allocated : forall blob s, R s (allocated blob s).
Hypothesis R_set_thumbnail : forall self new d d' s,
  heap s !! self = Some d -> lib_exif_set_thumbnail new d = inr d' ->
  R s (stored self d' s).
Hypothesis allowed_other : forall ev, ~ orientation_event ev -> allowed ev.

Lemma preserves_ret {A} (a : A) : preserves R (ret a).
Proof. intros s. apply R_refl. Qed.

Lemma preserves_raise {A} (e : exn) : preserves R (@raise A e).
Proof. intros s. apply R_refl. Qed.

Lemma preserves_out_of_fuel {A} : preserves R (@out_of_fuel A).
Proof. intros s. apply R_refl. Qed.

Lemma preserves_bind {A B} (c : M A) (k : A -> M B) :
  preserves R c -> (forall a, preserves R (k a)) -> preserves R (bind c k).
Proof.
  intros Hc Hk s. unfold bind. specialize (Hc s).
  destruct (c s) as [[a | e | |] s1]; simpl in *; try exact Hc.
  eapply R_trans; [exact Hc | apply Hk].
Qed.

Lemma preserves_lift {A} (r : res A) : preserves R (lift r).
Proof. destruct r; [apply preserves_raise | apply preserves_ret]. Qed.

Lemma preserves_log (ev : event) : allowed ev -> preserves R (log ev).
Proof. intros Hev s. apply (R_logged ev s Hev). Qed.

Lemma preserves_call {A} (ev : event) (r : res A) :
  allowed ev -> preserves R (call ev r).
Proof.
  intros Hev. apply preserves_bind; [apply preserves_log, Hev |].
  intros _. apply preserves_lift.
Qed.

Lemma preserves_data (self : handle) : preserves R (data self).
Proof. intros s. unfold data. destruct (heap s !! self); apply R_refl. Qed.

Lemma preserves_subscript {V} (o : option V) : preserves R (subscript o).
Proof. destruct o; [apply preserves_ret | apply preserves_raise]. Qed.

Lemma preserves_except {A} (c : M A) :
  preserves R c -> preserves R (except_ExifException c).
Proof.
  intros Hc s. unfold except_ExifException. specialize (Hc s).
  destruct (c s) as [[a | [] | |] s1]; exact Hc.
Qed.

Lemma preserves_and_then (c1 c2 : M bool) :
  preserves R c1 -> preserves R c2 -> preserves R (and_then c1 c2).
Proof.
  intros H1 H2. apply preserves_bind; [exact H1 |].
  intros []; [exact H2 | apply preserves_ret].
Qed.

Lemma preserves_or_else (c1 c2 : M bool) :
  preserves R c1 -> preserves R c2 -> preserves R (or_else c1 c2).
Proof.
  intros H1 H2. apply preserves_bind; [exact H1 |].
  intros []; [apply preserves_ret | exact H2].
Qed.

Lemma preserves_JPEGImage (blob : bytes) : preserves R (JPEGImage blob).
Proof.
  destruct blob; [apply preserves_raise |].
  intros s. apply (R_allocated _ s).
Qed.

Lemma preserves_get_dimensions (self : handle) : preserves R (get_dimensions self).
Proof.
  apply preserves_bind; [apply preserves_data |].
  intros d. apply preserves_call, allowed_other. simpl. tauto.
Qed.

Lemma preserves_width (self : handle) : preserves R (width self).
Proof.
  apply preserves_bind; [apply preserves_get_dimensions |].
  intros p. apply preserves_ret.
Qed.

Lemma preserves_height (self : handle) : preserves R (height self).
Proof.
  apply preserves_bind; [apply preserves_get_dimensions |].
  intros p. apply preserves_ret.
Qed.

Lemma preserves_exif_thumbnail (self : handle) : preserves R (exif_thumbnail self).
Proof.
  apply preserves_except, preserves_bind; [apply preserves_data |].
  intros d. apply preserves_bind.
  - apply preserves_call, allowed_other. simpl. tauto.
  - apply preserves_JPEGImage.
Qed.

Lemma preserves_transformed (self : handle) (op : tr_op) :
  preserves R (transformed self op).
Proof.
  apply preserves_bind; [apply preserves_data |].
  intros d. apply preserves_bind.
  - apply preserves_call, allowed_other. simpl. tauto.
  - apply preserves_JPEGImage.
Qed.

(** The write of the thumbnail, from the read of [self.data] on. *)
Lemma preserves_write_thumbnail (self : handle) (src : M bytes) :
  (forall s, (src s).2 = s) ->
  preserves R
    (d <- data self ;;
     new <- src ;;
     d' <- call (LibSetThumbnail self new) (lib_exif_set_thumbnail new d) ;;
     store self d').
Proof.
  intros Hsrc s. unfold bind at 1. unfold data.
  destruct (heap s !! self) as [d |] eqn:Hd; [| apply R_refl].
  unfold bind at 1. specialize (Hsrc s).
  destruct (src s) as [[new | e | |] s1]; simpl in Hsrc; subst s1;
    try apply R_refl.
  unfold bind, call, bind, log, lift. simpl.
  assert (allowed (LibSetThumbnail self new)) as Hev
    by (apply allowed_other; simpl; tauto).
  destruct (lib_exif_set_thumbnail new d) as [e | d'] eqn:Hset; simpl.
  - apply (R_logged _ s Hev).
  - eapply R_trans; [apply (R_logged _ s Hev) |].
    apply (R_set_thumbnail self new d d' (logged (LibSetThumbnail self new) s));
      assumption.
Qed.

Lemma data_keeps_state (i : handle) s : (data i s).2 = s.
Proof. unfold data. destruct (heap s !! i); reflexivity. Qed.

Lemma preserves_set_exif_thumbnail (self : handle) (image : thumbnail_arg) :
  preserves R (set_exif_thumbnail self image).
Proof.
  unfold set_exif_thumbnail. apply preserves_bind.
  { destruct image; [| apply preserves_ret].
    apply preserves_bind; [apply preserves_data | intros; apply preserves_ret]. }
  intros _. apply preserves_bind; [apply preserves_exif_thumbnail |].
  intros [t |]; [| apply preserves_raise].
  apply preserves_write_thumbnail.
  destruct image; intros s; [apply data_keeps_state | reflexivity].
Qed.

(** The thumbnail step from its first call on: [R] holds from the store in
    which the entry has been recorded. *)
Lemma update_thumbnail_with_after_entry downscale_ (self : handle) :
  (forall h w_ h_ q, preserves R (downscale_ h w_ h_ q)) ->
  forall s, R (logged (EnterUpdateThumbnail self) s)
              (update_thumbnail_with downscale_ self s).2.
Proof.
  intros Hrec s. unfold update_thumbnail_with. unfold bind at 1.
  unfold log at 1. cbv beta iota.
  fold (logged (EnterUpdateThumbnail self) s).
  generalize (logged (EnterUpdateThumbnail self) s). clear s.
  apply preserves_bind; [apply preserves_exif_thumbnail |].
  intros [t |]; [| apply preserves_ret].
  apply preserves_bind; [apply preserves_width | intros w].
  apply preserves_bind; [apply preserves_height | intros h].
  apply preserves_bind.
  { destruct (w >? h);
      (apply preserves_bind; [apply preserves_width | intros w']);
      (apply preserves_bind; [apply preserves_height | intros h']);
      (apply preserves_bind; [apply preserves_lift | intros r]);
      (apply preserves_bind; [apply preserves_lift | intros q]);
      (apply preserves_bind; [apply preserves_lift | intros t']);
      apply preserves_ret. }
  intros target. cbv zeta.
  apply preserves_bind.
  { apply preserves_and_then;
      (apply preserves_bind;
       [first [apply preserves_width | apply preserves_height]
       | intros; apply preserves_ret]). }
  intros []; [apply preserves_ret |].
  apply preserves_bind; [apply Hrec |].
  intros updated. apply preserves_set_exif_thumbnail.
Qed.

Lemma preserves_update_thumbnail_with downscale_ (self : handle) :
  (forall h w_ h_ q, preserves R (downscale_ h w_ h_ q)) ->
  preserves R (update_thumbnail_with downscale_ self).
Proof.
  intros Hrec s. eapply R_trans.
  - apply (R_logged (EnterUpdateThumbnail self) s), allowed_other. simpl. tauto.
  - apply update_thumbnail_with_after_entry, Hrec.
Qed.

Lemma preserves_downscale (fuel : nat) :
  forall self w_ h_ q, preserves R (downscale fuel self w_ h_ q).
Proof.
  induction fuel as [| fuel IH]; intros self w_ h_ q; simpl.
  - apply preserves_out_of_fuel.
  - apply preserves_bind.
    { apply preserves_and_then;
        (apply preserves_bind;
         [first [apply preserves_width | apply preserves_height]
         | intros; apply preserves_ret]). }
    intros []; [apply preserves_ret |].
    apply preserves_bind.
    { apply preserves_or_else;
        (apply preserves_bind;
         [first [apply preserves_width | apply preserves_height]
         | intros; apply preserves_ret]). }
    intros []; [apply preserves_raise |].
    apply preserves_bind; [apply preserves_transformed | intros new].
    apply preserves_bind;
      [apply preserves_update_thumbnail_with, IH | intros; apply preserves_ret].
Qed.

Lemma preserves_update_thumbnail (fuel : nat) (self : handle) :
  preserves R (_update_thumbnail fuel self).
Proof. apply preserves_update_thumbnail_with, preserves_downscale. Qed.

Lemma update_thumbnail_after_entry (fuel : nat) (self : handle) (s : state) :
  R (logged (EnterUpdateThumbnail self) s) (_update_thumbnail fuel self s).2.
Proof. apply update_thumbnail_with_after_entry, preserves_downscale. Qed.

Lemma preserves_crop (fuel : nat) (self : handle) (x y w_ h_ : Z) :
  preserves R (crop fuel self x y w_ h_).
Proof.
  unfold crop. apply preserves_bind.
  { repeat apply preserves_and_then;
      (apply preserves_bind;
       [first [apply preserves_width | apply preserves_height]
       | intros; apply preserves_ret]). }
  intros []; simpl; [| apply preserves_raise].
  apply preserves_bind; [apply preserves_transformed | intros new].
  apply preserves_bind;
    [apply preserves_update_thumbnail | intros; apply preserves_ret].
Qed.

(** The four orientation-changing transforms, given what their optional
    orientation update does. *)
Lemma preserves_with_update (c : M handle) (update : handle -> M unit)
    (fuel : nat) :
  preserves R c -> (forall a, preserves R (update a)) ->
  preserves R (a <- c ;; update a ;;; _update_thumbnail fuel a ;;; ret a).
Proof.
  intros Hc Hu. apply preserves_bind; [exact Hc | intros a].
  apply preserves_bind; [apply Hu | intros _].
  apply preserves_bind;
    [apply preserves_update_thumbnail | intros; apply preserves_ret].
Qed.

Lemma preserves_rotate_plain (fuel : nat) (self : handle) (angle : Z) :
  preserves R (rotate fuel self angle false).
Proof.
  unfold rotate. destruct (negb _); [apply preserves_raise |].
  apply (preserves_with_update _ (fun _ => ret tt));
    [apply preserves_transformed | intros; apply preserves_ret].
Qed.

Lemma preserves_flip_plain (fuel : nat) (self : handle) (direction : string) :
  preserves R (flip fuel self direction false).
Proof.
  unfold flip. destruct (negb _); [apply preserves_raise |].
  apply (preserves_with_update _ (fun _ => ret tt));
    [apply preserves_transformed | intros; apply preserves_ret].
Qed.

Lemma preserves_transpose_plain (fuel : nat) (self : handle) :
  preserves R (transpose fuel self false).
Proof.
  apply (preserves_with_update _ (fun _ => ret tt));
    [apply preserves_transformed | intros; apply preserves_ret].
Qed.

Lemma preserves_transverse_plain (fuel : nat) (self : handle) :
  preserves R (transverse fuel self false).
Proof.
  apply (preserves_with_update _ (fun _ => ret tt));
    [apply preserves_transformed | intros; apply preserves_ret].
Qed.

(** With the orientation update: [R] must also admit the read of the tag,
    the write of a value of 1..8, and the change of contents that follows
    the write. *)
Section WithOrientation.
Hypothesis allowed_get : forall h, allowed (LibGetOrientation h).
Hypothesis allowed_set : forall h v, 0 < v < 9 -> allowed (LibSetOrientation h v).
Hypothesis R_stored : forall self d s, R s (stored self d s).

Lemma preserves_exif_orientation (self : handle) :
  preserves R (exif_orientation self).
Proof.
  apply preserves_except, preserves_bind; [apply preserves_data |].
  intros d. apply preserves_call, allowed_get.
Qed.

Lemma preserves_set_exif_orientation (self : handle) (value : Z) :
  preserves R (set_exif_orientation self value).
Proof.
  unfold set_exif_orientation.
  destruct (0 <? value) eqn:E1, (value <? 9) eqn:E2; simpl;
    try apply preserves_raise.
  apply preserves_bind; [apply preserves_data | intros d].
  apply preserves_bind; [apply preserves_call, allowed_set; lia | intros d'].
  intros s. apply R_stored.
Qed.

Lemma preserves_propagate (table : gmap Z Z) (img : handle) :
  preserves R
    (current <- exif_orientation img ;;
     value <- subscript (table !! or_1 current) ;;
     set_exif_orientation img value).
Proof.
  apply preserves_bind; [apply preserves_exif_orientation | intros current].
  apply preserves_bind; [apply preserves_subscript | intros value].
  apply preserves_set_exif_orientation.
Qed.

Lemma preserves_rotate (fuel : nat) (self : handle) (angle : Z) (with_exif : bool) :
  preserves R (rotate fuel self angle with_exif).
Proof.
  destruct with_exif; [| apply preserves_rotate_plain].
  unfold rotate. destruct (negb _); [apply preserves_raise |].
  apply (preserves_with_update _
           (fun img => table <- subscript (EXIF_ROT_MAP !! angle) ;;
                       current <- exif_orientation img ;;
                       value <- subscript (table !! or_1 current) ;;
                       set_exif_orientation img value));
    [apply preserves_transformed | intros img].
  apply preserves_bind; [apply preserves_subscript | intros table].
  apply preserves_propagate.
Qed.

Lemma preserves_flip (fuel : nat) (self : handle) (direction : string)
    (with_exif : bool) :
  preserves R (flip fuel self direction with_exif).
Proof.
  destruct with_exif; [| apply preserves_flip_plain].
  unfold flip. destruct (negb _); [apply preserves_raise |].
  apply (preserves_with_update _
           (fun img => table <- subscript (EXIF_FLIP_MAP !! direction) ;;
                       current <- exif_orientation img ;;
                       value <- subscript (table !! or_1 current) ;;
                       set_exif_orientation img value));
    [apply preserves_transformed | intros img].
  apply preserves_bind; [apply preserves_subscript | intros table].
  apply preserves_propagate.
Qed.

Lemma preserves_transpose (fuel : nat) (self : handle) (with_exif : bool) :
  preserves R (transpose fuel self with_exif).
Proof.
  destruct with_exif; [| apply preserves_transpose_plain].
  apply (preserves_with_update _
           (fun img => current <- exif_orientation img ;;
                       value <- subscript (EXIF_TRANSPOSE_MAP !! or_1 current) ;;
                       set_exif_orientation img value));
    [apply preserves_transformed | intros img; apply preserves_propagate].
Qed.

Lemma preserves_transverse (fuel : nat) (self : handle) (with_exif : bool) :
  preserves R (transverse fuel self with_exif).
Proof.
  destruct with_exif; [| apply preserves_transverse_plain].
  apply (preserves_with_update _
           (fun img => current <- exif_orientation img ;;
                       value <- subscript (EXIF_TRANVERSE_MAP !! or_1 current) ;;
                       set_exif_orientation img value));
    [apply preserves_transformed | intros img; apply preserves_propagate].
Qed.

Lemma preserves_exif_autotransform (fuel : nat) (self : handle) :
  preserves R (exif_autotransform fuel self).
Proof.
  unfold exif_autotransform.
  apply preserves_bind; [apply preserves_exif_orientation | intros orient].
  destruct orient as [o |]; [| apply preserves_raise].
  repeat match goal with
         | |- preserves _ (match ?x with _ => _ end) => destruct x
         end;
    try apply preserves_ret;
    (apply preserves_bind; [| intros; apply preserves_ret]);
    first [ apply preserves_rotate | apply preserves_flip
          | apply preserves_transpose | apply preserves_transverse ].
Qed.

End WithOrientation.

End Preservation.

(** ** Two instances of the preservation lemmas *)

Lemma adds_refl P s : adds P s s.
Proof. exists []. split; [reflexivity | constructor]. Qed.

Lemma adds_trans P s1 s2 s3 : adds P s1 s2 -> adds P s2 s3 -> adds P s1 s3.
Proof.
  intros (n1 & E1 & F1) (n2 & E2 & F2). exists (n2 ++ n1). split.
  - rewrite E2, E1. apply app_assoc.
  - apply Forall_app. split; assumption.
Qed.

Lemma adds_logged (P : event -> Prop) ev s : P ev -> adds P s (logged ev s).
Proof. intros Hev. exists [ev]. split; [reflexivity | repeat constructor; exact Hev]. Qed.

Lemma adds_same_trace P s s' : trace s' = trace s -> adds P s s'.
Proof. intros E. exists []. split; [exact E | constructor]. Qed.

Lemma orientation_writes_app (l1 l2 : list event) :
  orientation_writes (l1 ++ l2) = orientation_writes l1 ++ orientation_writes l2.
Proof. apply omap_app. Qed.

Lemma no_orientation_writes (new : list event) :
  Forall (fun ev => ~ orientation_event ev) new -> orientation_writes new = [].
Proof.
  induction 1 as [| ev new Hev _ IH]; [reflexivity |].
  destruct ev; simpl in *; try exact IH; tauto.
Qed.

Section KeepsOrientation.
Context `{LibLaws}.

Lemma keeps_orientation_refl s : keeps_orientation s s.
Proof. intros h d Hd. exists d. split; [exact Hd | reflexivity]. Qed.

Lemma keeps_orientation_same_heap s s' :
  heap s' = heap s -> keeps_orientation s s'.
Proof. intros E h d Hd. exists d. rewrite E. split; [exact Hd | reflexivity]. Qed.

Lemma keeps_orientation_trans s1 s2 s3 :
  keeps_orientation s1 s2 -> keeps_orientation s2 s3 -> keeps_orientation s1 s3.
Proof.
  intros H12 H23 h d Hd.
  destruct (H12 h d Hd) as (d2 & Hd2 & E2).
  destruct (H23 h d2 Hd2) as (d3 & Hd3 & E3).
  exists d3. split; [exact Hd3 | congruence].
Qed.

Lemma keeps_orientation_allocated blob s : keeps_orientation s (allocated blob s).
Proof.
  intros h d Hd. exists d. split; [| reflexivity].
  simpl. rewrite lookup_app_l; [exact Hd |].
  apply lookup_lt_Some in Hd. exact Hd.
Qed.

Lemma keeps_orientation_set_thumbnail self new d d' s :
  heap s !! self = Some d -> lib_exif_set_thumbnail new d = inr d' ->
  keeps_orientation s (stored self d' s).
Proof.
  intros Hself Hset h dh Hh. simpl.
  destruct (decide (h = self)) as [-> | Hne].
  - exists d'. split.
    + apply list_lookup_insert_eq. apply lookup_lt_Some in Hself. exact Hself.
    + assert (dh = d) as -> by (unfold handle in *; congruence).
      apply (set_thumbnail_keeps_orientation new d d' Hset).
  - exists dh. split; [| reflexivity].
    rewrite list_lookup_insert_ne by congruence. exact Hh.
Qed.

(** The thumbnail step never changes an orientation tag. *)
Lemma update_thumbnail_keeps_orientation fuel self :
  preserves keeps_orientation (_update_thumbnail fuel self).
Proof.
  apply (preserves_update_thumbnail keeps_orientation (fun _ => True)).
  - apply keeps_orientation_refl.
  - apply keeps_orientation_trans.
  - intros ev s _. apply keeps_orientation_same_heap. reflexivity.
  - apply keeps_orientation_allocated.
  - apply keeps_orientation_set_thumbnail.
  - intros; exact I.
Qed.

End KeepsOrientation.

Section NoOrientationEvent.
Context `{Lib}.

Let quiet := adds (fun ev => ~ orientation_event ev).

(** The thumbnail step makes no call about the orientation tag. *)
Lemma update_thumbnail_quiet fuel self :
  preserves quiet (_update_thumbnail fuel self).
Proof.
  apply (preserves_update_thumbnail quiet (fun ev => ~ orientation_event ev)).
  - apply adds_refl.
  - apply adds_trans.
  - intros ev s Hev. apply adds_logged, Hev.
  - intros; apply adds_same_trace; reflexivity.
  - intros; apply adds_same_trace; reflexivity.
  - intros ev Hev. exact Hev.
Qed.

(** Nor does a transform that was not asked to propagate it. *)
Lemma perform_plain_quiet g fuel self :
  preserves quiet (perform g fuel self false).
Proof.
  assert (forall s, quiet s s) as Hrefl by apply adds_refl.
  assert (forall s1 s2 s3, quiet s1 s2 -> quiet s2 s3 -> quiet s1 s3) as Htrans
    by apply adds_trans.
  assert (forall ev s, ~ orientation_event ev -> quiet s (logged ev s)) as Hlog
    by (intros; apply adds_logged; assumption).
  assert (forall blob s, quiet s (allocated blob s)) as Halloc
    by (intros; apply adds_same_trace; reflexivity).
  assert (forall self new d d' s,
            heap s !! self = Some d -> lib_exif_set_thumbnail new d = inr d' ->
            quiet s (stored self d' s)) as Hset
    by (intros; apply adds_same_trace; reflexivity).
  destruct g; simpl;
    first [ apply (preserves_rotate_plain quiet (fun ev => ~ orientation_event ev))
          | apply (preserves_flip_plain quiet (fun ev => ~ orientation_event ev))
          | apply (preserves_transpose_plain quiet (fun ev => ~ orientation_event ev))
          | apply (preserves_transverse_plain quiet (fun ev => ~ orientation_event ev)) ];
    auto.
Qed.

End NoOrientationEvent.

(** ** The shape of a transform with its orientation update *)

Section Runs.
Context `{Lib}.

Lemma perform_unfold g fuel self with_exif :
  perform g fuel self with_exif =
  (img <- transformed self (codec_op g) ;;
   (if with_exif then table <- subscript (table_of g) ;; propagate table img
    else ret tt) ;;;
   _update_thumbnail fuel img ;;;
   ret img).
Proof. destruct g; reflexivity. Qed.

Lemma transformed_ok_inv self op s img s1 :
  transformed self op s = (Ok img, s1) ->
  exists d blob,
    heap s !! self = Some d /\ lib_transform op d = inr blob /\ blob <> [] /\
    img = length (heap s) /\
    s1 = allocated blob (logged (LibTransform self op) s).
Proof.
  unfold transformed, bind, data, call, bind, log, lift.
  destruct (heap s !! self) as [d |] eqn:Hd; [| discriminate].
  destruct (lib_transform op d) as [e | blob] eqn:Hblob; [discriminate |].
  destruct blob as [| b blob]; [discriminate |].
  simpl. intros [= <- <-]. exists d, (b :: blob).
  split; [reflexivity |]. split; [exact Hblob |]. split; [discriminate |].
  split; reflexivity.
Qed.

Lemma exif_orientation_run self s d :
  heap s !! self = Some d ->
  exif_orientation self s =
  (match lib_exif_orientation d with
   | inr v => Ok (Some v)
   | inl ExifException => Ok None
   | inl e => Raise e
   end, logged (LibGetOrientation self) s).
Proof.
  intros Hd. unfold exif_orientation, except_ExifException, bind, data, call, bind, log, lift.
  rewrite Hd. destruct (lib_exif_orientation d) as [[] | v]; reflexivity.
Qed.

Lemma set_exif_orientation_ok_inv self v s s' d :
  heap s !! self = Some d ->
  set_exif_orientation self v s = (Ok tt, s') ->
  exists d1, 0 < v < 9 /\ lib_exif_set_orientation v d = inr d1 /\
             s' = stored self d1 (logged (LibSetOrientation self v) s).
Proof.
  intros Hd. unfold set_exif_orientation.
  destruct (0 <? v) eqn:E1, (v <? 9) eqn:E2; simpl; try discriminate.
  unfold bind, data, call, bind, log, lift, store. rewrite Hd.
  destruct (lib_exif_set_orientation v d) as [e | d1] eqn:Hset; [discriminate |].
  simpl. intros [= <-]. exists d1.
  split; [lia |]. split; reflexivity.
Qed.

Lemma propagate_ok_inv table img s1 blob s3 :
  heap s1 !! img = Some blob ->
  propagate table img s1 = (Ok tt, s3) ->
  exists v d1,
    table !! or_1 (tag_of blob) = Some v /\ 0 < v < 9 /\
    lib_exif_set_orientation v blob = inr d1 /\
    s3 = stored img d1
           (logged (LibSetOrientation img v) (logged (LibGetOrientation img) s1)).
Proof.
  intros Hblob Hrun. unfold propagate in Hrun.
  apply bind_ok_inv in Hrun as (current & sa & Hget & Hrun).
  rewrite (exif_orientation_run img s1 blob Hblob) in Hget.
  assert (current = tag_of blob /\ sa = logged (LibGetOrientation img) s1) as [-> ->].
  { unfold tag_of. destruct (lib_exif_orientation blob) as [[] | v];
      inversion Hget; split; reflexivity. }
  apply bind_ok_inv in Hrun as (v & sb & Hsub & Hrun).
  destruct (table !! or_1 (tag_of blob)) as [v' |] eqn:Ht; [| discriminate].
  injection Hsub as -> <-.
  apply set_exif_orientation_ok_inv with (d := blob) in Hrun; [| exact Hblob].
  destruct Hrun as (d1 & Hv & Hset & ->).
  exists v, d1. repeat split; try assumption; lia.
Qed.

(** A transform that propagates the orientation and returns: the tag is
    read from the transformed bytes, the table value for it is written to
    the new image, and the thumbnail step follows. *)
Lemma perform_true_inv g fuel self s img s' :
  perform g fuel self true s = (Ok img, s') ->
  exists d blob v d1 s3,
    heap s !! self = Some d /\ lib_transform (codec_op g) d = inr blob /\
    img = length (heap s) /\
    apply (or_1 (tag_of blob)) g = Some v /\ 0 < v < 9 /\
    lib_exif_set_orientation v blob = inr d1 /\
    s3 = stored img d1
           (logged (LibSetOrientation img v)
              (logged (LibGetOrientation img)
                 (allocated blob (logged (LibTransform self (codec_op g)) s)))) /\
    _update_thumbnail fuel img s3 = (Ok tt, s').
Proof.
  rewrite perform_unfold. intros Hrun.
  apply bind_ok_inv in Hrun as (img' & s1 & Htr & Hrun).
  apply transformed_ok_inv in Htr as (d & blob & Hd & Hblob & Hne & -> & ->).
  apply bind_ok_inv in Hrun as ([] & s3 & Hprop & Hrun).
  apply bind_ok_inv in Hprop as (table & s1' & Htab & Hprop).
  destruct (table_of g) as [table' |] eqn:Hg; [| discriminate].
  injection Htab as -> <-.
  apply propagate_ok_inv with (blob := blob) in Hprop;
    [| simpl; apply lookup_allocated].
  destruct Hprop as (v & d1 & Hv & Hrange & Hset & ->).
  apply bind_ok_inv in Hrun as ([] & s4 & Hthumb & Hret).
  injection Hret as <- <-.
  exists d, blob, v, d1. eexists. repeat split; try eassumption; try lia.
  unfold apply. rewrite Hg. exact Hv.
Qed.

Lemma perform_plain_inv g fuel self s img s' :
  perform g fuel self false s = (Ok img, s') ->
  exists d blob,
    heap s !! self = Some d /\ lib_transform (codec_op g) d = inr blob /\
    img = length (heap s) /\
    _update_thumbnail fuel img
      (allocated blob (logged (LibTransform self (codec_op g)) s)) = (Ok tt, s').
Proof.
  rewrite perform_unfold. intros Hrun.
  apply bind_ok_inv in Hrun as (img' & s1 & Htr & Hrun).
  apply transformed_ok_inv in Htr as (d & blob & Hd & Hblob & Hne & -> & ->).
  apply bind_ok_inv in Hrun as ([] & s3 & Hprop & Hrun).
  injection Hprop as <-.
  apply bind_ok_inv in Hrun as ([] & s4 & Hthumb & Hret).
  injection Hret as <- <-.
  exists d, blob. repeat split; assumption.
Qed.

End Runs.

(** ** Transforms and the orientation they write *)

Section Transforms.
Context `{Lib}.

(** The calls of a thumbnail step: its entry first, and none of them about
    the orientation tag. *)
Lemma update_thumbnail_trace fuel self s r s' :
  _update_thumbnail fuel self s = (r, s') ->
  exists new,
    trace s' = new ++ EnterUpdateThumbnail self :: trace s /\
    orientation_writes new = [].
Proof.
  intros Hrun.
  pose proof (update_thumbnail_after_entry
                (adds (fun ev => ~ orientation_event ev))
                (fun ev => ~ orientation_event ev)) as Hq.
  destruct (Hq (adds_refl _) (adds_trans _)
               (fun ev s Hev => adds_logged _ ev s Hev)
               (fun blob s => adds_same_trace _ s (allocated blob s) eq_refl)
               (fun self new d d' s _ _ => adds_same_trace _ s (stored self d' s) eq_refl)
               (fun ev Hev => Hev) fuel self s) as (new & Hnew & Hall).
  rewrite Hrun in Hnew. simpl in Hnew.
  exists new. split; [exact Hnew | apply no_orientation_writes, Hall].
Qed.

(** The tag a propagating transform read, when the transform returned: the
    collaborator either had none or gave a number. *)
Lemma perform_true_tag g fuel self s img s' :
  perform g fuel self true s = (Ok img, s') ->
  exists d blob,
    heap s !! self = Some d /\ lib_transform (codec_op g) d = inr blob /\
    (lib_exif_orientation blob = inl ExifException \/
     exists t, lib_exif_orientation blob = inr t).
Proof.
  rewrite perform_unfold. intros Hrun.
  apply bind_ok_inv in Hrun as (img' & s1 & Htr & Hrun).
  apply transformed_ok_inv in Htr as (d & blob & Hd & Hblob & Hne & -> & ->).
  apply bind_ok_inv in Hrun as ([] & s3 & Hprop & _).
  apply bind_ok_inv in Hprop as (table & s1' & Htab & Hprop).
  destruct (table_of g) as [table' |]; [| discriminate].
  injection Htab as -> <-.
  unfold propagate in Hprop.
  apply bind_ok_inv in Hprop as (current & sa & Hget & _).
  rewrite (exif_orientation_run _ _ blob) in Hget by (simpl; apply lookup_allocated).
  exists d, blob. split; [exact Hd |]. split; [exact Hblob |].
  destruct (lib_exif_orientation blob) as [[] | t]; try discriminate Hget.
  - left. reflexivity.
  - right. exists t. reflexivity.
Qed.

(** What the code subscripts the table with, [tag or 1], is the current
    orientation whenever the subscript is a key of the table. *)
Lemma subscript_is_current_orientation g blob v :
  lib_exif_orientation blob = inl ExifException \/
    (exists t, lib_exif_orientation blob = inr t) ->
  apply (or_1 (tag_of blob)) g = Some v ->
  exists o, current_orientation blob o /\ apply o g = Some v.
Proof.
  intros Htag Hv. unfold tag_of in Hv.
  destruct Htag as [Hnone | (t & Ht)].
  - rewrite Hnone in Hv. exists 1. split; [| exact Hv].
    right. split; [reflexivity | left; exact Hnone].
  - rewrite Ht in Hv. destruct t as [| p | p].
    + exists 1. split; [| exact Hv].
      right. split; [reflexivity | right; exact Ht].
    + exists (Z.pos p). split; [| exact Hv].
      left. split; [exact Ht |].
      unfold apply in Hv. destruct (table_of g) as [m |] eqn:Hm; [| discriminate].
      exact (proj1 (table_entries_in_range g m _ v Hm Hv)).
    + exists (Z.neg p). split; [| exact Hv].
      left. split; [exact Ht |].
      unfold apply in Hv. destruct (table_of g) as [m |] eqn:Hm; [| discriminate].
      exact (proj1 (table_entries_in_range g m _ v Hm Hv)).
Qed.

(** C2. For each of the seven transforms: without [with_exif] no call
    writes an orientation, whatever the outcome; with [with_exif], when the
    transform returns, exactly one orientation was written, on the returned
    image, and its value is the entry of the operation's table at the
    current orientation [o] of the transformed image: its tag when that is
    one of 1..8, and 1 when it has no tag (or the tag 0).  Where the
    collaborator copies the tag through the transformation, [o] is the
    current orientation of the image the method was called on. *)
Theorem C2_orientation_propagation (g : generator) (fuel : nat)
    (self : handle) (s : state) :
  (forall r s', perform g fuel self false s = (r, s') ->
     exists new, trace s' = new ++ trace s /\ orientation_writes new = []) /\
  (forall img s', perform g fuel self true s = (Ok img, s') ->
     exists d blob o v new,
       heap s !! self = Some d /\ lib_transform (codec_op g) d = inr blob /\
       current_orientation blob o /\ apply o g = Some v /\
       trace s' = new ++ trace s /\ orientation_writes new = [(img, v)]) /\
  (forall d img s',
     heap s !! self = Some d ->
     (forall blob, lib_transform (codec_op g) d = inr blob ->
                   lib_exif_orientation blob = lib_exif_orientation d) ->
     perform g fuel self true s = (Ok img, s') ->
     exists o v new,
       current_orientation d o /\ apply o g = Some v /\
       trace s' = new ++ trace s /\ orientation_writes new = [(img, v)]).
Proof.
  assert (forall img s', perform g fuel self true s = (Ok img, s') ->
     exists d blob o v new,
       heap s !! self = Some d /\ lib_transform (codec_op g) d = inr blob /\
       current_orientation blob o /\ apply o g = Some v /\
       trace s' = new ++ trace s /\ orientation_writes new = [(img, v)]) as Hwith.
  { intros img s' Hrun.
    destruct (perform_true_tag g fuel self s img s' Hrun)
      as (d' & blob' & Hd' & Hblob' & Htag).
    apply perform_true_inv in Hrun
      as (d & blob & v & d1 & s3 & Hd & Hblob & Himg & Hv & _ & _ & -> & Hthumb).
    assert (d' = d) as -> by (unfold handle in *; congruence).
    assert (blob' = blob) as -> by congruence.
    destruct (subscript_is_current_orientation g blob v Htag Hv) as (o & Hcur & Ho).
    apply update_thumbnail_trace in Hthumb as (new & Hnew & Hquiet).
    exists d, blob, o, v.
    exists (new ++ [EnterUpdateThumbnail img; LibSetOrientation img v;
                    LibGetOrientation img; LibTransform self (codec_op g)]).
    repeat split; try assumption.
    + rewrite Hnew. simpl. rewrite <- app_assoc. reflexivity.
    + rewrite orientation_writes_app, Hquiet. reflexivity. }
  split; [| split; [exact Hwith |]].
  - intros r s' Hrun.
    destruct (perform_plain_quiet g fuel self s) as (new & Hnew & Hall).
    rewrite Hrun in Hnew. simpl in Hnew.
    exists new. split; [exact Hnew | apply no_orientation_writes, Hall].
  - intros d img s' Hd Hcopy Hrun.
    destruct (Hwith img s' Hrun)
      as (d0 & blob & o & v & new & Hd0 & Hblob & Hcur & Hv & Hnew & Hw).
    assert (d0 = d) as -> by (unfold handle in *; congruence).
    exists o, v, new. repeat split; try assumption.
    unfold current_orientation in *. rewrite <- (Hcopy blob Hblob). exact Hcur.
Qed.

(** One of the seven transforms that returns has run the thumbnail step on
    the image it returns, a new object. *)
Lemma perform_runs_update_thumbnail g fuel self with_exif s img s' :
  perform g fuel self with_exif s = (Ok img, s') ->
  img = length (heap s) /\
  exists new old, trace s' = new ++ EnterUpdateThumbnail img :: old ++ trace s.
Proof.
  destruct with_exif; intros Hrun.
  - apply perform_true_inv in Hrun
      as (d & blob & v & d1 & s3 & _ & _ & Himg & _ & _ & _ & -> & Hthumb).
    apply update_thumbnail_trace in Hthumb as (new & Hnew & _).
    split; [exact Himg |].
    exists new, [LibSetOrientation img v; LibGetOrientation img;
                 LibTransform self (codec_op g)].
    exact Hnew.
  - apply perform_plain_inv in Hrun as (d & blob & _ & _ & Himg & Hthumb).
    apply update_thumbnail_trace in Hthumb as (new & Hnew & _).
    split; [exact Himg |].
    exists new, [LibTransform self (codec_op g)]. exact Hnew.
Qed.

End Transforms.

(** ** Runs on an image whose dimensions are known *)

Lemma state_eta (s : state) : State (heap s) (trace s) = s.
Proof. destruct s. reflexivity. Qed.

Lemma queried_0 self s : queried 0 self s = s.
Proof. apply state_eta. Qed.

Lemma queried_queried n m self s :
  queried n self (queried m self s) = queried (n + m) self s.
Proof.
  unfold queried. simpl. f_equal.
  rewrite replicate_add, <- app_assoc. reflexivity.
Qed.

Lemma logged_queried n self s :
  logged (LibDimensions self) (queried n self s) = queried (S n) self s.
Proof. reflexivity. Qed.

Lemma and_then_run (c1 c2 : M bool) s b s1 :
  c1 s = (Ok b, s1) ->
  and_then c1 c2 s = if b then c2 s1 else (Ok false, s1).
Proof. intros E. unfold and_then. rewrite (bind_ok _ _ _ _ _ E). destruct b; reflexivity. Qed.

Lemma or_else_run (c1 c2 : M bool) s b s1 :
  c1 s = (Ok b, s1) ->
  or_else c1 c2 s = if b then (Ok true, s1) else c2 s1.
Proof. intros E. unfold or_else. rewrite (bind_ok _ _ _ _ _ E). destruct b; reflexivity. Qed.

Section KnownDimensions.
Context `{Lib}.
Variables (self : handle) (d : bytes) (cw ch : Z).
Hypothesis dimensions : lib_get_dimensions d = inr (cw, ch).

Lemma width_run s :
  heap s !! self = Some d ->
  width self s = (Ok cw, logged (LibDimensions self) s).
Proof.
  intros Hd. unfold width, get_dimensions, bind, data, call, bind, log, lift.
  rewrite Hd, dimensions. reflexivity.
Qed.

Lemma height_run s :
  heap s !! self = Some d ->
  height self s = (Ok ch, logged (LibDimensions self) s).
Proof.
  intros Hd. unfold height, get_dimensions, bind, data, call, bind, log, lift.
  rewrite Hd, dimensions. reflexivity.
Qed.

Lemma width_test_run (test : Z -> bool) s :
  heap s !! self = Some d ->
  (w <- width self ;; ret (test w)) s = (Ok (test cw), logged (LibDimensions self) s).
Proof. intros Hd. rewrite (bind_ok _ _ _ _ _ (width_run s Hd)). reflexivity. Qed.

Lemma height_test_run (test : Z -> bool) s :
  heap s !! self = Some d ->
  (h <- height self ;; ret (test h)) s = (Ok (test ch), logged (LibDimensions self) s).
Proof. intros Hd. rewrite (bind_ok _ _ _ _ _ (height_run s Hd)). reflexivity. Qed.

(** The bounds check of [crop]. *)
Lemma crop_check_run (x y w_ h_ : Z) s :
  heap s !! self = Some d ->
  exists n,
    and_then (w <- width self ;; ret (x <? w))
      (and_then (h <- height self ;; ret (y <? h))
         (and_then (w <- width self ;; ret (x + w_ <=? w))
                   (h <- height self ;; ret (y + h_ <=? h)))) s
    = (Ok ((x <? cw) && (y <? ch) && (x + w_ <=? cw) && (y + h_ <=? ch)),
       queried n self s).
Proof.
  intros Hd.
  rewrite (and_then_run _ _ _ _ _ (width_test_run (fun w => x <? w) s Hd)).
  destruct (x <? cw); [| exists 1%nat; reflexivity].
  rewrite (and_then_run _ _ _ _ _
             (height_test_run (fun h => y <? h) (queried 1 self s) Hd)).
  destruct (y <? ch); [| exists 2%nat; reflexivity].
  rewrite (and_then_run _ _ _ _ _
             (width_test_run (fun w => x + w_ <=? w) (queried 2 self s) Hd)).
  destruct (x + w_ <=? cw); [| exists 3%nat; reflexivity].
  exists 4%nat.
  exact (height_test_run (fun h => y + h_ <=? h) (queried 3 self s) Hd).
Qed.

(** The two checks of [downscale]. *)
Lemma same_size_check_run (w_ h_ : Z) s :
  heap s !! self = Some d ->
  and_then (w <- width self ;; ret (w_ =? w)) (h <- height self ;; ret (h_ =? h)) s
  = (Ok ((w_ =? cw) && (h_ =? ch)),
     queried (if w_ =? cw then 2 else 1) self s).
Proof.
  intros Hd.
  rewrite (and_then_run _ _ _ _ _ (width_test_run (fun w => w_ =? w) s Hd)).
  destruct (w_ =? cw); [| reflexivity].
  exact (height_test_run (fun h => h_ =? h) (queried 1 self s) Hd).
Qed.

Lemma larger_check_run (w_ h_ : Z) s :
  heap s !! self = Some d ->
  or_else (w <- width self ;; ret (w_ >? w)) (h <- height self ;; ret (h_ >? h)) s
  = (Ok ((w_ >? cw) || (h_ >? ch)),
     queried (if w_ >? cw then 1 else 2) self s).
Proof.
  intros Hd.
  rewrite (or_else_run _ _ _ _ _ (width_test_run (fun w => w_ >? w) s Hd)).
  destruct (w_ >? cw); [reflexivity |].
  exact (height_test_run (fun h => h_ >? h) (queried 1 self s) Hd).
Qed.

(** [downscale], unfolded once. *)
Lemma downscale_run (fuel : nat) (w_ h_ q : Z) s :
  heap s !! self = Some d ->
  downscale (S fuel) self w_ h_ q s =
  if (w_ =? cw) && (h_ =? ch) then (Ok self, queried 2 self s)
  else if (w_ >? cw) || (h_ >? ch) then
    (Raise (ValueError "jpegtran can only downscale JPEGs"),
     queried (downscale_queries cw w_ h_) self s)
  else
    (new <- transformed self (OpScale w_ h_ q) ;;
     _update_thumbnail fuel new ;;;
     ret new) (queried (downscale_queries cw w_ h_) self s).
Proof.
  intros Hd. simpl.
  rewrite (bind_ok _ _ _ _ _ (same_size_check_run w_ h_ s Hd)).
  destruct ((w_ =? cw) && (h_ =? ch)) eqn:Esame.
  { apply andb_true_iff in Esame as [-> _]. reflexivity. }
  assert (heap (queried (if w_ =? cw then 2 else 1) self s) !! self = Some d) as Hd'
    by exact Hd.
  rewrite (bind_ok _ _ _ _ _ (larger_check_run w_ h_ _ Hd')).
  rewrite queried_queried. fold (downscale_queries cw w_ h_).
  destruct ((w_ >? cw) || (h_ >? ch)); reflexivity.
Qed.

(** [downscale] refuses a size that is larger in width or in height. *)
Lemma downscale_refuses_larger (fuel : nat) s (w_ h_ q : Z) :
  heap s !! self = Some d ->
  w_ > cw \/ h_ > ch ->
  exists n,
    downscale (S fuel) self w_ h_ q s
    = (Raise (ValueError "jpegtran can only downscale JPEGs"), queried n self s).
Proof.
  intros Hd Hlarger. rewrite (downscale_run fuel w_ h_ q s Hd).
  assert ((w_ =? cw) && (h_ =? ch) = false) as ->.
  { apply andb_false_iff. destruct Hlarger; [left | right]; lia. }
  assert ((w_ >? cw) || (h_ >? ch) = true) as ->.
  { apply orb_true_iff. destruct Hlarger; [left | right]; lia. }
  exists (downscale_queries cw w_ h_). reflexivity.
Qed.

End KnownDimensions.

(** ** Crop and downscale *)

Section CropAndDownscale.
Context `{Lib}.

(** C5. Downscaling an image to its current width and height returns the very
    same object; the store keeps every buffer as it was, no object is created,
    and the only calls made are the two dimension queries of the comparison:
    no transformation, no thumbnail step. *)
Theorem C5_downscale_identity (fuel : nat) (self : handle) (s : state)
    (d : bytes) (w h q : Z) :
  heap s !! self = Some d ->
  lib_get_dimensions d = inr (w, h) ->
  downscale (S fuel) self w h q s
  = (Ok self, State (heap s) (LibDimensions self :: LibDimensions self :: trace s)).
Proof.
  intros Hd Hdim. rewrite (downscale_run self d w h Hdim fuel w h q s Hd).
  rewrite !Z.eqb_refl. reflexivity.
Qed.

(** C7. A downscale whose width or height exceeds the current one raises
    [ValueError]; the store keeps every buffer as it was, no object is
    created, and the only calls made are dimension queries: the collaborator
    is not asked to transform anything. *)
Theorem C7_upscale_rejected (fuel : nat) (self : handle) (s : state)
    (d : bytes) (cw ch w h q : Z) :
  heap s !! self = Some d ->
  lib_get_dimensions d = inr (cw, ch) ->
  w > cw \/ h > ch ->
  exists n,
    downscale (S fuel) self w h q s
    = (Raise (ValueError "jpegtran can only downscale JPEGs"),
       State (heap s) (replicate n (LibDimensions self) ++ trace s)).
Proof.
  intros Hd Hdim Hlarger.
  exact (downscale_refuses_larger self d cw ch Hdim fuel s w h q Hd Hlarger).
Qed.

Lemma dimensions_fail_width self d e s :
  heap s !! self = Some d -> lib_get_dimensions d = inl e ->
  forall (test : Z -> bool) (c2 : M bool),
    and_then (w <- width self ;; ret (test w)) c2 s
    = (Raise e, logged (LibDimensions self) s).
Proof.
  intros Hd Hdim test c2.
  unfold and_then, bind, width, get_dimensions, bind, data, call, bind, log, lift.
  rewrite Hd, Hdim. reflexivity.
Qed.

(** A crop whose rectangle fails the test raises its own [ValueError] after
    dimension queries only. *)
Lemma crop_rejects (fuel : nat) (self : handle) (s : state) (d : bytes)
    (cw ch x y w_ h_ : Z) :
  heap s !! self = Some d ->
  lib_get_dimensions d = inr (cw, ch) ->
  valid_crop cw ch x y w_ h_ = false ->
  exists n,
    crop fuel self x y w_ h_ s
    = (Raise (ValueError "Crop parameters point outside of the image"),
       queried n self s).
Proof.
  intros Hd Hdim Hbad.
  destruct (crop_check_run self d cw ch Hdim x y w_ h_ s Hd) as (n & Hcheck).
  exists n. unfold crop. rewrite (bind_ok _ _ _ _ _ Hcheck).
  unfold valid_crop in Hbad. rewrite Hbad. reflexivity.
Qed.

(** A crop whose rectangle passes goes on to the collaborator and then to the
    thumbnail step. *)
Lemma crop_accepts (fuel : nat) (self : handle) (s : state) (d : bytes)
    (cw ch x y w_ h_ : Z) :
  heap s !! self = Some d ->
  lib_get_dimensions d = inr (cw, ch) ->
  valid_crop cw ch x y w_ h_ = true ->
  exists n,
    crop fuel self x y w_ h_ s
    = (new <- transformed self (OpCrop x y w_ h_) ;;
       _update_thumbnail fuel new ;;;
       ret new) (queried n self s).
Proof.
  intros Hd Hdim Hgood.
  destruct (crop_check_run self d cw ch Hdim x y w_ h_ s Hd) as (n & Hcheck).
  exists n. unfold crop. rewrite (bind_ok _ _ _ _ _ Hcheck).
  unfold valid_crop in Hgood. rewrite Hgood. reflexivity.
Qed.

(** What follows the checks in [crop] and [downscale], when it returns. *)
Lemma transform_then_update_inv (fuel : nat) (self : handle) (op : tr_op)
    (s : state) (img : handle) (s' : state) :
  (new <- transformed self op ;; _update_thumbnail fuel new ;;; ret new) s
  = (Ok img, s') ->
  img = length (heap s) /\
  exists new, trace s' = new ++ EnterUpdateThumbnail img :: LibTransform self op :: trace s.
Proof.
  intros Hrun.
  apply bind_ok_inv in Hrun as (img' & s1 & Htr & Hrun).
  apply transformed_ok_inv in Htr as (d & blob & _ & _ & _ & -> & ->).
  apply bind_ok_inv in Hrun as ([] & s2 & Hthumb & Hret).
  injection Hret as <- <-.
  apply update_thumbnail_trace in Hthumb as (new & Hnew & _).
  split; [reflexivity | exists new; exact Hnew].
Qed.

(** C10. A rotate, flip, transpose, transverse, crop or downscale that
    returns has run the thumbnail step on the image it returns, which is a new
    object; the one exception is the downscale to the current size, which
    returns the image itself after two dimension queries and nothing else. *)
Theorem C10_thumbnail_step_after_transform (fuel : nat) (self : handle)
    (op : pixel_op) (s : state) (d : bytes) (img : handle) (s' : state) :
  heap s !! self = Some d ->
  run_op fuel self op s = (Ok img, s') ->
  if identity_downscale d op then
    img = self /\ s' = queried 2 self s
  else
    img = length (heap s) /\
    exists new old, trace s' = new ++ EnterUpdateThumbnail img :: old ++ trace s.
Proof.
  intros Hd Hrun. destruct op as [g with_exif | x y w_ h_ | w_ h_ q];
    unfold identity_downscale; cbn [run_op] in Hrun.
  - apply (perform_runs_update_thumbnail g fuel self with_exif s img s' Hrun).
  - destruct (lib_get_dimensions d) as [e | [cw ch]] eqn:Hdim.
    { unfold crop in Hrun.
      rewrite (bind_raise _ _ _ _ _ (dimensions_fail_width self d e s Hd Hdim _ _)) in Hrun.
      discriminate. }
    destruct (valid_crop cw ch x y w_ h_) eqn:Hvalid.
    + destruct (crop_accepts fuel self s d cw ch x y w_ h_ Hd Hdim Hvalid) as (n & E).
      rewrite E in Hrun.
      apply transform_then_update_inv in Hrun as (Himg & new & Hnew).
      split; [exact Himg |].
      exists new, (LibTransform self (OpCrop x y w_ h_) :: replicate n (LibDimensions self)).
      exact Hnew.
    + destruct (crop_rejects fuel self s d cw ch x y w_ h_ Hd Hdim Hvalid) as (n & E).
      rewrite E in Hrun. discriminate.
  - destruct fuel as [| fuel]; [discriminate |].
    destruct (lib_get_dimensions d) as [e | [cw ch]] eqn:Hdim.
    { cbn [downscale] in Hrun.
      rewrite (bind_raise _ _ _ _ _ (dimensions_fail_width self d e s Hd Hdim _ _)) in Hrun.
      discriminate. }
    rewrite (downscale_run self d cw ch Hdim fuel w_ h_ q s Hd) in Hrun.
    destruct ((w_ =? cw) && (h_ =? ch)).
    { injection Hrun as <- <-. split; reflexivity. }
    destruct ((w_ >? cw) || (h_ >? ch)); [discriminate |].
    apply transform_then_update_inv in Hrun as (Himg & new & Hnew).
    split; [exact Himg |].
    exists new, (LibTransform self (OpScale w_ h_ q)
                   :: replicate (downscale_queries cw w_ h_) (LibDimensions self)).
    exact Hnew.
Qed.

End CropAndDownscale.

(** ** The orientation tag *)

Section OrientationTag.
Context `{Lib}.

Lemma invoke_writes_in_range fuel self c :
  preserves (adds writes_in_range) (invoke fuel self c).
Proof.
  pose proof (adds_refl writes_in_range) as Hrefl.
  pose proof (adds_trans writes_in_range) as Htrans.
  assert (forall ev s, writes_in_range ev -> adds writes_in_range s (logged ev s))
    as Hlog by (intros; apply adds_logged; assumption).
  assert (forall blob s, adds writes_in_range s (allocated blob s)) as Halloc
    by (intros; apply adds_same_trace; reflexivity).
  assert (forall self d s, adds writes_in_range s (stored self d s)) as Hstored
    by (intros; apply adds_same_trace; reflexivity).
  assert (forall self new d d' s,
            heap s !! self = Some d -> lib_exif_set_thumbnail new d = inr d' ->
            adds writes_in_range s (stored self d' s)) as Hset
    by (intros; apply Hstored).
  assert (forall ev, ~ orientation_event ev -> writes_in_range ev) as Hother
    by (intros []; simpl; tauto).
  assert (forall h, writes_in_range (LibGetOrientation h)) as Hget
    by (intros; exact I).
  assert (forall h v, 0 < v < 9 -> writes_in_range (LibSetOrientation h v)) as Hwrite
    by (intros; simpl; lia).
  destruct c; cbn [invoke];
    try (apply (preserves_bind _ Htrans); [| intros; apply (preserves_ret _ Hrefl)]).
  - apply (preserves_rotate _ writes_in_range); assumption.
  - apply (preserves_flip _ writes_in_range); assumption.
  - apply (preserves_transpose _ writes_in_range); assumption.
  - apply (preserves_transverse _ writes_in_range); assumption.
  - apply (preserves_crop _ writes_in_range); assumption.
  - apply (preserves_downscale _ writes_in_range); assumption.
  - apply (preserves_exif_autotransform _ writes_in_range); assumption.
  - apply (preserves_exif_orientation _ writes_in_range); assumption.
  - apply (preserves_set_exif_orientation _ writes_in_range); assumption.
  - apply (preserves_exif_thumbnail _ writes_in_range); assumption.
  - apply (preserves_set_exif_thumbnail _ writes_in_range); assumption.
Qed.

(** C9. The orientation setter refuses every value outside 1..8 with
    [ValueError] and leaves the store untouched, nothing having been called;
    whatever method is called, every orientation handed to the collaborator
    for writing lies in 1..8; every value of the seven tables lies in 1..8;
    and the getter returns [None], not a number, exactly when the collaborator
    reports that there is no tag. *)
Theorem C9_orientation_in_range :
  (forall self value s, ~ 1 <= value <= 8 ->
     set_exif_orientation self value s
     = (Raise (ValueError "Orientation value must be between 1 and 8"), s)) /\
  (forall fuel self c s r s', invoke fuel self c s = (r, s') ->
     exists new, trace s' = new ++ trace s /\
       forall h v, (h, v) ∈ orientation_writes new -> 1 <= v <= 8) /\
  (forall g m o v, table_of g = Some m -> m !! o = Some v -> 1 <= v <= 8) /\
  (forall self s d, heap s !! self = Some d ->
     exif_orientation self s
     = (match lib_exif_orientation d with
        | inr v => Ok (Some v)
        | inl ExifException => Ok None
        | inl e => Raise e
        end, logged (LibGetOrientation self) s)).
Proof.
  split; [| split; [| split]].
  - intros self value s Hout. unfold set_exif_orientation.
    destruct (0 <? value) eqn:E1, (value <? 9) eqn:E2; simpl; try reflexivity. lia.
  - intros fuel self c s r s' Hrun.
    destruct (invoke_writes_in_range fuel self c s) as (new & Hnew & Hall).
    rewrite Hrun in Hnew. exists new. split; [exact Hnew |].
    intros h v Hin. unfold orientation_writes in Hin.
    apply list_elem_of_omap in Hin as (ev & Hev & Hsome).
    rewrite Forall_forall in Hall. specialize (Hall ev Hev).
    destruct ev; try discriminate. injection Hsome as -> ->. exact Hall.
  - intros g m o v Hm Hv. apply (table_entries_in_range g m o v Hm Hv).
  - intros self s d Hd. apply exif_orientation_run, Hd.
Qed.

End OrientationTag.

Section Autotransform.
Context `{LibLaws}.

Lemma or_1_orientation (o : Z) : 1 <= o <= 8 -> or_1 (Some o) = o.
Proof. intros Ho. each_orientation o Ho; reflexivity. Qed.

(** Each corrective operation sends the orientation it is listed for to 1. *)
Lemma corrective_gives_1 (o : Z) (g : generator) (v : Z) :
  1 <= o <= 8 -> corrective o = Some g -> apply o g = Some v -> v = 1.
Proof.
  intros Ho Hg Hv. each_orientation o Ho; vm_compute in Hg;
    try discriminate; injection Hg as <-; vm_compute in Hv; congruence.
Qed.

(** A transform that propagates the orientation returns an image whose tag is
    the table value of the tag the source image had. *)
Lemma perform_true_orientation g fuel self s d o img s' :
  heap s !! self = Some d ->
  lib_exif_orientation d = inr o -> 1 <= o <= 8 ->
  perform g fuel self true s = (Ok img, s') ->
  exists v d', apply o g = Some v /\
    heap s' !! img = Some d' /\ lib_exif_orientation d' = inr v.
Proof.
  intros Hd Ho Hrange Hrun.
  apply perform_true_inv in Hrun
    as (d0 & blob & v & d1 & s3 & Hd0 & Hblob & Himg & Hv & Hvr & Hset & Hs3 & Hthumb).
  assert (d0 = d) as -> by (unfold handle in *; congruence).
  pose proof (transform_keeps_orientation _ _ _ Hblob) as Hkeep.
  assert (tag_of blob = Some o) as Htag by (unfold tag_of; rewrite Hkeep, Ho; reflexivity).
  rewrite Htag, (or_1_orientation o Hrange) in Hv.
  pose proof (orientation_set_get v blob d1 Hvr Hset) as Hread.
  assert (heap s3 !! img = Some d1) as Himg3.
  { subst s3 img. simpl. apply list_lookup_insert_eq.
    rewrite length_app. simpl. lia. }
  pose proof (update_thumbnail_keeps_orientation fuel img s3) as Hk.
  rewrite Hthumb in Hk. simpl in Hk.
  destruct (Hk img d1 Himg3) as (d' & Hd' & Hsame).
  exists v, d'. repeat split; [exact Hv | exact Hd' | congruence].
Qed.

(** C4. [exif_autotransform] raises when the image has no orientation tag;
    for a tag of 1..8 it returns the image itself for 1 and otherwise calls
    the one operation listed for the tag, with [with_exif] set; and when it
    returns an image, the orientation tag of that image reads 1.  The last
    part rests on the collaborator copying the tag through a transform,
    reading back the tag that was written and keeping it through a thumbnail
    write. *)
Theorem C4_exif_autotransform (fuel : nat) (self : handle) (s : state) (d : bytes) :
  heap s !! self = Some d ->
  (lib_exif_orientation d = inl ExifException ->
     exif_autotransform fuel self s
     = (Raise (Exception_ "Could not find EXIF orientation"),
        logged (LibGetOrientation self) s)) /\
  (forall o, lib_exif_orientation d = inr o -> 1 <= o <= 8 ->
     exif_autotransform fuel self s
     = match corrective o with
       | None => (Ok (Some self), logged (LibGetOrientation self) s)
       | Some g =>
           (new <- perform g fuel self true ;; ret (Some new))
             (logged (LibGetOrientation self) s)
       end /\
     forall img s', exif_autotransform fuel self s = (Ok (Some img), s') ->
       exists d', heap s' !! img = Some d' /\ lib_exif_orientation d' = inr 1).
Proof.
  intros Hd. split.
  - intros Hnone. unfold exif_autotransform.
    pose proof (exif_orientation_run self s d Hd) as Hget. rewrite Hnone in Hget.
    rewrite (bind_ok _ _ _ _ _ Hget). reflexivity.
  - intros o Ho Hrange.
    assert (exif_autotransform fuel self s
            = match corrective o with
              | None => (Ok (Some self), logged (LibGetOrientation self) s)
              | Some g =>
                  (new <- perform g fuel self true ;; ret (Some new))
                    (logged (LibGetOrientation self) s)
              end) as Hmap.
    { unfold exif_autotransform.
      pose proof (exif_orientation_run self s d Hd) as Hget. rewrite Ho in Hget.
      rewrite (bind_ok _ _ _ _ _ Hget).
      clear Ho Hget. each_orientation o Hrange; reflexivity. }
    split; [exact Hmap |].
    intros img s' Hrun. rewrite Hmap in Hrun.
    destruct (corrective o) as [g |] eqn:Hg.
    + apply bind_ok_inv in Hrun as (new & s2 & Hperf & Hret).
      injection Hret as -> ->.
      assert (heap (logged (LibGetOrientation self) s) !! self = Some d) as Hd1
        by exact Hd.
      destruct (perform_true_orientation g fuel self _ d o img s' Hd1 Ho Hrange Hperf)
        as (v & d' & Hv & Hd' & Hread).
      exists d'. split; [exact Hd' |].
      rewrite (corrective_gives_1 o g v Hrange Hg Hv) in Hread. exact Hread.
    + injection Hrun as <- <-. exists d. split; [exact Hd |].
      rewrite Ho. f_equal.
      clear - Hrange Hg. each_orientation o Hrange; try discriminate. reflexivity.
Qed.

End Autotransform.

(** ** The thumbnail step *)

Section ThumbnailStep.
Context `{Lib}.

Lemma lookup_allocated_old (blob : bytes) (s : state) (h : handle) (d : bytes) :
  heap s !! h = Some d -> heap (allocated blob s) !! h = Some d.
Proof.
  intros Hd. simpl. rewrite lookup_app_l; [exact Hd |].
  apply lookup_lt_Some in Hd. exact Hd.
Qed.

Lemma exif_thumbnail_run self s d :
  heap s !! self = Some d ->
  exif_thumbnail self s =
  match lib_exif_thumbnail d with
  | inl ExifException => (Ok None, logged (LibGetThumbnail self) s)
  | inl e => (Raise e, logged (LibGetThumbnail self) s)
  | inr [] => (Raise (Exception_ "Must initialize with either fname or blob."),
               logged (LibGetThumbnail self) s)
  | inr blob => (Ok (Some (length (heap s))),
                 allocated blob (logged (LibGetThumbnail self) s))
  end.
Proof.
  intros Hd.
  unfold exif_thumbnail, except_ExifException, bind, data, call, bind, log, lift.
  rewrite Hd. destruct (lib_exif_thumbnail d) as [[] | [| b blob]]; reflexivity.
Qed.

(** The write of a returned image's bytes as the thumbnail of [self]. *)
Lemma set_exif_thumbnail_run self updated s du ds t ds' :
  heap s !! updated = Some du ->
  heap s !! self = Some ds ->
  lib_exif_thumbnail ds = inr t -> t <> [] ->
  lib_exif_set_thumbnail du ds = inr ds' ->
  set_exif_thumbnail self (ArgImage updated) s
  = (Ok tt,
     stored self ds'
       (logged (LibSetThumbnail self du)
          (allocated t (logged (LibGetThumbnail self) s)))).
Proof.
  intros Hu Hs Ht Hne Hset. unfold set_exif_thumbnail.
  assert ((data updated ;;; ret tt) s = (Ok tt, s)) as E0
    by (unfold bind, data; rewrite Hu; reflexivity).
  rewrite (bind_ok _ _ _ _ _ E0).
  pose proof (exif_thumbnail_run self s ds Hs) as E1. rewrite Ht in E1.
  destruct t as [| b t]; [congruence |].
  rewrite (bind_ok _ _ _ _ _ E1).
  set (s1 := allocated (b :: t) (logged (LibGetThumbnail self) s)).
  assert (heap s1 !! self = Some ds) as Hs1 by (apply lookup_allocated_old, Hs).
  assert (heap s1 !! updated = Some du) as Hu1 by (apply lookup_allocated_old, Hu).
  unfold bind, data, call, bind, log, lift, store.
  rewrite Hs1, Hu1, Hset. reflexivity.
Qed.

Variables (self : handle) (d : bytes) (cw ch : Z).
Hypothesis dimensions : lib_get_dimensions d = inr (cw, ch).

Lemma size_tests_run (t1 t2 : Z -> bool) s :
  heap s !! self = Some d ->
  and_then (w <- width self ;; ret (t1 w)) (h <- height self ;; ret (t2 h)) s
  = (Ok (t1 cw && t2 ch), queried (if t1 cw then 2 else 1) self s).
Proof.
  intros Hd.
  rewrite (and_then_run _ _ _ _ _ (width_test_run self d cw ch dimensions t1 s Hd)).
  destruct (t1 cw); [| reflexivity].
  exact (height_test_run self d cw ch dimensions t2 (queried 1 self s) Hd).
Qed.

(** The step queries the dimensions twice to compare them and twice more for
    the ratio; what it computes is [target_size]. *)
Lemma target_run {A} (k : Z * Z -> M A) s :
  heap s !! self = Some d ->
  (w <- width self ;;
   h <- height self ;;
   target <-
     (if w >? h then
        w <- width self ;;
        h <- height self ;;
        r <- lift (int_truediv w h) ;;
        q <- lift (int_div_float 160 r) ;;
        target_height <- lift (int_of_float q) ;;
        ret (160, target_height)
      else
        w <- width self ;;
        h <- height self ;;
        r <- lift (int_truediv w h) ;;
        p <- lift (int_mul_float 160 r) ;;
        target_width <- lift (int_of_float p) ;;
        ret (target_width, 160)) ;;
   k target) s
  = match target_size cw ch with
    | inl e => (Raise e, queried 4 self s)
    | inr t => k t (queried 4 self s)
    end.
Proof.
  intros Hd.
  rewrite (bind_ok _ _ _ _ _ (width_run self d cw ch dimensions s Hd)).
  rewrite (bind_ok _ _ _ _ _ (height_run self d cw ch dimensions (queried 1 self s) Hd)).
  unfold target_size.
  destruct (cw >? ch);
    unfold bind at 1;
    rewrite (bind_ok _ _ _ _ _ (width_run self d cw ch dimensions (queried 2 self s) Hd));
    rewrite (bind_ok _ _ _ _ _ (height_run self d cw ch dimensions (queried 3 self s) Hd));
    unfold bind, lift, res_bind, ret, raise;
    destruct (int_truediv cw ch) as [e | r]; try reflexivity; cbv beta iota.
  - destruct (int_div_float 160 r) as [e | q]; [reflexivity |]. cbv beta iota.
    destruct (int_of_float q); reflexivity.
  - destruct (int_mul_float 160 r) as [e | p]; [reflexivity |]. cbv beta iota.
    destruct (int_of_float p); reflexivity.
Qed.

(** The thumbnail step on an image that has a thumbnail. *)
Lemma update_thumbnail_run (fuel : nat) (blob : bytes) s :
  heap s !! self = Some d ->
  lib_exif_thumbnail d = inr blob -> blob <> [] ->
  _update_thumbnail fuel self s =
  let s1 := allocated blob
              (logged (LibGetThumbnail self) (logged (EnterUpdateThumbnail self) s)) in
  match target_size cw ch with
  | inl e => (Raise e, queried 4 self s1)
  | inr (target_width, target_height) =>
      if (target_width >? cw) && (target_height >? ch) then
        (Ok tt, queried 6 self s1)
      else
        (updated <- downscale fuel self target_width target_height 75 ;;
         set_exif_thumbnail self (ArgImage updated))
          (queried (if target_width >? cw then 6 else 5) self s1)
  end.
Proof.
  intros Hd Hblob Hne. cbv zeta.
  unfold _update_thumbnail, update_thumbnail_with.
  unfold bind at 1. unfold log at 1. cbv beta iota.
  fold (logged (EnterUpdateThumbnail self) s).
  pose proof (exif_thumbnail_run self (logged (EnterUpdateThumbnail self) s) d Hd) as E1.
  rewrite Hblob in E1. destruct blob as [| b blob]; [congruence |].
  rewrite (bind_ok _ _ _ _ _ E1).
  set (s1 := allocated (b :: blob) _).
  assert (heap s1 !! self = Some d) as Hd1 by (apply lookup_allocated_old, Hd).
  rewrite (target_run _ s1 Hd1).
  destruct (target_size cw ch) as [e | [tw th]]; [reflexivity |].
  cbn [fst snd].
  assert (heap (queried 4 self s1) !! self = Some d) as Hd4 by exact Hd1.
  rewrite (bind_ok _ _ _ _ _
             (size_tests_run (fun w => tw >? w) (fun h => th >? h) _ Hd4)).
  rewrite queried_queried.
  destruct (tw >? cw); [destruct (th >? ch) |]; reflexivity.
Qed.

(** Whatever the collaborator: when the target exceeds the image in exactly
    one of width and height, the step reaches [downscale], which raises. *)
Lemma update_thumbnail_raises (fuel : nat) (blob : bytes) (tw th : Z) s :
  heap s !! self = Some d ->
  lib_exif_thumbnail d = inr blob -> blob <> [] ->
  target_size cw ch = inr (tw, th) ->
  ~ (tw > cw /\ th > ch) -> tw > cw \/ th > ch ->
  exists s',
    _update_thumbnail (S fuel) self s
    = (Raise (ValueError "jpegtran can only downscale JPEGs"), s').
Proof.
  intros Hd Hblob Hne Htarget Hnot Hone.
  rewrite (update_thumbnail_run (S fuel) blob s Hd Hblob Hne).
  cbv zeta. rewrite Htarget.
  assert ((tw >? cw) && (th >? ch) = false) as ->.
  { apply andb_false_iff.
    destruct (tw >? cw) eqn:E1; [| left; reflexivity].
    destruct (th >? ch) eqn:E2; [| right; reflexivity].
    exfalso. apply Hnot. split; lia. }
  match goal with |- context [queried ?n self ?s1] => set (s2 := queried n self s1) end.
  assert (heap s2 !! self = Some d) as Hd2.
  { subst s2. simpl. rewrite lookup_app_l; [exact Hd |].
    apply lookup_lt_Some in Hd. exact Hd. }
  destruct (downscale_refuses_larger self d cw ch dimensions fuel s2 tw th 75 Hd2 Hone)
    as (n & Hraise).
  eexists. rewrite (bind_raise _ _ _ _ _ Hraise). reflexivity.
Qed.

End ThumbnailStep.

Section ThumbnailClaim.
Context `{Lib}.

(** C3, as the code has it. On an image without a thumbnail the step makes its
    one query and changes nothing.  On an image with one it takes as target
    size [target_size]: 160 on the longer side and, on the other, the integer
    part of [160/(width/height)] (or of [160*(width/height)]) as binary64
    arithmetic gives it.  If that target exceeds the image both in width and
    in height, the step ends there: no buffer changes and nothing is written.
    Otherwise it calls [downscale] for the target size with quality 75 and
    hands the image that comes back to the thumbnail setter, which writes the
    bytes of that image as the thumbnail of [self]. *)
Theorem C3_thumbnail_step (fuel : nat) (self : handle) (s : state) (d : bytes) :
  heap s !! self = Some d ->
  let entered :=
    logged (LibGetThumbnail self) (logged (EnterUpdateThumbnail self) s) in
  (lib_exif_thumbnail d = inl ExifException ->
     _update_thumbnail fuel self s = (Ok tt, entered)) /\
  (forall blob cw ch tw th,
     lib_exif_thumbnail d = inr blob -> blob <> [] ->
     lib_get_dimensions d = inr (cw, ch) ->
     target_size cw ch = inr (tw, th) ->
     (tw > cw /\ th > ch ->
        _update_thumbnail fuel self s
        = (Ok tt, queried 6 self (allocated blob entered))) /\
     (~ (tw > cw /\ th > ch) ->
        exists n,
          _update_thumbnail fuel self s
          = (updated <- downscale fuel self tw th 75 ;;
             set_exif_thumbnail self (ArgImage updated))
              (queried n self (allocated blob entered)))) /\
  (forall updated s2 du ds t ds',
     heap s2 !! updated = Some du -> heap s2 !! self = Some ds ->
     lib_exif_thumbnail ds = inr t -> t <> [] ->
     lib_exif_set_thumbnail du ds = inr ds' ->
     set_exif_thumbnail self (ArgImage updated) s2
     = (Ok tt,
        stored self ds'
          (logged (LibSetThumbnail self du)
             (allocated t (logged (LibGetThumbnail self) s2))))) /\
  (forall w h,
     target_size w h
     = if w >? h then
         res_bind (int_truediv w h) (fun r =>
         res_bind (int_div_float 160 r) (fun q =>
         res_bind (int_of_float q) (fun target_height =>
         inr (160, target_height))))
       else
         res_bind (int_truediv w h) (fun r =>
         res_bind (int_mul_float 160 r) (fun p =>
         res_bind (int_of_float p) (fun target_width =>
         inr (target_width, 160))))).
Proof.
  intros Hd entered. split; [| split; [| split]].
  - intros Hnone. unfold _update_thumbnail, update_thumbnail_with.
    unfold bind at 1. unfold log at 1. cbv beta iota.
    fold (logged (EnterUpdateThumbnail self) s).
    pose proof (exif_thumbnail_run self (logged (EnterUpdateThumbnail self) s) d Hd)
      as E1.
    rewrite Hnone in E1. rewrite (bind_ok _ _ _ _ _ E1). reflexivity.
  - intros blob cw ch tw th Hblob Hne Hdim Htarget.
    pose proof (update_thumbnail_run self d cw ch Hdim fuel blob s Hd Hblob Hne)
      as Hrun.
    cbv zeta in Hrun. rewrite Htarget in Hrun. fold entered in Hrun.
    split.
    + intros [Hw Hh]. rewrite Hrun.
      assert ((tw >? cw) && (th >? ch) = true) as ->
        by (apply andb_true_iff; split; lia).
      reflexivity.
    + intros Hnot. rewrite Hrun.
      assert ((tw >? cw) && (th >? ch) = false) as ->.
      { apply andb_false_iff.
        destruct (tw >? cw) eqn:E1; [| left; reflexivity].
        destruct (th >? ch) eqn:E2; [| right; reflexivity].
        exfalso. apply Hnot. split; lia. }
      eexists. reflexivity.
  - intros updated s2 du ds t ds'. apply set_exif_thumbnail_run.
  - intros w h. reflexivity.
Qed.

(** Whatever the collaborator: a crop whose rectangle passes the test raises
    the [ValueError] of [downscale] when the cropped image carries a thumbnail
    and its target size exceeds it in exactly one of width and height. *)
Lemma crop_raises_in_thumbnail_step (fuel : nat) (self : handle) (s : state)
    (d blob t : bytes) (cw ch x y w_ h_ nw nh tw th : Z) :
  heap s !! self = Some d ->
  lib_get_dimensions d = inr (cw, ch) ->
  valid_crop cw ch x y w_ h_ = true ->
  lib_transform (OpCrop x y w_ h_) d = inr blob -> blob <> [] ->
  lib_exif_thumbnail blob = inr t -> t <> [] ->
  lib_get_dimensions blob = inr (nw, nh) ->
  target_size nw nh = inr (tw, th) ->
  ~ (tw > nw /\ th > nh) -> tw > nw \/ th > nh ->
  exists s',
    crop (S fuel) self x y w_ h_ s
    = (Raise (ValueError "jpegtran can only downscale JPEGs"), s').
Proof.
  intros Hd Hdim Hvalid Hblob Hne Ht Htne Hndim Htarget Hnot Hone.
  destruct (crop_accepts (S fuel) self s d cw ch x y w_ h_ Hd Hdim Hvalid) as (n & E).
  rewrite E.
  assert (transformed self (OpCrop x y w_ h_) (queried n self s)
          = (Ok (length (heap s)),
             allocated blob (logged (LibTransform self (OpCrop x y w_ h_))
                               (queried n self s)))) as Htr.
  { unfold transformed, bind, data, call, bind, log, lift. simpl.
    rewrite Hd, Hblob. destruct blob; [congruence | reflexivity]. }
  rewrite (bind_ok _ _ _ _ _ Htr).
  match goal with |- context [allocated blob ?s0] => set (s1 := allocated blob s0) end.
  assert (heap s1 !! length (heap s) = Some blob) as Hnew
    by (subst s1; simpl; apply lookup_allocated).
  destruct (update_thumbnail_raises (length (heap s)) blob nw nh Hndim fuel t tw th s1
              Hnew Ht Htne Htarget Hnot Hone) as (s' & Hraise).
  exists s'. rewrite (bind_raise _ _ _ _ _ Hraise). reflexivity.
Qed.

End ThumbnailClaim.

(** ** The reference collaborator satisfies the laws *)

Lemma toy_transform_keeps_orientation op d blob :
  Toy.transform op d = inr blob ->
  Toy.exif_orientation blob = Toy.exif_orientation d.
Proof.
  destruct d as [| w1 [| w0 [| h1 [| h0 [| o t]]]]]; try discriminate.
  unfold Toy.transform.
  repeat match goal with
         | |- context [match ?x with _ => _ end] => destruct x
         end;
    intros [= <-]; reflexivity.
Qed.

Lemma toy_orientation_set_get v d d' :
  0 < v < 9 ->
  Toy.exif_set_orientation v d = inr d' -> Toy.exif_orientation d' = inr v.
Proof.
  intros Hv.
  destruct d as [| w1 [| w0 [| h1 [| h0 [| o t]]]]]; try discriminate.
  unfold Toy.exif_set_orientation.
  destruct (Toy.no_exif o); [discriminate |].
  assert (1 <= v <= 8) as Hr by lia. clear Hv.
  each_orientation v Hr; intros [= <-]; reflexivity.
Qed.

Lemma toy_set_thumbnail_keeps_orientation new d d' :
  Toy.exif_set_thumbnail new d = inr d' ->
  Toy.exif_orientation d' = Toy.exif_orientation d.
Proof.
  destruct d as [| w1 [| w0 [| h1 [| h0 [| o t]]]]]; try discriminate.
  unfold Toy.exif_set_thumbnail.
  destruct (Toy.no_exif o) eqn:E; [discriminate |].
  intros [= <-]. reflexivity.
Qed.

Section Witnesses.
Local Existing Instance Toy.lib.

#[local] Instance toy_laws : LibLaws := {
  transform_keeps_orientation := toy_transform_keeps_orientation;
  orientation_set_get := toy_orientation_set_get;
  set_thumbnail_keeps_orientation := toy_set_thumbnail_keeps_orientation
}.

(** A quarter turn with propagation of a 4x2 image tagged 6 writes
    orientation 1, once, on the image it returns; of an image without a tag,
    on a collaborator that can add one, it writes 8, the table entry at 1. *)
Lemma C2_orientation_propagation_witness :
  let s := Toy.one (Toy.image 4 2 Byte.x06 []) in
  let s' := (perform Rotate90 1 0%nat true s).2 in
  let t := Toy.one (Toy.image 4 2 Byte.xff []) in
  let t' := (perform (H := ToyCreates.lib) Rotate90 1 0%nat true t).2 in
  (exists new, trace s' = new ++ trace s /\ orientation_writes new = [(1%nat, 1)]) /\
  (exists new, trace t' = new ++ trace t /\ orientation_writes new = [(1%nat, 8)]).
Proof.
  intros s s' t t'. split.
  - destruct (C2_orientation_propagation Rotate90 1 0%nat s) as (_ & _ & Hcopy).
    destruct (Hcopy (Toy.image 4 2 Byte.x06 []) 1%nat s' eq_refl)
      as (o & v & new & Hcur & Hv & Htrace & Hwrites).
    + intros blob Hblob. exact (toy_transform_keeps_orientation _ _ _ Hblob).
    + vm_compute. reflexivity.
    + assert (o = 6) as ->.
      { destruct Hcur as [(Ho & _) | (_ & [Ho | Ho])];
          vm_compute in Ho; congruence. }
      assert (v = 1) as -> by (vm_compute in Hv; congruence).
      exists new. split; [exact Htrace | exact Hwrites].
  - destruct (C2_orientation_propagation (H := ToyCreates.lib) Rotate90 1 0%nat t)
      as (_ & Hwith & _).
    destruct (Hwith 1%nat t') as (d & blob & o & v & new & Hd & Hblob & Hcur & Hv & Htrace & Hwrites).
    + vm_compute. reflexivity.
    + vm_compute in Hd. injection Hd as <-.
      vm_compute in Hblob. injection Hblob as <-.
      assert (o = 1) as ->.
      { destruct Hcur as [(Ho & _) | (Ho & _)]; [vm_compute in Ho; congruence | exact Ho]. }
      assert (v = 8) as -> by (vm_compute in Hv; congruence).
      exists new. split; [exact Htrace | exact Hwrites].
Defined.

(** A 160x29 image with a thumbnail: read exactly, [160/(160/29)] is 29 and
    the target would be the size of the image itself; the step asks for a
    160x28 image instead and embeds that.  ([160/29] rounds to
    5.517241379310345, and 160 divided by that to 28.999999999999996.) *)
Lemma C3_counterexample :
  let s := Toy.one (Toy.image 160 29 Byte.x01 Toy.thumb) in
  target_size_exact 160 29 = (160, 29) /\
  target_size 160 29 <> inr (target_size_exact 160 29) /\
  exists s', _update_thumbnail 2 0%nat s = (Ok tt, s') /\
    LibTransform 0%nat (OpScale 160 28 75) ∈ trace s' /\
    heap s' !! 0%nat
    = Some (Toy.image 160 29 Byte.x01 (Toy.image 160 28 Byte.x01 [])).
Proof.
  intros s. split; [vm_compute; reflexivity |].
  split; [vm_compute; discriminate |].
  eexists. split; [vm_compute; reflexivity |].
  split; [| reflexivity].
  simpl. set_solver.
Qed.

(** On a 1600x800 image with a thumbnail the target is 160x80, which does not
    exceed the image, so the step downscales and writes. *)
Lemma C3_thumbnail_step_witness :
  let d := Toy.image 1600 800 Byte.x01 Toy.thumb in
  let s := Toy.one d in
  let entered :=
    logged (LibGetThumbnail 0%nat) (logged (EnterUpdateThumbnail 0%nat) s) in
  exists n,
    _update_thumbnail 2 0%nat s
    = (updated <- downscale 2 0%nat 160 80 75 ;;
       set_exif_thumbnail 0%nat (ArgImage updated))
        (queried n 0%nat (allocated Toy.thumb entered)).
Proof.
  intros d s entered.
  assert (heap s !! 0%nat = Some d) as Hd by reflexivity.
  assert (lib_exif_thumbnail d = inr Toy.thumb) as Ht by (vm_compute; reflexivity).
  assert (Toy.thumb <> []) as Hne by discriminate.
  assert (lib_get_dimensions d = inr (1600, 800)) as Hdim by (vm_compute; reflexivity).
  assert (target_size 1600 800 = inr (160, 80)) as Htarget by (vm_compute; reflexivity).
  destruct (C3_thumbnail_step 2 0%nat s d Hd) as (_ & Hwith & _).
  destruct (Hwith Toy.thumb 1600 800 160 80 Ht Hne Hdim Htarget) as (_ & Hgo).
  apply Hgo. lia.
Defined.

(** A 400x200 image tagged 6: [exif_autotransform] makes a quarter turn and the
    image it returns is tagged 1. *)
Lemma C4_exif_autotransform_witness :
  let d := Toy.image 400 200 Byte.x06 Toy.thumb in
  let s := Toy.one d in
  let s' := (exif_autotransform 2 0%nat s).2 in
  exif_autotransform 2 0%nat s = (Ok (Some 1%nat), s') /\
  exists d', heap s' !! 1%nat = Some d' /\ lib_exif_orientation d' = inr 1.
Proof.
  intros d s s'.
  assert (heap s !! 0%nat = Some d) as Hd by reflexivity.
  assert (lib_exif_orientation d = inr 6) as Ho by (vm_compute; reflexivity).
  assert (exif_autotransform 2 0%nat s = (Ok (Some 1%nat), s')) as Hrun
    by (vm_compute; reflexivity).
  split; [exact Hrun |].
  destruct (C4_exif_autotransform 2 0%nat s d Hd) as (_ & Hsome).
  destruct (Hsome 6 Ho ltac:(lia)) as (_ & Hreturned).
  exact (Hreturned 1%nat s' Hrun).
Defined.

(** Downscaling a 400x200 image to 400x200. *)
Lemma C5_downscale_identity_witness :
  let s := Toy.one (Toy.image 400 200 Byte.x01 Toy.thumb) in
  downscale 1 0%nat 400 200 75 s
  = (Ok 0%nat, State (heap s) [LibDimensions 0%nat; LibDimensions 0%nat]).
Proof.
  intros s.
  apply (C5_downscale_identity 0 0%nat s (Toy.image 400 200 Byte.x01 Toy.thumb)
           400 200 75).
  - reflexivity.
  - vm_compute. reflexivity.
Defined.

(** Downscaling a 400x200 image to 300x201. *)
Lemma C7_upscale_rejected_witness :
  let s := Toy.one (Toy.image 400 200 Byte.x01 Toy.thumb) in
  exists n,
    downscale 1 0%nat 300 201 75 s
    = (Raise (ValueError "jpegtran can only downscale JPEGs"),
       State (heap s) (replicate n (LibDimensions 0%nat) ++ trace s)).
Proof.
  intros s.
  apply (C7_upscale_rejected 0 0%nat s (Toy.image 400 200 Byte.x01 Toy.thumb)
           400 200 300 201 75).
  - reflexivity.
  - vm_compute. reflexivity.
  - right. lia.
Defined.

(** Rotating a 400x200 image by 180 degrees keeps its size; the thumbnail step
    runs on the new image all the same. *)
Lemma C10_thumbnail_step_after_transform_witness :
  let d := Toy.image 400 200 Byte.x01 Toy.thumb in
  let s := Toy.one d in
  let s' := (rotate 2 0%nat 180 false s).2 in
  exists new old, trace s' = new ++ EnterUpdateThumbnail 1%nat :: old ++ trace s.
Proof.
  intros d s s'.
  assert (heap s !! 0%nat = Some d) as Hd by reflexivity.
  assert (run_op 2 0%nat (Generator Rotate180 false) s = (Ok 1%nat, s')) as Hrun
    by (vm_compute; reflexivity).
  exact (proj2 (C10_thumbnail_step_after_transform 2 0%nat
                  (Generator Rotate180 false) s d 1%nat s' Hd Hrun)).
Defined.

(** The setter refuses 9 on any image, and the quarter-turn table holds only
    values of 1..8. *)
Lemma C9_orientation_in_range_witness :
  set_exif_orientation 0%nat 9 (Toy.one Toy.thumb)
  = (Raise (ValueError "Orientation value must be between 1 and 8"), Toy.one Toy.thumb) /\
  1 <= 3 <= 8.
Proof.
  destruct C9_orientation_in_range as (Hreject & _ & Htable & _).
  split.
  - apply Hreject. lia.
  - apply (Htable Rotate90 (dict [(1, 8); (8, 3); (3, 6); (6, 1); (2, 7); (7, 4); (4, 5); (5, 2)]) 8 3).
    + vm_compute. reflexivity.
    + vm_compute. reflexivity.
Defined.

(** C6, at two valid rectangles. A 1600x1200 image with a thumbnail cropped to
    its top left 159x100, and a 159x100 image with a thumbnail cropped to its
    full bounds: each rectangle passes the test of [crop], and each call raises
    the [ValueError] of [downscale], from inside the thumbnail step.  The
    target size there is 160x100; it exceeds the new image in width only, so
    the step does not stop, and [downscale] refuses the width. *)
Theorem C6_valid_crop_raises :
  let photo := Toy.image 1600 1200 Byte.x01 Toy.thumb in
  let strip := Toy.image 159 100 Byte.x01 Toy.thumb in
  (lib_get_dimensions photo = inr (1600, 1200) /\
   valid_crop 1600 1200 0 0 159 100 = true /\
   exists s',
     crop 2 0%nat 0 0 159 100 (Toy.one photo)
     = (Raise (ValueError "jpegtran can only downscale JPEGs"), s')) /\
  (lib_get_dimensions strip = inr (159, 100) /\
   valid_crop 159 100 0 0 159 100 = true /\
   exists s',
     crop 2 0%nat 0 0 159 100 (Toy.one strip)
     = (Raise (ValueError "jpegtran can only downscale JPEGs"), s')) /\
  target_size 159 100 = inr (160, 100).
Proof.
  intros photo strip.
  repeat split; try (vm_compute; reflexivity);
    eexists; vm_compute; reflexivity.
Qed.

End Witnesses.

(** * Further properties *)

(** ** The name check of [save] *)

Lemma many_then_split (c : char_class) (rest : list ascii -> bool) (s : list ascii) :
  many_then c rest s = true <->
  exists s1 s2, s = s1 ++ s2 /\ forallb (in_class c) s1 = true /\ rest s2 = true.
Proof.
  induction s as [| a s IH]; simpl.
  - rewrite orb_false_r. split.
    + intros Hr. exists [], []. repeat split; assumption.
    + intros (s1 & s2 & E & _ & Hr).
      symmetry in E. apply app_eq_nil in E as [-> ->]. exact Hr.
  - rewrite orb_true_iff, andb_true_iff, IH. split.
    + intros [Hr | [Ha (s1 & s2 & -> & H1 & Hr)]].
      * exists [], (a :: s). repeat split; assumption.
      * exists (a :: s1), s2. repeat split; [| exact Hr].
        simpl. rewrite Ha, H1. reflexivity.
    + intros (s1 & s2 & E & H1 & Hr). destruct s1 as [| b s1]; simpl in E.
      * left. subst s2. exact Hr.
      * injection E as -> ->. simpl in H1. apply andb_true_iff in H1 as [Ha H1].
        right. split; [exact Ha |]. exists s1, s2. repeat split; assumption.
Qed.

Lemma forallb_dot (s : list ascii) :
  forallb (in_class Dot) s = true <-> newline ∉ s.
Proof.
  induction s as [| a s IH]; simpl.
  - split; [intros _ Hin; inversion Hin | reflexivity].
  - rewrite andb_true_iff, IH, negb_true_iff, not_elem_of_cons.
    split; intros [Ha Hs]; split; try assumption.
    + intros <-. rewrite Ascii.eqb_refl in Ha. discriminate.
    + apply Ascii.eqb_neq. congruence.
Qed.

Lemma forallb_single (c : ascii) (s : list ascii) :
  forallb (in_class (Chars [c])) s = true <-> s = replicate (length s) c.
Proof.
  induction s as [| a s IH]; simpl.
  - split; reflexivity.
  - rewrite andb_true_iff, IH, orb_false_r. split.
    + intros [Ha Hs]. apply Ascii.eqb_eq in Ha. subst a. f_equal. exact Hs.
    + intros [= -> Hs]. split; [apply Ascii.eqb_refl | exact Hs].
Qed.

Lemma in_single (c a : ascii) : in_class (Chars [c]) a = true <-> a = c.
Proof. simpl. rewrite orb_false_r. apply Ascii.eqb_eq. Qed.

(** The names [r'^.*\.jp[e]*g$'] matches: anything without a newline, then
    [.jp], any number of [e], [g], and at most one newline after that. *)
Lemma jpeg_pattern_matches (s : list ascii) :
  re_match jpeg_pattern s = true <-> jpeg_name s.
Proof.
  unfold jpeg_pattern, jpeg_name, jpeg_ending. cbn [re_match].
  rewrite many_then_split. split.
  - intros (pre & s2 & -> & Hpre & Hrest).
    destruct s2 as [| a1 [| a2 [| a3 s3]]];
      try (simpl in Hrest; repeat rewrite ?andb_false_r in Hrest; discriminate).
    apply andb_true_iff in Hrest as [H1 Hrest]. apply in_single in H1 as ->.
    apply andb_true_iff in Hrest as [H2 Hrest]. apply in_single in H2 as ->.
    apply andb_true_iff in Hrest as [H3 Hrest]. apply in_single in H3 as ->.
    apply many_then_split in Hrest as (es & s4 & -> & Hes & Hrest).
    apply forallb_single in Hes.
    destruct s4 as [| g tail]; [discriminate |].
    apply andb_true_iff in Hrest as [Hg Hrest]. apply in_single in Hg as ->.
    exists pre, (length es), tail. split; [rewrite Hes at 1; reflexivity |].
    split; [apply forallb_dot, Hpre |].
    destruct tail as [| a [| b tail]]; try discriminate; [left; reflexivity |].
    right. apply andb_true_iff in Hrest as [Ha _].
    apply Ascii.eqb_eq in Ha. subst a. reflexivity.
  - intros (pre & n & tail & -> & Hpre & Htail).
    exists pre. eexists. split; [reflexivity |].
    split; [apply forallb_dot, Hpre |].
    rewrite !(proj2 (in_single _ _) eq_refl). cbn [andb].
    apply many_then_split. exists (replicate n "e"%char), ("g"%char :: tail).
    split; [reflexivity |]. split.
    + apply forallb_single. rewrite length_replicate. reflexivity.
    + rewrite (proj2 (in_single _ _) eq_refl). cbn [andb].
      destruct Htail as [-> | ->]; reflexivity.
Qed.

Section Saving.
Context `{FileSystem}.

(** [save] writes the bytes of the image under the name it is given exactly
    when the lower-cased name is: characters other than a newline, then
    [.jp], any number of [e], [g], and at most one newline; for every other
    name it raises [ValueError] and leaves the files as they are.  So
    [.JPG] and [.jpeg] pass, and so do [.jpeeg] and a name with a newline
    after [.jpg]. *)
Theorem save_checks_the_name (self : handle) (fname : string) (f : files)
    (s : state) (d : bytes) :
  heap s !! self = Some d ->
  (jpeg_name (lower fname) ->
   save self fname f s
   = (match (fs_write fname d f).1 with
      | Some e => IoRaise e
      | None => IoOk tt
      end, (fs_write fname d f).2)) /\
  (~ jpeg_name (lower fname) ->
   save self fname f s
   = (IoRaise (PyExn (ValueError
        "fname must refer to a JPEG file, i.e. end with '.jpg' or '.jpeg'")), f)).
Proof.
  intros Hd. unfold save. split; intros Hname.
  - apply jpeg_pattern_matches in Hname. rewrite Hname, Hd. cbn [negb].
    destruct (fs_write fname d f) as [[e |] f']; reflexivity.
  - destruct (re_match jpeg_pattern (lower fname)) eqn:E; [| reflexivity].
    exfalso. apply Hname, jpeg_pattern_matches, E.
Qed.

End Saving.

(** ** What a call leaves untouched *)

Lemma untouched_refl n s : (n <= length (heap s))%nat -> untouched n s s.
Proof. intros Hn. split; [exact Hn | reflexivity]. Qed.

Lemma untouched_trans n s1 s2 s3 :
  untouched n s1 s2 -> untouched n s2 s3 -> untouched n s1 s3.
Proof. intros [_ E1] [L2 E2]. split; [exact L2 | congruence]. Qed.

Lemma leaves_ret {A} n (a : A) (Q : A -> Prop) : Q a -> leaves n (ret a) Q.
Proof.
  intros HQ s Hn. split; [apply untouched_refl, Hn |].
  intros a' [= <-]. exact HQ.
Qed.

Lemma leaves_raise {A} n (e : exn) (Q : A -> Prop) : leaves n (raise e) Q.
Proof. intros s Hn. split; [apply untouched_refl, Hn | discriminate]. Qed.

Lemma leaves_out_of_fuel {A} n (Q : A -> Prop) : leaves n out_of_fuel Q.
Proof. intros s Hn. split; [apply untouched_refl, Hn | discriminate]. Qed.

Lemma leaves_bind {A B} n (c : M A) (k : A -> M B) (P : A -> Prop) (Q : B -> Prop) :
  leaves n c P -> (forall a, P a -> leaves n (k a) Q) -> leaves n (bind c k) Q.
Proof.
  intros Hc Hk s Hn. destruct (Hc s Hn) as [[L1 E1] HP]. unfold bind.
  destruct (c s) as [[a | e | |] s1]; simpl in *;
    try (split; [split; assumption | discriminate]).
  destruct (Hk a (HP a eq_refl) s1 L1) as [Hu HQ].
  split; [| exact HQ].
  apply (untouched_trans n s s1); [split; assumption | exact Hu].
Qed.

Lemma leaves_weaken {A} n (c : M A) (P Q : A -> Prop) :
  leaves n c P -> (forall a, P a -> Q a) -> leaves n c Q.
Proof.
  intros Hc HPQ s Hn. destruct (Hc s Hn) as [Hu HP].
  split; [exact Hu | intros a Ha; apply HPQ, HP, Ha].
Qed.

Lemma leaves_then {A B} n (c : M A) (k : A -> M B) (Q : B -> Prop) :
  leaves n c (fun _ => True) -> (forall a, leaves n (k a) Q) ->
  leaves n (bind c k) Q.
Proof. intros Hc Hk. apply (leaves_bind n c k (fun _ => True)); auto. Qed.

Lemma leaves_log n ev : leaves n (log ev) (fun _ => True).
Proof. intros s Hn. split; [split; [exact Hn | reflexivity] | trivial]. Qed.

Lemma leaves_lift {A} n (r : res A) : leaves n (lift r) (fun _ => True).
Proof. destruct r; [apply leaves_raise | apply leaves_ret; exact I]. Qed.

Lemma leaves_call {A} n ev (r : res A) : leaves n (call ev r) (fun _ => True).
Proof. apply leaves_then; [apply leaves_log | intros; apply leaves_lift]. Qed.

Lemma leaves_data n self : leaves n (data self) (fun _ => True).
Proof.
  intros s Hn. unfold data.
  destruct (heap s !! self); (split; [apply untouched_refl, Hn | trivial]).
Qed.

Lemma leaves_subscript {V} n (o : option V) : leaves n (subscript o) (fun _ => True).
Proof. destruct o; [apply leaves_ret; exact I | apply leaves_raise]. Qed.

Lemma leaves_store n self d :
  (n <= self)%nat -> leaves n (store self d) (fun _ => True).
Proof.
  intros Hself s Hn. split; [| trivial]. split; simpl.
  - rewrite length_insert. exact Hn.
  - apply take_insert_ge, Hself.
Qed.

Lemma leaves_except {A} n (c : M A) :
  leaves n c (fun _ => True) ->
  leaves n (except_ExifException c) (fun _ => True).
Proof.
  intros Hc s Hn. destruct (Hc s Hn) as [Hu _]. split; [| trivial].
  unfold except_ExifException. destruct (c s) as [[a | [] | |] s1]; exact Hu.
Qed.

Lemma leaves_and_then n (c1 c2 : M bool) :
  leaves n c1 (fun _ => True) -> leaves n c2 (fun _ => True) ->
  leaves n (and_then c1 c2) (fun _ => True).
Proof.
  intros H1 H2. apply leaves_then; [exact H1 |].
  intros []; [exact H2 | apply leaves_ret; exact I].
Qed.

Lemma leaves_or_else n (c1 c2 : M bool) :
  leaves n c1 (fun _ => True) -> leaves n c2 (fun _ => True) ->
  leaves n (or_else c1 c2) (fun _ => True).
Proof.
  intros H1 H2. apply leaves_then; [exact H1 |].
  intros []; [apply leaves_ret; exact I | exact H2].
Qed.

Section Leaves.
Context `{Lib}.
Variable n : nat.

Lemma leaves_JPEGImage blob : leaves n (JPEGImage blob) (fun h => (n <= h)%nat).
Proof.
  destruct blob as [| b blob]; [apply leaves_raise |].
  intros s Hn. simpl. split.
  - split; simpl; [rewrite length_app; lia | apply take_app_le, Hn].
  - intros a [= <-]. exact Hn.
Qed.

Lemma leaves_get_dimensions self : leaves n (get_dimensions self) (fun _ => True).
Proof. apply leaves_then; [apply leaves_data | intros; apply leaves_call]. Qed.

Lemma leaves_size_test self (test : Z -> bool) :
  leaves n (w <- width self ;; ret (test w)) (fun _ => True) /\
  leaves n (h <- height self ;; ret (test h)) (fun _ => True).
Proof.
  split; (apply leaves_then; [| intros; apply leaves_ret; exact I]);
    (apply leaves_then; [apply leaves_get_dimensions | intros; apply leaves_ret; exact I]).
Qed.

Lemma leaves_width self : leaves n (width self) (fun _ => True).
Proof.
  apply leaves_then; [apply leaves_get_dimensions | intros; apply leaves_ret; exact I].
Qed.

Lemma leaves_height self : leaves n (height self) (fun _ => True).
Proof.
  apply leaves_then; [apply leaves_get_dimensions | intros; apply leaves_ret; exact I].
Qed.

Lemma leaves_exif_thumbnail self : leaves n (exif_thumbnail self) (fun _ => True).
Proof.
  apply leaves_except, leaves_then; [apply leaves_data | intros d].
  apply leaves_then; [apply leaves_call | intros blob].
  eapply leaves_weaken; [apply leaves_JPEGImage | trivial].
Qed.

Lemma leaves_exif_orientation self : leaves n (exif_orientation self) (fun _ => True).
Proof.
  apply leaves_except, leaves_then; [apply leaves_data | intros d; apply leaves_call].
Qed.

Lemma leaves_transformed self op :
  leaves n (transformed self op) (fun h => (n <= h)%nat).
Proof.
  eapply leaves_bind; [apply leaves_data | intros d _].
  eapply leaves_bind; [apply leaves_call | intros blob _].
  apply leaves_JPEGImage.
Qed.

(** The two setters write to [self] only. *)
Lemma leaves_set_exif_orientation self v :
  (n <= self)%nat -> leaves n (set_exif_orientation self v) (fun _ => True).
Proof.
  intros Hself. unfold set_exif_orientation.
  destruct (negb _); [apply leaves_raise |].
  apply leaves_then; [apply leaves_data | intros d].
  apply leaves_then; [apply leaves_call | intros d'].
  apply leaves_store, Hself.
Qed.

Lemma leaves_set_exif_thumbnail self image :
  (n <= self)%nat -> leaves n (set_exif_thumbnail self image) (fun _ => True).
Proof.
  intros Hself. unfold set_exif_thumbnail.
  apply leaves_then.
  { destruct image; [| apply leaves_ret; exact I].
    apply leaves_then; [apply leaves_data | intros; apply leaves_ret; exact I]. }
  intros _. apply leaves_then; [apply leaves_exif_thumbnail | intros [t |]];
    [| apply leaves_raise].
  apply leaves_then; [apply leaves_data | intros d].
  apply leaves_then;
    [destruct image; [apply leaves_data | apply leaves_ret; exact I] | intros new].
  apply leaves_then; [apply leaves_call | intros d'].
  apply leaves_store, Hself.
Qed.

Lemma leaves_update_thumbnail_with downscale_ self :
  (n <= self)%nat ->
  (forall h w_ h_ q, leaves n (downscale_ h w_ h_ q) (fun _ => True)) ->
  leaves n (update_thumbnail_with downscale_ self) (fun _ => True).
Proof.
  intros Hself Hrec. unfold update_thumbnail_with.
  apply leaves_then; [apply leaves_log | intros _].
  apply leaves_then; [apply leaves_exif_thumbnail | intros [t |]];
    [| apply leaves_ret; exact I].
  apply leaves_then; [apply leaves_width | intros w].
  apply leaves_then; [apply leaves_height | intros h].
  apply leaves_then.
  { destruct (w >? h);
      (apply leaves_then; [apply leaves_width | intros w']);
      (apply leaves_then; [apply leaves_height | intros h']);
      (apply leaves_then; [apply leaves_lift | intros r]);
      (apply leaves_then; [apply leaves_lift | intros q]);
      (apply leaves_then; [apply leaves_lift | intros t']);
      apply leaves_ret; exact I. }
  intros target. cbv zeta.
  apply leaves_then.
  { apply leaves_and_then; apply leaves_size_test. }
  intros []; [apply leaves_ret; exact I |].
  apply leaves_then; [apply Hrec | intros updated].
  apply leaves_set_exif_thumbnail, Hself.
Qed.

Lemma leaves_downscale fuel :
  forall self w_ h_ q, leaves n (downscale fuel self w_ h_ q) (fun _ => True).
Proof.
  induction fuel as [| fuel IH]; intros self w_ h_ q; simpl.
  - apply leaves_out_of_fuel.
  - apply leaves_then; [apply leaves_and_then; apply leaves_size_test |].
    intros []; [apply leaves_ret; exact I |].
    apply leaves_then; [apply leaves_or_else; apply leaves_size_test |].
    intros []; [apply leaves_raise |].
    eapply leaves_bind; [apply leaves_transformed | intros new Hnew].
    apply leaves_then;
      [apply leaves_update_thumbnail_with; [exact Hnew | exact IH]
      | intros; apply leaves_ret; exact I].
Qed.

Lemma leaves_update_thumbnail fuel self :
  (n <= self)%nat -> leaves n (_update_thumbnail fuel self) (fun _ => True).
Proof.
  intros Hself. apply leaves_update_thumbnail_with; [exact Hself |].
  apply leaves_downscale.
Qed.

Lemma leaves_transform_then (c : M handle) (update : handle -> M unit) fuel :
  leaves n c (fun h => (n <= h)%nat) ->
  (forall h, (n <= h)%nat -> leaves n (update h) (fun _ => True)) ->
  leaves n (a <- c ;; update a ;;; _update_thumbnail fuel a ;;; ret a)
    (fun _ => True).
Proof.
  intros Hc Hu. eapply leaves_bind; [exact Hc | intros a Ha].
  apply leaves_then; [apply Hu, Ha | intros _].
  apply leaves_then;
    [apply leaves_update_thumbnail, Ha | intros; apply leaves_ret; exact I].
Qed.

Lemma leaves_propagate (table : gmap Z Z) img :
  (n <= img)%nat -> leaves n (propagate table img) (fun _ => True).
Proof.
  intros Himg. unfold propagate.
  apply leaves_then; [apply leaves_exif_orientation | intros current].
  apply leaves_then; [apply leaves_subscript | intros value].
  apply leaves_set_exif_orientation, Himg.
Qed.

Lemma leaves_perform g fuel self with_exif :
  leaves n (perform g fuel self with_exif) (fun _ => True).
Proof.
  rewrite perform_unfold.
  apply (leaves_transform_then _
           (fun img => if with_exif
                       then table <- subscript (table_of g) ;; propagate table img
                       else ret tt)).
  - apply leaves_transformed.
  - intros img Himg. destruct with_exif; [| apply leaves_ret; exact I].
    apply leaves_then; [apply leaves_subscript | intros table].
    apply leaves_propagate, Himg.
Qed.

Lemma leaves_crop fuel self x y w_ h_ :
  leaves n (crop fuel self x y w_ h_) (fun _ => True).
Proof.
  unfold crop. apply leaves_then.
  { repeat apply leaves_and_then; apply leaves_size_test. }
  intros []; simpl; [| apply leaves_raise].
  eapply leaves_bind; [apply leaves_transformed | intros new Hnew].
  apply leaves_then;
    [apply leaves_update_thumbnail, Hnew | intros; apply leaves_ret; exact I].
Qed.

Lemma leaves_run_op fuel self op : leaves n (run_op fuel self op) (fun _ => True).
Proof.
  destruct op; simpl;
    [apply leaves_perform | apply leaves_crop | apply leaves_downscale].
Qed.

End Leaves.

Section Untouched.
Context `{Lib}.

Lemma leaves_exif_autotransform n fuel self :
  leaves n (exif_autotransform fuel self) (fun _ => True).
Proof.
  unfold exif_autotransform.
  apply leaves_then; [apply leaves_exif_orientation | intros orient].
  destruct orient as [o |]; [| apply leaves_raise].
  repeat match goal with
         | |- leaves _ (match ?x with _ => _ end) _ => destruct x
         end;
    try (apply leaves_ret; exact I);
    (apply leaves_then; [| intros; apply leaves_ret; exact I]);
    lazymatch goal with
    | |- leaves _ (rotate _ _ 90 _) _ => exact (leaves_perform n Rotate90 fuel self true)
    | |- leaves _ (rotate _ _ 180 _) _ => exact (leaves_perform n Rotate180 fuel self true)
    | |- leaves _ (rotate _ _ 270 _) _ => exact (leaves_perform n Rotate270 fuel self true)
    | |- leaves _ (flip _ _ "horizontal" _) _ => exact (leaves_perform n FlipH fuel self true)
    | |- leaves _ (flip _ _ "vertical" _) _ => exact (leaves_perform n FlipV fuel self true)
    | |- leaves _ (transpose _ _ _) _ => exact (leaves_perform n Transpose fuel self true)
    | |- leaves _ (transverse _ _ _) _ => exact (leaves_perform n Transverse fuel self true)
    end.
Qed.

Lemma untouched_all_prefix s s' :
  untouched (length (heap s)) s s' -> heap s `prefix_of` heap s'.
Proof.
  intros [_ E]. rewrite firstn_all in E.
  exists (drop (length (heap s)) (heap s')).
  rewrite <- E at 1. symmetry. apply take_drop.
Qed.

(** No transform changes an image that exists when it is called, the image
    it is called on included, whether it returns, raises or runs out of fuel:
    rotate, flip, transpose, transverse, crop, downscale and
    [exif_autotransform] only add objects to the store, and every write they
    make goes to an object they created. *)
Theorem transforms_leave_existing_images (fuel : nat) (self : handle) (s : state) :
  (forall op, heap s `prefix_of` heap (run_op fuel self op s).2) /\
  heap s `prefix_of` heap (exif_autotransform fuel self s).2.
Proof.
  split; [intros op |]; apply untouched_all_prefix.
  - apply (leaves_run_op (length (heap s)) fuel self op s). lia.
  - apply (leaves_exif_autotransform (length (heap s)) fuel self s). lia.
Qed.

Lemma bind_inv {A B} (c : M A) (k : A -> M B) s r s' :
  bind c k s = (r, s') ->
  (exists a s1, c s = (Ok a, s1) /\ k a s1 = (r, s')) \/
  ((forall b, r <> Ok b) /\ exists r0, c s = (r0, s') /\ forall a, r0 <> Ok a).
Proof.
  unfold bind. destruct (c s) as [[a | e | |] s1] eqn:E.
  - intros Hk. left. exists a, s1. split; [reflexivity | exact Hk].
  - intros [= <- <-]. right. split; [discriminate |].
    eexists. split; [reflexivity | discriminate].
  - intros [= <- <-]. right. split; [discriminate |].
    eexists. split; [reflexivity | discriminate].
  - intros [= <- <-]. right. split; [discriminate |].
    eexists. split; [reflexivity | discriminate].
Qed.

Lemma data_inv (h : handle) s r s' : data h s = (r, s') -> s' = s.
Proof. unfold data. destruct (heap s !! h); intros [= _ <-]; reflexivity. Qed.

Lemma call_inv {A} ev (x : res A) s r s' :
  call ev x s = (r, s') -> s' = logged ev s.
Proof.
  unfold call, bind, log, lift. destruct x; intros [= _ <-]; reflexivity.
Qed.

(** The getter of the thumbnail adds at most one object, the thumbnail it
    returns, and changes none. *)
Lemma exif_thumbnail_heap self s r s' :
  exif_thumbnail self s = (r, s') ->
  (exists t b, r = Ok (Some t) /\ heap s' = heap s ++ [b]) \/
  ((forall t, r <> Ok (Some t)) /\ heap s' = heap s).
Proof.
  unfold exif_thumbnail, except_ExifException, bind.
  destruct (data self s) as [r0 s0] eqn:E0. apply data_inv in E0 as Hs0. subst s0.
  destruct r0 as [d | e | |]; cycle 1.
  - destruct e; intros [= <- <-]; right; split;
      first [discriminate | reflexivity].
  - intros [= <- <-]. right. split; [discriminate | reflexivity].
  - intros [= <- <-]. right. split; [discriminate | reflexivity].
  - destruct (call (LibGetThumbnail self) (lib_exif_thumbnail d) s) as [r1 s1] eqn:E1.
    apply call_inv in E1 as Hs1. subst s1.
    destruct r1 as [blob | e | |]; cycle 1.
    + destruct e; intros [= <- <-]; right; split;
        first [discriminate | reflexivity].
    + intros [= <- <-]. right. split; [discriminate | reflexivity].
    + intros [= <- <-]. right. split; [discriminate | reflexivity].
    + destruct blob as [| b blob]; simpl.
      * intros [= <- <-]. right. split; [discriminate | reflexivity].
      * intros [= <- <-]. left. eexists _, (b :: blob). split; reflexivity.
Qed.

(** What the thumbnail setter does to the store: unless it returns, it
    changes no buffer; when it returns, it has changed that of [self]. *)
Lemma set_exif_thumbnail_heap self image s r s' :
  set_exif_thumbnail self image s = (r, s') ->
  (r <> Ok tt /\ exists k, heap s' = heap s ++ k) \/
  (r = Ok tt /\ exists t d', heap s' = <[self := d']> (heap s ++ [t])).
Proof.
  assert (forall st, heap st = heap s -> exists k, heap st = heap s ++ k) as Hsame
    by (intros st ->; exists []; symmetry; apply app_nil_r).
  unfold set_exif_thumbnail. intros Hrun.
  apply bind_inv in Hrun as [(u & s0 & E0 & Hrun) | (Hr & r0 & E0 & _)].
  2:{ left. split; [apply Hr |]. apply Hsame.
      destruct image as [i |]; [| injection E0 as _ <-; reflexivity].
      apply bind_inv in E0 as [(a & s1 & Ea & Eb) | (_ & r1 & Ea & _)].
      - apply data_inv in Ea. subst s1. injection Eb as _ <-. reflexivity.
      - apply data_inv in Ea. subst s'. reflexivity. }
  assert (s0 = s) as ->.
  { destruct image as [i |]; [| injection E0 as _ <-; reflexivity].
    apply bind_inv in E0 as [(a & s1 & Ea & Eb) | (_ & r1 & Ea & _)].
    - apply data_inv in Ea. subst s1. injection Eb as _ <-. reflexivity.
    - apply data_inv in Ea. exact Ea. }
  apply bind_inv in Hrun as [(old & s1 & E1 & Hrun) | (Hr & r1 & E1 & Hr1)].
  2:{ left. split; [apply Hr |].
      apply exif_thumbnail_heap in E1 as [(t & b & -> & Hh) | (_ & Hh)].
      - exfalso. apply (Hr1 (Some t)). reflexivity.
      - apply Hsame, Hh. }
  apply exif_thumbnail_heap in E1 as [(t & b & [= ->] & Hh) | (Hnone & Hh)].
  2:{ destruct old as [t |]; [exfalso; apply (Hnone t); reflexivity |].
      injection Hrun as <- <-. left. split; [discriminate | apply Hsame, Hh]. }
  assert (forall st, heap st = heap s1 -> exists k, heap st = heap s ++ k) as Hs1
    by (intros st ->; exists [b]; exact Hh).
  apply bind_inv in Hrun as [(d & s2 & E2 & Hrun) | (Hr & r2 & E2 & _)].
  2:{ apply data_inv in E2. subst s'. left. split; [apply Hr | apply Hs1; reflexivity]. }
  apply data_inv in E2. subst s2.
  apply bind_inv in Hrun as [(new & s3 & E3 & Hrun) | (Hr & r3 & E3 & _)].
  2:{ left. split; [apply Hr |]. apply Hs1.
      destruct image as [i |]; [apply data_inv in E3 | injection E3 as _ <-];
        subst; reflexivity. }
  assert (s3 = s1) as ->.
  { destruct image as [i |]; [apply data_inv in E3 | injection E3 as _ <-];
      subst; reflexivity. }
  apply bind_inv in Hrun as [(d' & s4 & E4 & Hrun) | (Hr & r4 & E4 & _)].
  2:{ apply call_inv in E4. subst s'. left. split; [apply Hr | apply Hs1; reflexivity]. }
  apply call_inv in E4. subst s4. injection Hrun as <- <-.
  right. split; [reflexivity |]. exists b, d'. simpl. rewrite Hh. reflexivity.
Qed.

(** The two setters change the image they are called on and no other: every
    other image of the store keeps its bytes, and after a setter that did not
    return, so does the image itself. *)
Theorem setters_write_self_only (self : handle) (s : state) (h : handle)
    (d : bytes) :
  heap s !! h = Some d ->
  (forall value r s',
     set_exif_orientation self value s = (r, s') ->
     h <> self \/ r <> Ok tt -> heap s' !! h = Some d) /\
  (forall image r s',
     set_exif_thumbnail self image s = (r, s') ->
     h <> self \/ r <> Ok tt -> heap s' !! h = Some d).
Proof.
  intros Hd. split.
  - intros value r s'. unfold set_exif_orientation.
    destruct (negb _); [intros [= <- <-] _; exact Hd |].
    intros Hrun Hor.
    apply bind_inv in Hrun as [(d0 & s1 & E1 & Hrun) | (_ & r1 & E1 & _)];
      [| apply data_inv in E1; subst s'; exact Hd].
    apply data_inv in E1. subst s1.
    apply bind_inv in Hrun as [(d' & s2 & E2 & Hrun) | (_ & r2 & E2 & _)];
      [| apply call_inv in E2; subst s'; exact Hd].
    apply call_inv in E2. subst s2. injection Hrun as <- <-.
    destruct Hor as [Hne | Hr]; [| congruence].
    simpl. rewrite list_lookup_insert_ne by congruence. exact Hd.
  - intros image r s' Hrun Hor.
    destruct (set_exif_thumbnail_heap self image s r s' Hrun)
      as [[Hr (k & ->)] | [Hr (t & d' & ->)]].
    + apply lookup_app_l_Some, Hd.
    + destruct Hor as [Hne | Hr']; [| congruence].
      rewrite list_lookup_insert_ne by congruence.
      apply lookup_app_l_Some, Hd.
Qed.

End Untouched.

(** ** The two properties, written and read back *)

Section RoundTrips.
Context `{LibLaws}.

(** An orientation that the setter accepted and the collaborator stored is
    the orientation the getter returns next. *)
Theorem orientation_set_then_get (self : handle) (value : Z) (s s' : state) :
  set_exif_orientation self value s = (Ok tt, s') ->
  exif_orientation self s' = (Ok (Some value), logged (LibGetOrientation self) s').
Proof.
  intros Hrun.
  destruct (heap s !! self) as [d |] eqn:Hd.
  2:{ unfold set_exif_orientation, bind, data in Hrun.
      destruct (negb _); [discriminate |]. rewrite Hd in Hrun. discriminate. }
  destruct (set_exif_orientation_ok_inv self value s s' d Hd Hrun)
    as (d1 & Hrange & Hset & ->).
  assert (heap (stored self d1 (logged (LibSetOrientation self value) s)) !! self
          = Some d1) as Hd1.
  { simpl. apply list_lookup_insert_eq. apply lookup_lt_Some in Hd. exact Hd. }
  rewrite (exif_orientation_run self _ d1 Hd1).
  rewrite (orientation_set_get value d d1 Hrange Hset). reflexivity.
Qed.

(** Transforms with [with_exif] set, one after the other: the tag of the last
    image is the tag of the first sent through the tables of the operations,
    in order. *)
Theorem perform_all_composes_tables (gs : list generator) (fuel : nat) :
  forall (self : handle) (s : state) (d : bytes) (o : Z) (img : handle) (s' : state),
    heap s !! self = Some d ->
    lib_exif_orientation d = inr o -> 1 <= o <= 8 ->
    perform_all gs fuel self s = (Ok img, s') ->
    exists v d', apply_all o gs = Some v /\
      heap s' !! img = Some d' /\ lib_exif_orientation d' = inr v.
Proof.
  induction gs as [| g gs IH]; intros self s d o img s' Hd Ho Hrange Hrun.
  - injection Hrun as <- <-. exists o, d. repeat split; assumption.
  - cbn [perform_all] in Hrun.
    apply bind_ok_inv in Hrun as (mid & s1 & Hfirst & Hrest).
    destruct (perform_true_orientation g fuel self s d o mid s1 Hd Ho Hrange Hfirst)
      as (v & d1 & Hv & Hd1 & Hread).
    assert (1 <= v <= 8) as Hvr.
    { unfold apply in Hv. destruct (table_of g) as [m |] eqn:Hm; [| discriminate].
      apply (table_entries_in_range g m o v Hm Hv). }
    destruct (IH mid s1 d1 v img s' Hd1 Hread Hvr Hrest) as (v' & d' & Hv' & Hd' & Hread').
    exists v', d'. repeat split; try assumption.
    unfold apply_all in *. cbn [foldl]. cbn [mbind option_bind].
    rewrite Hv. exact Hv'.
Qed.

(** [exif_autotransform] on the image that [exif_autotransform] returned
    gives that image back and transforms nothing. *)
Theorem exif_autotransform_twice (fuel : nat) (self : handle) (s : state)
    (d : bytes) (o : Z) (img : handle) (s' : state) :
  heap s !! self = Some d ->
  lib_exif_orientation d = inr o -> 1 <= o <= 8 ->
  exif_autotransform fuel self s = (Ok (Some img), s') ->
  exif_autotransform fuel img s'
  = (Ok (Some img), logged (LibGetOrientation img) s').
Proof.
  intros Hd Ho Hrange Hrun.
  assert (exists d', heap s' !! img = Some d' /\ lib_exif_orientation d' = inr 1)
    as (d' & Hd' & Hone).
  { unfold exif_autotransform in Hrun.
    pose proof (exif_orientation_run self s d Hd) as Hget. rewrite Ho in Hget.
    rewrite (bind_ok _ _ _ _ _ Hget) in Hrun.
    assert (heap (logged (LibGetOrientation self) s) !! self = Some d) as Hd1
      by exact Hd.
    assert (forall g,
              corrective o = Some g ->
              (new <- perform g fuel self true ;; ret (Some new))
                (logged (LibGetOrientation self) s) = (Ok (Some img), s') ->
              exists d', heap s' !! img = Some d' /\ lib_exif_orientation d' = inr 1)
      as Hcase.
    { intros g Hg Hperf.
      apply bind_ok_inv in Hperf as (new & s2 & Hperf & Hret).
      injection Hret as -> ->.
      destruct (perform_true_orientation g fuel self _ d o img s' Hd1 Ho Hrange Hperf)
        as (v & d' & Hv & Hd' & Hread).
      exists d'. split; [exact Hd' |].
      rewrite (corrective_gives_1 o g v Hrange Hg Hv) in Hread. exact Hread. }
    clear Hget. each_orientation o Hrange;
      first [ injection Hrun as <- <-; exists d; split; assumption
            | eapply Hcase; [reflexivity | exact Hrun] ]. }
  unfold exif_autotransform.
  pose proof (exif_orientation_run img s' d' Hd') as Hget. rewrite Hone in Hget.
  rewrite (bind_ok _ _ _ _ _ Hget). reflexivity.
Qed.

End RoundTrips.

(** ** The thumbnail setter *)

Section ThumbnailSetter.
Context `{Lib}.

(** On an image without a thumbnail the setter raises [ValueError]: the
    collaborator is asked for the thumbnail and nothing else, no object is
    created and no buffer changes. *)
Theorem thumbnail_setter_needs_a_thumbnail (self : handle) (image : thumbnail_arg)
    (s : state) (d : bytes) :
  heap s !! self = Some d ->
  lib_exif_thumbnail d = inl ExifException ->
  match image with ArgImage i => is_Some (heap s !! i) | ArgBytes _ => True end ->
  set_exif_thumbnail self image s
  = (Raise (ValueError "No pre-existing thumbnail found, cannot set."),
     logged (LibGetThumbnail self) s).
Proof.
  intros Hd Hnone Himage. unfold set_exif_thumbnail.
  assert ((match image with
           | ArgImage i => data i ;;; ret tt
           | ArgBytes _ => ret tt
           end) s = (Ok tt, s)) as E0.
  { destruct image as [i | b]; [| reflexivity].
    destruct Himage as (di & Hi). unfold bind, data. rewrite Hi. reflexivity. }
  rewrite (bind_ok _ _ _ _ _ E0).
  pose proof (exif_thumbnail_run self s d Hd) as E1. rewrite Hnone in E1.
  rewrite (bind_ok _ _ _ _ _ E1). reflexivity.
Qed.

(** Bytes given to the thumbnail setter are the bytes of the thumbnail the
    getter returns next, for a collaborator that reads back the thumbnail it
    stored. *)
Theorem thumbnail_set_then_get (self : handle) (b : bytes) (s s' : state) :
  (forall new d d', new <> [] ->
     lib_exif_set_thumbnail new d = inr d' -> lib_exif_thumbnail d' = inr new) ->
  b <> [] ->
  set_exif_thumbnail self (ArgBytes b) s = (Ok tt, s') ->
  exists t s'',
    exif_thumbnail self s' = (Ok (Some t), s'') /\ heap s'' !! t = Some b.
Proof.
  intros Hlaw Hb Hrun. unfold set_exif_thumbnail in Hrun.
  apply bind_ok_inv in Hrun as ([] & s0 & E0 & Hrun). injection E0 as <-.
  apply bind_ok_inv in Hrun as (old & s1 & E1 & Hrun).
  destruct old as [t0 |]; [| discriminate].
  apply bind_ok_inv in Hrun as (d & s2 & E2 & Hrun).
  pose proof (data_inv _ _ _ _ E2) as Hs2. subst s2.
  apply bind_ok_inv in Hrun as (new & s3 & E3 & Hrun). injection E3 as <- <-.
  apply bind_ok_inv in Hrun as (d' & s4 & E4 & Hrun).
  pose proof (call_inv _ _ _ _ _ E4) as Hs4. subst s4.
  injection Hrun as <-.
  assert (heap s1 !! self = Some d) as Hd.
  { unfold data in E2.
    destruct (heap s1 !! self) as [d0 |]; [injection E2 as ->; reflexivity | discriminate]. }
  assert (lib_exif_set_thumbnail b d = inr d') as Hset.
  { unfold call, bind, log, lift in E4.
    destruct (lib_exif_set_thumbnail b d) as [e | x]; simpl in E4;
      [discriminate | injection E4 as ->; reflexivity]. }
  set (s' := stored self d' (logged (LibSetThumbnail self b) s1)).
  assert (heap s' !! self = Some d') as Hd'.
  { subst s'. simpl. apply list_lookup_insert_eq. apply lookup_lt_Some in Hd. exact Hd. }
  pose proof (exif_thumbnail_run self s' d' Hd') as Hget.
  rewrite (Hlaw b d d' Hb Hset) in Hget.
  destruct b as [| b0 b]; [congruence |].
  eexists _, _. split; [exact Hget |]. simpl. apply lookup_allocated.
Qed.

End ThumbnailSetter.

(** ** Arguments and tags the tables do not know *)

Section Unknown.
Context `{Lib}.

(** [rotate] and [flip] check their argument before anything else: with an
    angle other than 90, 180 and 270, or a direction other than the two
    names, they raise [ValueError] and the store is as it was, no call
    made. *)
Theorem rotate_and_flip_check_first (fuel : nat) (self : handle)
    (with_exif : bool) (s : state) :
  (forall angle, angle <> 90 -> angle <> 180 -> angle <> 270 ->
     rotate fuel self angle with_exif s
     = (Raise (ValueError "Angle must be 90, 180 or 270."), s)) /\
  (forall direction, direction <> "horizontal"%string -> direction <> "vertical"%string ->
     flip fuel self direction with_exif s
     = (Raise (ValueError "Direction must be either 'vertical' or 'horizontal'"), s)).
Proof.
  split.
  - intros angle H1 H2 H3. unfold rotate.
    rewrite bool_decide_eq_false_2; [reflexivity |].
    rewrite !elem_of_cons, elem_of_nil. tauto.
  - intros direction H1 H2. unfold flip.
    rewrite bool_decide_eq_false_2; [reflexivity |].
    rewrite !elem_of_cons, elem_of_nil. tauto.
Qed.

Lemma transformed_run self op s d blob :
  heap s !! self = Some d -> lib_transform op d = inr blob -> blob <> [] ->
  transformed self op s
  = (Ok (length (heap s)), allocated blob (logged (LibTransform self op) s)).
Proof.
  intros Hd Hblob Hne. unfold transformed, bind, data, call, bind, log, lift.
  rewrite Hd, Hblob. destruct blob; [congruence | reflexivity].
Qed.

Lemma table_unknown_key (g : generator) (m : gmap Z Z) (t : Z) :
  table_of g = Some m -> ~ 1 <= t <= 8 -> m !! t = None.
Proof.
  intros Hm Hout. destruct (m !! t) as [v |] eqn:Hv; [| reflexivity].
  exfalso. apply Hout. apply (table_entries_in_range g m t v Hm Hv).
Qed.

(** A transform with [with_exif] set, on an image whose stored tag is
    neither 0 nor one of 1..8, raises [KeyError]: by then the collaborator
    has transformed the image and the tag has been read, but no orientation
    is written and the thumbnail step does not run. *)
Theorem unknown_tag_raises_KeyError (g : generator) (fuel : nat) (self : handle)
    (s : state) (d blob : bytes) (t : Z) :
  heap s !! self = Some d ->
  lib_transform (codec_op g) d = inr blob -> blob <> [] ->
  lib_exif_orientation blob = inr t ->
  t < 0 \/ 8 < t ->
  perform g fuel self true s
  = (Raise KeyError,
     logged (LibGetOrientation (length (heap s)))
       (allocated blob (logged (LibTransform self (codec_op g)) s))).
Proof.
  intros Hd Hblob Hne Htag Hout. rewrite perform_unfold.
  rewrite (bind_ok _ _ _ _ _ (transformed_run self (codec_op g) s d blob Hd Hblob Hne)).
  set (s1 := allocated blob _). set (img := length (heap s)).
  assert (heap s1 !! img = Some blob) as Himg by (apply lookup_allocated).
  assert (exists m, table_of g = Some m) as (m & Hm)
    by (destruct g; eexists; vm_compute; reflexivity).
  assert (or_1 (Some t) = t) as Hor
    by (destruct t as [| p | p]; [lia | reflexivity | reflexivity]).
  assert ((table <- subscript (table_of g) ;; propagate table img) s1
          = (Raise KeyError, logged (LibGetOrientation img) s1)) as Hprop.
  { rewrite Hm. unfold propagate.
    pose proof (exif_orientation_run img s1 blob Himg) as Hget. rewrite Htag in Hget.
    change (subscript (Some m)) with (ret m). unfold bind at 1. cbn [ret].
    rewrite (bind_ok _ _ _ _ _ Hget), Hor.
    rewrite (table_unknown_key g m t Hm) by lia. reflexivity. }
  rewrite (bind_raise _ _ _ _ _ Hprop). reflexivity.
Qed.

(** On an image whose tag is outside 1..8, [exif_autotransform] returns
    [None]: it reads the tag and does nothing else. *)
Theorem exif_autotransform_unknown_tag (fuel : nat) (self : handle) (s : state)
    (d : bytes) (t : Z) :
  heap s !! self = Some d ->
  lib_exif_orientation d = inr t ->
  t < 1 \/ 8 < t ->
  exif_autotransform fuel self s = (Ok None, logged (LibGetOrientation self) s).
Proof.
  intros Hd Htag Hout. unfold exif_autotransform.
  pose proof (exif_orientation_run self s d Hd) as Hget. rewrite Htag in Hget.
  rewrite (bind_ok _ _ _ _ _ Hget).
  destruct t as [| p | p]; try reflexivity.
  do 4 (try destruct p as [p | p |]); try reflexivity; lia.
Qed.

End Unknown.

(** ** Two more runs of the thumbnail step *)

Section MoreOfTheStep.
Context `{Lib}.

(** An image whose target size is its own size (160x80, say) is not scaled:
    [downscale] hands the image itself back, and the step writes the bytes of
    the whole image, old thumbnail included, as its new thumbnail. *)
Theorem thumbnail_of_an_image_of_target_size (fuel : nat) (self : handle)
    (s : state) (d blob d' : bytes) (cw ch : Z) :
  heap s !! self = Some d ->
  lib_exif_thumbnail d = inr blob -> blob <> [] ->
  lib_get_dimensions d = inr (cw, ch) ->
  target_size cw ch = inr (cw, ch) ->
  lib_exif_set_thumbnail d d = inr d' ->
  _update_thumbnail (S fuel) self s
  = (Ok tt,
     stored self d'
       (logged (LibSetThumbnail self d)
          (allocated blob
             (logged (LibGetThumbnail self)
                (queried 7 self
                   (allocated blob
                      (logged (LibGetThumbnail self)
                         (logged (EnterUpdateThumbnail self) s)))))))).
Proof.
  intros Hd Hblob Hne Hdim Htarget Hset.
  rewrite (update_thumbnail_run self d cw ch Hdim (S fuel) blob s Hd Hblob Hne).
  cbv zeta. rewrite Htarget.
  assert ((cw >? cw) = false) as -> by lia. cbn [andb].
  set (s1 := allocated blob _).
  assert (heap (queried 5 self s1) !! self = Some d) as Hd5
    by (apply (lookup_allocated_old blob _ self d), Hd).
  pose proof (downscale_run self d cw ch Hdim fuel cw ch 75 (queried 5 self s1) Hd5)
    as Hdown.
  rewrite !Z.eqb_refl in Hdown. cbn [andb] in Hdown.
  rewrite queried_queried in Hdown.
  rewrite (bind_ok _ _ _ _ _ Hdown).
  apply (set_exif_thumbnail_run self self _ d d blob d'); assumption.
Qed.

(** Rotate, flip, transpose and transverse raise the [ValueError] of
    [downscale] when the transformed image carries a thumbnail and its target
    size exceeds it in exactly one of width and height: the step does not
    stop, and [downscale] refuses the size. *)
Theorem transform_raises_in_thumbnail_step (g : generator) (fuel : nat)
    (self : handle) (s : state) (d blob t : bytes) (nw nh tw th : Z) :
  heap s !! self = Some d ->
  lib_transform (codec_op g) d = inr blob -> blob <> [] ->
  lib_exif_thumbnail blob = inr t -> t <> [] ->
  lib_get_dimensions blob = inr (nw, nh) ->
  target_size nw nh = inr (tw, th) ->
  ~ (tw > nw /\ th > nh) -> tw > nw \/ th > nh ->
  exists s',
    perform g (S fuel) self false s
    = (Raise (ValueError "jpegtran can only downscale JPEGs"), s').
Proof.
  intros Hd Hblob Hne Ht Htne Hndim Htarget Hnot Hone.
  rewrite perform_unfold.
  rewrite (bind_ok _ _ _ _ _ (transformed_run self (codec_op g) s d blob Hd Hblob Hne)).
  set (s1 := allocated blob _).
  assert (heap s1 !! length (heap s) = Some blob) as Hnew by apply lookup_allocated.
  unfold bind at 1. cbn [ret].
  destruct (update_thumbnail_raises (length (heap s)) blob nw nh Hndim fuel t tw th s1
              Hnew Ht Htne Htarget Hnot Hone) as (s' & Hraise).
  exists s'. rewrite (bind_raise _ _ _ _ _ Hraise). reflexivity.
Qed.

End MoreOfTheStep.

(** ** The depth of the recursion *)

Lemma enough_ret {A} (a : A) : enough_fuel (ret a).
Proof. intros s. discriminate. Qed.

Lemma enough_raise {A} (e : exn) : enough_fuel (@raise A e).
Proof. intros s. discriminate. Qed.

Lemma enough_bind_at {A B} (c : M A) (k : A -> M B) s :
  (c s).1 <> OutOfFuel ->
  (forall a s1, c s = (Ok a, s1) -> (k a s1).1 <> OutOfFuel) ->
  (bind c k s).1 <> OutOfFuel.
Proof.
  intros Hc Hk. unfold bind. destruct (c s) as [[a | e | |] s1] eqn:E; simpl in *;
    try discriminate; [apply (Hk a s1 eq_refl) | congruence].
Qed.

Lemma enough_bind {A B} (c : M A) (k : A -> M B) :
  enough_fuel c -> (forall a, enough_fuel (k a)) -> enough_fuel (bind c k).
Proof. intros Hc Hk s. apply enough_bind_at; [apply Hc | intros; apply Hk]. Qed.

Lemma enough_log ev : enough_fuel (log ev).
Proof. intros s. discriminate. Qed.

Lemma enough_lift {A} (r : res A) : enough_fuel (lift r).
Proof. destruct r; [apply enough_raise | apply enough_ret]. Qed.

Lemma enough_call {A} ev (r : res A) : enough_fuel (call ev r).
Proof. apply enough_bind; [apply enough_log | intros; apply enough_lift]. Qed.

Lemma enough_data self : enough_fuel (data self).
Proof. intros s. unfold data. destruct (heap s !! self); discriminate. Qed.

Lemma enough_subscript {V} (o : option V) : enough_fuel (subscript o).
Proof. destruct o; [apply enough_ret | apply enough_raise]. Qed.

Lemma enough_except {A} (c : M A) :
  enough_fuel c -> enough_fuel (except_ExifException c).
Proof.
  intros Hc s. specialize (Hc s). unfold except_ExifException.
  destruct (c s) as [[a | [] | |] s1]; simpl in *; congruence.
Qed.

Lemma enough_and_then (c1 c2 : M bool) :
  enough_fuel c1 -> enough_fuel c2 -> enough_fuel (and_then c1 c2).
Proof.
  intros H1 H2. apply enough_bind; [exact H1 |].
  intros []; [exact H2 | apply enough_ret].
Qed.

Lemma enough_or_else (c1 c2 : M bool) :
  enough_fuel c1 -> enough_fuel c2 -> enough_fuel (or_else c1 c2).
Proof.
  intros H1 H2. apply enough_bind; [exact H1 |].
  intros []; [apply enough_ret | exact H2].
Qed.

Section Depth.
Context `{Lib}.

Lemma enough_JPEGImage blob : enough_fuel (JPEGImage blob).
Proof. destruct blob; [apply enough_raise | intros s; discriminate]. Qed.

Lemma enough_get_dimensions self : enough_fuel (get_dimensions self).
Proof. apply enough_bind; [apply enough_data | intros; apply enough_call]. Qed.

Lemma enough_size_test self (test : Z -> bool) :
  enough_fuel (w <- width self ;; ret (test w)) /\
  enough_fuel (h <- height self ;; ret (test h)).
Proof.
  split; (apply enough_bind; [| intros; apply enough_ret]);
    (apply enough_bind; [apply enough_get_dimensions | intros; apply enough_ret]).
Qed.

Lemma enough_width self : enough_fuel (width self).
Proof. apply enough_bind; [apply enough_get_dimensions | intros; apply enough_ret]. Qed.

Lemma enough_height self : enough_fuel (height self).
Proof. apply enough_bind; [apply enough_get_dimensions | intros; apply enough_ret]. Qed.

Lemma enough_exif_thumbnail self : enough_fuel (exif_thumbnail self).
Proof.
  apply enough_except, enough_bind; [apply enough_data | intros d].
  apply enough_bind; [apply enough_call | intros; apply enough_JPEGImage].
Qed.

Lemma enough_exif_orientation self : enough_fuel (exif_orientation self).
Proof.
  apply enough_except, enough_bind; [apply enough_data | intros; apply enough_call].
Qed.

Lemma enough_transformed self op : enough_fuel (transformed self op).
Proof.
  apply enough_bind; [apply enough_data | intros d].
  apply enough_bind; [apply enough_call | intros; apply enough_JPEGImage].
Qed.

Lemma enough_set_exif_orientation self v : enough_fuel (set_exif_orientation self v).
Proof.
  unfold set_exif_orientation. destruct (negb _); [apply enough_raise |].
  apply enough_bind; [apply enough_data | intros d].
  apply enough_bind; [apply enough_call | intros d' s; discriminate].
Qed.

Lemma enough_set_exif_thumbnail self image : enough_fuel (set_exif_thumbnail self image).
Proof.
  unfold set_exif_thumbnail. apply enough_bind.
  { destruct image; [| apply enough_ret].
    apply enough_bind; [apply enough_data | intros; apply enough_ret]. }
  intros _. apply enough_bind; [apply enough_exif_thumbnail | intros [t |]];
    [| apply enough_raise].
  apply enough_bind; [apply enough_data | intros d].
  apply enough_bind;
    [destruct image; [apply enough_data | apply enough_ret] | intros new].
  apply enough_bind; [apply enough_call | intros d' s; discriminate].
Qed.

Lemma enough_update_thumbnail_with downscale_ self :
  (forall h w_ h_ q, enough_fuel (downscale_ h w_ h_ q)) ->
  enough_fuel (update_thumbnail_with downscale_ self).
Proof.
  intros Hrec. unfold update_thumbnail_with.
  apply enough_bind; [apply enough_log | intros _].
  apply enough_bind; [apply enough_exif_thumbnail | intros [t |]];
    [| apply enough_ret].
  apply enough_bind; [apply enough_width | intros w].
  apply enough_bind; [apply enough_height | intros h].
  apply enough_bind.
  { destruct (w >? h);
      (apply enough_bind; [apply enough_width | intros w']);
      (apply enough_bind; [apply enough_height | intros h']);
      (apply enough_bind; [apply enough_lift | intros r]);
      (apply enough_bind; [apply enough_lift | intros q]);
      (apply enough_bind; [apply enough_lift | intros t']);
      apply enough_ret. }
  intros target. cbv zeta.
  apply enough_bind; [apply enough_and_then; apply enough_size_test |].
  intros []; [apply enough_ret |].
  apply enough_bind; [apply Hrec | intros; apply enough_set_exif_thumbnail].
Qed.

(** On an image without a thumbnail the step returns at once, whatever
    [downscale] it was given. *)
Lemma update_thumbnail_with_no_thumbnail downscale_ self s d :
  heap s !! self = Some d ->
  lib_exif_thumbnail d = inl ExifException ->
  update_thumbnail_with downscale_ self s
  = (Ok tt, logged (LibGetThumbnail self) (logged (EnterUpdateThumbnail self) s)).
Proof.
  intros Hd Hnone. unfold update_thumbnail_with.
  unfold bind at 1. unfold log at 1. cbv beta iota.
  fold (logged (EnterUpdateThumbnail self) s).
  pose proof (exif_thumbnail_run self (logged (EnterUpdateThumbnail self) s) d Hd)
    as E1.
  rewrite Hnone in E1. rewrite (bind_ok _ _ _ _ _ E1). reflexivity.
Qed.

Hypothesis no_thumbnail_after_scaling : scaling_drops_thumbnail.

Lemma enough_downscale fuel self w_ h_ q :
  enough_fuel (downscale (S fuel) self w_ h_ q).
Proof.
  intros s. cbn [downscale].
  apply enough_bind_at;
    [apply enough_and_then; apply enough_size_test | intros same s1 _].
  destruct same; [discriminate |].
  apply enough_bind_at;
    [apply enough_or_else; apply enough_size_test | intros larger s2 _].
  destruct larger; [discriminate |].
  apply enough_bind_at; [apply enough_transformed | intros new s3 Htr].
  apply transformed_ok_inv in Htr as (d & blob & Hd & Hblob & Hne & -> & ->).
  assert (heap (allocated blob (logged (LibTransform self (OpScale w_ h_ q)) s2))
            !! length (heap s2) = Some blob) as Hnew by apply lookup_allocated.
  rewrite (bind_ok _ _ _ _ _
             (update_thumbnail_with_no_thumbnail (downscale fuel) _ _ blob Hnew
                (no_thumbnail_after_scaling w_ h_ q d blob Hblob))).
  discriminate.
Qed.

Lemma enough_update_thumbnail fuel self : enough_fuel (_update_thumbnail (S fuel) self).
Proof. apply enough_update_thumbnail_with. intros. apply enough_downscale. Qed.

Lemma enough_perform g fuel self with_exif :
  enough_fuel (perform g (S fuel) self with_exif).
Proof.
  rewrite perform_unfold.
  apply enough_bind; [apply enough_transformed | intros img].
  apply enough_bind.
  { destruct with_exif; [| apply enough_ret].
    apply enough_bind; [apply enough_subscript | intros table].
    unfold propagate.
    apply enough_bind; [apply enough_exif_orientation | intros current].
    apply enough_bind; [apply enough_subscript | intros value].
    apply enough_set_exif_orientation. }
  intros _. apply enough_bind;
    [apply enough_update_thumbnail | intros; apply enough_ret].
Qed.

Lemma enough_crop fuel self x y w_ h_ : enough_fuel (crop (S fuel) self x y w_ h_).
Proof.
  unfold crop. apply enough_bind.
  { repeat apply enough_and_then; apply enough_size_test. }
  intros []; simpl; [| apply enough_raise].
  apply enough_bind; [apply enough_transformed | intros new].
  apply enough_bind; [apply enough_update_thumbnail | intros; apply enough_ret].
Qed.

(** With a collaborator whose scaled images carry no thumbnail, the mutual
    recursion of [downscale] and [_update_thumbnail] stops after one round:
    given fuel for one round, no transform and no [exif_autotransform] ends
    for lack of it. *)
Theorem one_round_of_recursion (fuel : nat) (self : handle) (s : state) :
  (forall op, (run_op (S fuel) self op s).1 <> OutOfFuel) /\
  (exif_autotransform (S fuel) self s).1 <> OutOfFuel /\
  (_update_thumbnail (S fuel) self s).1 <> OutOfFuel.
Proof.
  split; [| split].
  - intros [g with_exif | x y w_ h_ | w_ h_ q]; cbn [run_op];
      [apply enough_perform | apply enough_crop | apply enough_downscale].
  - unfold exif_autotransform.
    apply enough_bind; [apply enough_exif_orientation | intros orient].
    destruct orient as [o |]; [| apply enough_raise].
    repeat match goal with
           | |- enough_fuel (match ?x with _ => _ end) => destruct x
           end;
      try apply enough_ret;
      (apply enough_bind; [| intros; apply enough_ret]);
      lazymatch goal with
      | |- enough_fuel (rotate _ _ 90 _) => exact (enough_perform Rotate90 fuel self true)
      | |- enough_fuel (rotate _ _ 180 _) => exact (enough_perform Rotate180 fuel self true)
      | |- enough_fuel (rotate _ _ 270 _) => exact (enough_perform Rotate270 fuel self true)
      | |- enough_fuel (flip _ _ "horizontal" _) => exact (enough_perform FlipH fuel self true)
      | |- enough_fuel (flip _ _ "vertical" _) => exact (enough_perform FlipV fuel self true)
      | |- enough_fuel (transpose _ _ _) => exact (enough_perform Transpose fuel self true)
      | |- enough_fuel (transverse _ _ _) => exact (enough_perform Transverse fuel self true)
      end.
  - apply enough_update_thumbnail.
Qed.

End Depth.

(** ** The constructor, and a file written and read back *)

Lemma lower_char_newline (a : ascii) : lower_char a = newline -> a = newline.
Proof.
  destruct a as [[] [] [] [] [] [] [] []]; vm_compute; intros E;
    first [reflexivity | discriminate E].
Qed.

Lemma lower_append (a b : string) : lower (a ++ b) = lower a ++ lower b.
Proof.
  unfold lower. induction a as [| c a IH]; [reflexivity |].
  simpl. f_equal. exact IH.
Qed.

Lemma lower_no_newline (a : string) :
  newline ∉ list_ascii_of_string a -> newline ∉ lower a.
Proof.
  unfold lower. induction a as [| c a IH]; simpl; [intros _ Hin; inversion Hin |].
  rewrite !not_elem_of_cons. intros [Hc Ha]. split; [| apply IH, Ha].
  intros E. apply Hc. symmetry. apply lower_char_newline. symmetry. exact E.
Qed.

Section Files.
Context `{FileSystem}.

(** The constructor raises exactly when both arguments are given or both are
    missing, an empty name or blob counting as missing.  Otherwise a name that
    was passed decides, even the empty name beside a blob: the bytes are those
    of the file, whatever they are, and an unreadable file is the error of the
    call.  With no name passed the bytes are a copy of the blob, in a new
    object, and [as_blob] returns them. *)
Theorem constructor_takes_one_source (fname : option string) (blob : option bytes)
    (f : files) (s : state) :
  (truthy_name fname = truthy_blob blob ->
   JPEGImage_init fname blob f s
   = (IoRaise (PyExn (Exception_ "Must initialize with either fname or blob.")), s)) /\
  (truthy_name fname <> truthy_blob blob ->
   match fname with
   | Some name =>
       JPEGImage_init fname blob f s
       = match fs_read name f with
         | inl e => (IoRaise e, s)
         | inr d => (IoOk (length (heap s)), allocated d s)
         end
   | None =>
       exists b, blob = Some b /\
         JPEGImage_init fname blob f s = (IoOk (length (heap s)), allocated b s) /\
         JPEGImage b s = (Ok (length (heap s)), allocated b s) /\
         as_blob (length (heap s)) (allocated b s) = (Ok b, allocated b s)
   end).
Proof.
  unfold JPEGImage_init. split.
  - intros E. rewrite E. destruct (truthy_blob blob); reflexivity.
  - intros Hne.
    assert ((negb (truthy_name fname) && negb (truthy_blob blob)
             || truthy_name fname && truthy_blob blob) = false) as ->
      by (revert Hne; destruct (truthy_name fname), (truthy_blob blob);
          simpl; congruence).
    destruct fname as [name |]; [reflexivity |].
    destruct blob as [[| b0 b] |]; simpl in Hne; try congruence.
    exists (b0 :: b). repeat split.
    unfold as_blob, data. simpl. rewrite lookup_allocated. reflexivity.
Qed.

(** An image saved under a name that ends in [.jpg] or [.jpeg], in any mix
    of upper and lower case, and then constructed from that name has the
    bytes of the image that was saved, when the write succeeded and the file
    reads back as written. *)
Theorem save_then_load (self : handle) (base ext : string) (f f' : files)
    (s : state) (d : bytes) :
  heap s !! self = Some d ->
  newline ∉ list_ascii_of_string base ->
  lower ext = jpeg_ending 0 [] \/ lower ext = jpeg_ending 1 [] ->
  fs_write (base ++ ext) d f = (None, f') ->
  fs_read (base ++ ext) f' = inr d ->
  save self (base ++ ext) f s = (IoOk tt, f') /\
  JPEGImage_init (Some (base ++ ext)%string) None f' s
  = (IoOk (length (heap s)), allocated d s).
Proof.
  intros Hd Hbase Hext Hwrite Hread.
  assert (jpeg_name (lower (base ++ ext))) as Hname.
  { rewrite lower_append.
    destruct Hext as [-> | ->];
      [exists (lower base), 0%nat, [] | exists (lower base), 1%nat, []];
      (split; [reflexivity |]; split; [apply lower_no_newline, Hbase | left; reflexivity]). }
  split.
  - unfold save. apply jpeg_pattern_matches in Hname. rewrite Hname, Hd, Hwrite.
    reflexivity.
  - unfold JPEGImage_init.
    assert (truthy_name (Some (base ++ ext)%string) = true) as ->.
    { destruct base; [| reflexivity]. simpl.
      destruct ext; [destruct Hext; discriminate | reflexivity]. }
    simpl. rewrite Hread. reflexivity.
Qed.

End Files.

(** ** Errors of the collaborator, and the rectangle test of [crop] *)

Section Errors.
Context `{Lib}.

Lemma adds_any_allocated blob s : adds (fun _ => True) s (allocated blob s).
Proof. apply adds_same_trace. reflexivity. Qed.

Lemma adds_any_stored self d s : adds (fun _ => True) s (stored self d s).
Proof. apply adds_same_trace. reflexivity. Qed.

(** The thumbnail step never takes a call off the record. *)
Lemma update_thumbnail_adds fuel self s :
  adds (fun _ => True) s (_update_thumbnail fuel self s).2.
Proof.
  apply (preserves_update_thumbnail (adds (fun _ => True)) (fun _ => True)).
  - apply adds_refl.
  - apply adds_trans.
  - intros ev s0 _. apply adds_logged. exact I.
  - apply adds_any_allocated.
  - intros self0 new d d' s0 _ _. apply adds_any_stored.
  - intros ev _. exact I.
Qed.

(** The rectangle test of [crop] asks for the dimensions at most four
    times. *)
Lemma crop_check_bounded (self : handle) (s : state) (d : bytes)
    (cw ch x y w_ h_ : Z) :
  heap s !! self = Some d ->
  lib_get_dimensions d = inr (cw, ch) ->
  exists n, (1 <= n <= 4)%nat /\
    and_then (w <- width self ;; ret (x <? w))
      (and_then (h <- height self ;; ret (y <? h))
         (and_then (w <- width self ;; ret (x + w_ <=? w))
                   (h <- height self ;; ret (y + h_ <=? h)))) s
    = (Ok ((x <? cw) && (y <? ch) && (x + w_ <=? cw) && (y + h_ <=? ch)),
       queried n self s).
Proof.
  intros Hd Hdim.
  rewrite (and_then_run _ _ _ _ _
             (width_test_run self d cw ch Hdim (fun w => x <? w) s Hd)).
  destruct (x <? cw); [| exists 1%nat; split; [lia | reflexivity]].
  rewrite (and_then_run _ _ _ _ _
             (height_test_run self d cw ch Hdim (fun h => y <? h)
                (queried 1 self s) Hd)).
  destruct (y <? ch); [| exists 2%nat; split; [lia | reflexivity]].
  rewrite (and_then_run _ _ _ _ _
             (width_test_run self d cw ch Hdim (fun w => x + w_ <=? w)
                (queried 2 self s) Hd)).
  destruct (x + w_ <=? cw); [| exists 3%nat; split; [lia | reflexivity]].
  exists 4%nat. split; [lia |].
  exact (height_test_run self d cw ch Hdim (fun h => y + h_ <=? h)
           (queried 3 self s) Hd).
Qed.

(** [crop] tests the rectangle against the far corner of the image and
    nothing else.  A rectangle that starts at or beyond the width or the
    height, or ends beyond them, raises the [ValueError] of [crop] after at
    most four queries of the dimensions, the store as it was.  Every other
    rectangle, one with negative coordinates or sizes included, is handed to
    the collaborator as it was given. *)
Theorem crop_tests_the_far_corner (fuel : nat) (self : handle) (s : state)
    (d : bytes) (cw ch x y w_ h_ : Z) :
  heap s !! self = Some d ->
  lib_get_dimensions d = inr (cw, ch) ->
  (cw <= x \/ ch <= y \/ cw < x + w_ \/ ch < y + h_ ->
   exists n, (1 <= n <= 4)%nat /\
     crop fuel self x y w_ h_ s
     = (Raise (ValueError "Crop parameters point outside of the image"),
        queried n self s)) /\
  (x < cw -> y < ch -> x + w_ <= cw -> y + h_ <= ch ->
   LibTransform self (OpCrop x y w_ h_) ∈ trace (crop fuel self x y w_ h_ s).2).
Proof.
  intros Hd Hdim. split.
  - intros Hout.
    assert (valid_crop cw ch x y w_ h_ = false) as Hbad.
    { unfold valid_crop.
      destruct (Z.ltb_spec x cw); [| reflexivity].
      destruct (Z.ltb_spec y ch); [| reflexivity].
      destruct (Z.leb_spec (x + w_) cw); [| reflexivity].
      destruct (Z.leb_spec (y + h_) ch); [| reflexivity]. lia. }
    destruct (crop_check_bounded self s d cw ch x y w_ h_ Hd Hdim) as (n & Hn & Hcheck).
    exists n. split; [exact Hn |].
    unfold crop. rewrite (bind_ok _ _ _ _ _ Hcheck).
    unfold valid_crop in Hbad. rewrite Hbad. reflexivity.
  - intros Hx Hy Hw Hh.
    assert (valid_crop cw ch x y w_ h_ = true) as Hgood.
    { unfold valid_crop.
      destruct (Z.ltb_spec x cw); [| lia].
      destruct (Z.ltb_spec y ch); [| lia].
      destruct (Z.leb_spec (x + w_) cw); [| lia].
      destruct (Z.leb_spec (y + h_) ch); [reflexivity | lia]. }
    destruct (crop_accepts fuel self s d cw ch x y w_ h_ Hd Hdim Hgood) as (n & ->).
    set (s0 := queried n self s).
    assert (heap s0 !! self = Some d) as Hd0 by exact Hd.
    unfold bind at 1.
    destruct (transformed self (OpCrop x y w_ h_) s0) as [r s1] eqn:Htr.
    assert (LibTransform self (OpCrop x y w_ h_) ∈ trace s1) as Hin.
    { revert Htr. unfold transformed, bind, data, call, bind, log, lift.
      rewrite Hd0.
      destruct (lib_transform (OpCrop x y w_ h_) d) as [e | [| b blob]];
        intros [= <- <-]; simpl; apply list_elem_of_here. }
    destruct r as [new | e | |]; try exact Hin.
    unfold bind.
    pose proof (update_thumbnail_adds fuel new s1) as (evs & Htrace & _).
    destruct (_update_thumbnail fuel new s1) as [[[] | e | |] s2]; simpl in *;
      rewrite Htrace; apply elem_of_app; right; exact Hin.
Qed.

(** What the collaborator raises is what the method raises.  When the
    transformation fails, rotate, flip, transpose and transverse raise its
    error after that one call: no image is created, no tag read and the
    thumbnail step is not entered.  When the dimensions cannot be read,
    [crop] and [downscale] raise that error after the first query. *)
Theorem collaborator_errors_pass_through (fuel : nat) (self : handle)
    (s : state) (d : bytes) (e : exn) :
  heap s !! self = Some d ->
  (forall g with_exif,
     lib_transform (codec_op g) d = inl e ->
     perform g fuel self with_exif s
     = (Raise e, logged (LibTransform self (codec_op g)) s)) /\
  (lib_get_dimensions d = inl e ->
   (forall x y w_ h_,
      crop fuel self x y w_ h_ s = (Raise e, logged (LibDimensions self) s)) /\
   (forall w_ h_ q,
      downscale (S fuel) self w_ h_ q s = (Raise e, logged (LibDimensions self) s))).
Proof.
  intros Hd. split.
  - intros g with_exif Hfail. rewrite perform_unfold.
    apply bind_raise.
    unfold transformed, bind, data, call, bind, log, lift.
    rewrite Hd, Hfail. reflexivity.
  - intros Hfail.
    assert (forall test : Z -> bool,
              (w <- width self ;; ret (test w)) s
              = (Raise e, logged (LibDimensions self) s)) as Hwidth.
    { intros test.
      unfold width, get_dimensions, bind, data, call, bind, log, lift.
      rewrite Hd, Hfail. reflexivity. }
    split.
    + intros x y w_ h_. unfold crop. apply bind_raise.
      unfold and_then at 1. apply bind_raise. apply Hwidth.
    + intros w_ h_ q. cbn [downscale]. apply bind_raise.
      unfold and_then at 1. apply bind_raise. apply Hwidth.
Qed.

(** The thumbnail step divides the width by the height: on an image of
    height 0 that carries a thumbnail it raises [ZeroDivisionError], after
    the four queries of the dimensions that come before the division. *)
Theorem zero_height_raises_ZeroDivisionError (fuel : nat) (self : handle)
    (s : state) (d blob : bytes) (cw : Z) :
  heap s !! self = Some d ->
  lib_exif_thumbnail d = inr blob -> blob <> [] ->
  lib_get_dimensions d = inr (cw, 0) ->
  _update_thumbnail fuel self s
  = (Raise ZeroDivisionError,
     queried 4 self
       (allocated blob
          (logged (LibGetThumbnail self) (logged (EnterUpdateThumbnail self) s)))).
Proof.
  intros Hd Hblob Hne Hdim.
  rewrite (update_thumbnail_run self d cw 0 Hdim fuel blob s Hd Hblob Hne).
  cbv zeta.
  assert (target_size cw 0 = inl ZeroDivisionError) as ->.
  { unfold target_size, int_truediv. cbn [Z.eqb res_bind].
    destruct (cw >? 0); reflexivity. }
  reflexivity.
Qed.

End Errors.

(** ** The further properties on the reference collaborator and disk *)

Lemma toy_thumbnail_set_get new d d' :
  new <> [] ->
  Toy.exif_set_thumbnail new d = inr d' -> Toy.exif_thumbnail d' = inr new.
Proof.
  intros Hne.
  destruct d as [| w1 [| w0 [| h1 [| h0 [| o t]]]]]; try discriminate.
  unfold Toy.exif_set_thumbnail.
  destruct (Toy.no_exif o) eqn:E; [discriminate |].
  intros [= <-]. simpl. rewrite E. destruct new; [congruence | reflexivity].
Qed.

Lemma toy_scaling_drops_thumbnail : scaling_drops_thumbnail (H := Toy.lib).
Proof.
  intros w_ h_ q d blob.
  destruct d as [| w1 [| w0 [| h1 [| h0 [| o t]]]]]; try discriminate.
  simpl. intros [= <-]. simpl. destruct (Toy.no_exif o); reflexivity.
Qed.

Section FurtherWitnesses.
Local Existing Instance Toy.lib.
Local Existing Instance toy_laws.
Local Existing Instance Disk.fs.

(** [a.JPG] is written, [a.png] is refused. *)
Lemma save_checks_the_name_witness :
  let s := Toy.one Toy.thumb in
  save 0%nat "a.JPG" ∅ s
  = (match (fs_write "a.JPG" Toy.thumb ∅).1 with
     | Some e => IoRaise e
     | None => IoOk tt
     end, (fs_write "a.JPG" Toy.thumb ∅).2) /\
  save 0%nat "a.png" ∅ s
  = (IoRaise (PyExn (ValueError
       "fname must refer to a JPEG file, i.e. end with '.jpg' or '.jpeg'")), ∅).
Proof.
  intros s. split.
  - apply (proj1 (save_checks_the_name 0%nat "a.JPG" ∅ s Toy.thumb eq_refl)).
    apply jpeg_pattern_matches. vm_compute. reflexivity.
  - apply (proj2 (save_checks_the_name 0%nat "a.png" ∅ s Toy.thumb eq_refl)).
    intros Hname. apply jpeg_pattern_matches in Hname. vm_compute in Hname.
    discriminate Hname.
Defined.

(** Two images; the orientation of the first is set to 3: the second keeps
    its bytes. *)
Lemma setters_write_self_only_witness :
  let a := Toy.image 4 2 Byte.x01 Toy.thumb in
  let b := Toy.image 8 6 Byte.x06 Toy.thumb in
  let s := State [a; b] [] in
  heap (set_exif_orientation 0%nat 3 s).2 !! 1%nat = Some b.
Proof.
  intros a b s.
  destruct (setters_write_self_only 0%nat s 1%nat b eq_refl) as (Horient & _).
  apply (Horient 3 (set_exif_orientation 0%nat 3 s).1 (set_exif_orientation 0%nat 3 s).2).
  - vm_compute. reflexivity.
  - left. discriminate.
Defined.

(** Orientation 3 written on an image tagged 1 is read back. *)
Lemma orientation_set_then_get_witness :
  let s := Toy.one (Toy.image 4 2 Byte.x01 Toy.thumb) in
  let s' := (set_exif_orientation 0%nat 3 s).2 in
  exif_orientation 0%nat s' = (Ok (Some 3), logged (LibGetOrientation 0%nat) s').
Proof.
  intros s s'. apply (orientation_set_then_get 0%nat 3 s s').
  vm_compute. reflexivity.
Defined.

(** Four quarter turns of an image tagged 6 end on an image tagged 6. *)
Lemma perform_all_composes_tables_witness :
  let d := Toy.image 4 2 Byte.x06 [] in
  let s := Toy.one d in
  let quarter_turns := [Rotate90; Rotate90; Rotate90; Rotate90] in
  exists v d', apply_all 6 quarter_turns = Some v /\
    heap (perform_all quarter_turns 1 0%nat s).2 !! 4%nat = Some d' /\
    lib_exif_orientation d' = inr v.
Proof.
  intros d s quarter_turns.
  apply (perform_all_composes_tables quarter_turns 1 0%nat s d 6 4%nat
           (perform_all quarter_turns 1 0%nat s).2).
  - reflexivity.
  - vm_compute. reflexivity.
  - lia.
  - vm_compute. reflexivity.
Defined.

(** [exif_autotransform] of an image tagged 6, and again of what it
    returned. *)
Lemma exif_autotransform_twice_witness :
  let d := Toy.image 400 200 Byte.x06 Toy.thumb in
  let s := Toy.one d in
  let s' := (exif_autotransform 2 0%nat s).2 in
  exif_autotransform 2 1%nat s' = (Ok (Some 1%nat), logged (LibGetOrientation 1%nat) s').
Proof.
  intros d s s'.
  apply (exif_autotransform_twice 2 0%nat s d 6 1%nat s').
  - reflexivity.
  - vm_compute. reflexivity.
  - lia.
  - vm_compute. reflexivity.
Defined.

(** An image with an EXIF segment and no thumbnail. *)
Lemma thumbnail_setter_needs_a_thumbnail_witness :
  let s := Toy.one (Toy.image 4 2 Byte.x01 []) in
  set_exif_thumbnail 0%nat (ArgBytes Toy.thumb) s
  = (Raise (ValueError "No pre-existing thumbnail found, cannot set."),
     logged (LibGetThumbnail 0%nat) s).
Proof.
  intros s.
  apply (thumbnail_setter_needs_a_thumbnail 0%nat (ArgBytes Toy.thumb) s
           (Toy.image 4 2 Byte.x01 [])).
  - reflexivity.
  - vm_compute. reflexivity.
  - exact I.
Defined.

(** New thumbnail bytes on an image that has a thumbnail. *)
Lemma thumbnail_set_then_get_witness :
  let s := Toy.one (Toy.image 400 200 Byte.x01 Toy.thumb) in
  let b := Toy.image 20 10 Byte.xff [] in
  let s' := (set_exif_thumbnail 0%nat (ArgBytes b) s).2 in
  exists t s'', exif_thumbnail 0%nat s' = (Ok (Some t), s'') /\ heap s'' !! t = Some b.
Proof.
  intros s b s'.
  apply (thumbnail_set_then_get 0%nat b s s').
  - exact toy_thumbnail_set_get.
  - discriminate.
  - vm_compute. reflexivity.
Defined.

(** A quarter turn of an image tagged 9. *)
Lemma unknown_tag_raises_KeyError_witness :
  let d := Toy.image 4 2 Byte.x09 [] in
  let s := Toy.one d in
  perform Rotate90 1 0%nat true s
  = (Raise KeyError,
     logged (LibGetOrientation 1%nat)
       (allocated (Toy.image 2 4 Byte.x09 [])
          (logged (LibTransform 0%nat (OpRotate 90)) s))).
Proof.
  intros d s.
  apply (unknown_tag_raises_KeyError Rotate90 1 0%nat s d (Toy.image 2 4 Byte.x09 []) 9).
  - reflexivity.
  - vm_compute. reflexivity.
  - discriminate.
  - vm_compute. reflexivity.
  - right. lia.
Defined.

(** [exif_autotransform] of an image tagged 0. *)
Lemma exif_autotransform_unknown_tag_witness :
  let s := Toy.one (Toy.image 4 2 Byte.x00 []) in
  exif_autotransform 1 0%nat s = (Ok None, logged (LibGetOrientation 0%nat) s).
Proof.
  intros s.
  apply (exif_autotransform_unknown_tag 1 0%nat s (Toy.image 4 2 Byte.x00 []) 0).
  - reflexivity.
  - vm_compute. reflexivity.
  - left. lia.
Defined.

(** The thumbnail step on a 160x80 image with a thumbnail. *)
Lemma thumbnail_of_an_image_of_target_size_witness :
  let d := Toy.image 160 80 Byte.x01 Toy.thumb in
  let s := Toy.one d in
  heap (_update_thumbnail 1 0%nat s).2 !! 0%nat = Some (Toy.image 160 80 Byte.x01 d) /\
  _update_thumbnail 1 0%nat s
  = (Ok tt,
     stored 0%nat (Toy.image 160 80 Byte.x01 d)
       (logged (LibSetThumbnail 0%nat d)
          (allocated Toy.thumb
             (logged (LibGetThumbnail 0%nat)
                (queried 7 0%nat
                   (allocated Toy.thumb
                      (logged (LibGetThumbnail 0%nat)
                         (logged (EnterUpdateThumbnail 0%nat) s)))))))).
Proof.
  intros d s.
  assert (_update_thumbnail 1 0%nat s
          = (Ok tt,
             stored 0%nat (Toy.image 160 80 Byte.x01 d)
               (logged (LibSetThumbnail 0%nat d)
                  (allocated Toy.thumb
                     (logged (LibGetThumbnail 0%nat)
                        (queried 7 0%nat
                           (allocated Toy.thumb
                              (logged (LibGetThumbnail 0%nat)
                                 (logged (EnterUpdateThumbnail 0%nat) s))))))))) as Hrun.
  { apply (thumbnail_of_an_image_of_target_size 0 0%nat s d Toy.thumb
             (Toy.image 160 80 Byte.x01 d) 160 80).
    - reflexivity.
    - vm_compute. reflexivity.
    - discriminate.
    - vm_compute. reflexivity.
    - vm_compute. reflexivity.
    - vm_compute. reflexivity. }
  split; [rewrite Hrun; reflexivity | exact Hrun].
Defined.

(** A quarter turn of a 100x159 image with a thumbnail. *)
Lemma transform_raises_in_thumbnail_step_witness :
  let d := Toy.image 100 159 Byte.x01 Toy.thumb in
  exists s',
    perform Rotate90 1 0%nat false (Toy.one d)
    = (Raise (ValueError "jpegtran can only downscale JPEGs"), s').
Proof.
  intros d.
  apply (transform_raises_in_thumbnail_step Rotate90 0 0%nat (Toy.one d) d
           (Toy.image 159 100 Byte.x01 Toy.thumb) Toy.thumb 159 100 160 100).
  - reflexivity.
  - vm_compute. reflexivity.
  - discriminate.
  - vm_compute. reflexivity.
  - discriminate.
  - vm_compute. reflexivity.
  - vm_compute. reflexivity.
  - lia.
  - left. lia.
Defined.

(** A downscale of a 1600x800 image with a thumbnail, with fuel for one
    round. *)
Lemma one_round_of_recursion_witness :
  let s := Toy.one (Toy.image 1600 800 Byte.x01 Toy.thumb) in
  (run_op 1 0%nat (Downscale 800 400 75) s).1 <> OutOfFuel.
Proof.
  intros s.
  apply (proj1 (one_round_of_recursion toy_scaling_drops_thumbnail 0 0%nat s)
           (Downscale 800 400 75)).
Defined.

(** The empty name beside a blob: the constructor goes to the file of that
    name. *)
Lemma constructor_takes_one_source_witness :
  JPEGImage_init (Some ""%string) (Some Toy.thumb) ∅ (State [] [])
  = match fs_read "" ∅ with
    | inl e => (IoRaise e, State [] [])
    | inr d => (IoOk 0%nat, allocated d (State [] []))
    end.
Proof.
  apply (proj2 (constructor_takes_one_source (Some ""%string) (Some Toy.thumb) ∅
                  (State [] []))).
  discriminate.
Defined.

(** [photo.JPEG] written to an empty disk and read back. *)
Lemma save_then_load_witness :
  let d := Toy.image 4 2 Byte.x01 Toy.thumb in
  let s := Toy.one d in
  let f' : @files Disk.fs := <[ "photo.JPEG"%string := d ]> (∅ : gmap string bytes) in
  save 0%nat "photo.JPEG" ∅ s = (IoOk tt, f') /\
  JPEGImage_init (Some "photo.JPEG"%string) None f' s = (IoOk 1%nat, allocated d s).
Proof.
  intros d s f'.
  apply (save_then_load 0%nat "photo" ".JPEG" ∅ f' s d).
  - reflexivity.
  - simpl. repeat (apply not_elem_of_cons; split; [discriminate |]).
    apply not_elem_of_nil.
  - right. vm_compute. reflexivity.
  - reflexivity.
  - unfold f'. simpl. unfold Disk.read. rewrite lookup_insert_eq. reflexivity.
Defined.

(** A 400x200 image: a rectangle that ends beyond the width, and one that
    starts left of and above the image. *)
Lemma crop_tests_the_far_corner_witness :
  let d := Toy.image 400 200 Byte.x01 [] in
  let s := Toy.one d in
  (exists n, (1 <= n <= 4)%nat /\
     crop 1 0%nat 300 0 200 100 s
     = (Raise (ValueError "Crop parameters point outside of the image"),
        queried n 0%nat s)) /\
  LibTransform 0%nat (OpCrop (-5) (-5) 10 10) ∈ trace (crop 1 0%nat (-5) (-5) 10 10 s).2.
Proof.
  intros d s.
  assert (lib_get_dimensions d = inr (400, 200)) as Hdim by (vm_compute; reflexivity).
  split.
  - apply (proj1 (crop_tests_the_far_corner 1 0%nat s d 400 200 300 0 200 100
                    eq_refl Hdim)).
    right. right. left. lia.
  - apply (proj2 (crop_tests_the_far_corner 1 0%nat s d 400 200 (-5) (-5) 10 10
                    eq_refl Hdim)); lia.
Defined.

(** A buffer too short to be an image. *)
Lemma collaborator_errors_pass_through_witness :
  let s := Toy.one [Byte.x00] in
  rotate 0 0%nat 90 false s
  = (Raise (LibError 1), logged (LibTransform 0%nat (OpRotate 90)) s) /\
  crop 0 0%nat 0 0 1 1 s = (Raise (LibError 1), logged (LibDimensions 0%nat) s) /\
  downscale 1 0%nat 1 1 75 s = (Raise (LibError 1), logged (LibDimensions 0%nat) s).
Proof.
  intros s.
  destruct (collaborator_errors_pass_through 0 0%nat s [Byte.x00] (LibError 1) eq_refl)
    as (Htransform & Hdimensions).
  split; [apply (Htransform Rotate90 false); reflexivity |].
  destruct Hdimensions as (Hcrop & Hdownscale); [reflexivity |].
  split; [exact (Hcrop 0 0 1 1) | exact (Hdownscale 1 1 75)].
Defined.

(** The thumbnail step on a 4x0 image with a thumbnail. *)
Lemma zero_height_raises_ZeroDivisionError_witness :
  let d := Toy.image 4 0 Byte.x01 Toy.thumb in
  let s := Toy.one d in
  _update_thumbnail 1 0%nat s
  = (Raise ZeroDivisionError,
     queried 4 0%nat
       (allocated Toy.thumb
          (logged (LibGetThumbnail 0%nat) (logged (EnterUpdateThumbnail 0%nat) s)))).
Proof.
  intros d s.
  apply (zero_height_raises_ZeroDivisionError 1 0%nat s d Toy.thumb 4).
  - reflexivity.
  - vm_compute. reflexivity.
  - discriminate.
  - vm_compute. reflexivity.
Defined.

End FurtherWitnesses.
